(** * Spades-Bot: the round and trick state machine and its scoring

    A shallow embedding of the rules engines of the Spades bot:

    - [JS]       the string and number primitives the engines call;
    - [CardJs]   game_logic/Card.js, Deck.js and Player.js;
    - [Manager]  game_logic/GameManager.js, the engine index.js instantiates;
    - [Engine]   game_logic/Game.js, the class-based engine.

    Public announcements and private prompts are calls to external hooks;
    they carry no state, so the embedding keeps the state changes and names
    the return path a call takes in its result. *)

From Stdlib Require Import ZArith QArith List Bool String Ascii Lia Permutation.
From Stdlib Require Import Floats.SpecFloat.
From Stdlib Require Import Sorted.
Import ListNotations.
Local Open Scope string_scope.
Local Open Scope list_scope.
Local Open Scope Z_scope.

Set Implicit Arguments.

(* ================================================================== *)
(** ** JavaScript primitives *)

Module JS.

(** [String.prototype.toUpperCase] on the ASCII letters; other code units
    are kept as they are. *)
Definition upperChar (c : ascii) : ascii :=
  let n := nat_of_ascii c in
  if (97 <=? n)%nat && (n <=? 122)%nat then ascii_of_nat (n - 32) else c.

Fixpoint toUpperCase (s : string) : string :=
  match s with
  | EmptyString => EmptyString
  | String c r => String (upperChar c) (toUpperCase r)
  end.

(** White space removed by [String.prototype.trim]: space, tab, line feed,
    vertical tab, form feed, carriage return. *)
Definition isSpace (c : ascii) : bool :=
  let n := nat_of_ascii c in
  (n =? 32)%nat || ((9 <=? n)%nat && (n <=? 13)%nat).

Fixpoint trimStart (s : string) : string :=
  match s with
  | EmptyString => EmptyString
  | String c r => if isSpace c then trimStart r else s
  end.

Fixpoint allSpace (s : string) : bool :=
  match s with
  | EmptyString => true
  | String c r => isSpace c && allSpace r
  end.

Fixpoint trimEnd (s : string) : string :=
  match s with
  | EmptyString => EmptyString
  | String c r => if allSpace s then EmptyString else String c (trimEnd r)
  end.

Definition trim (s : string) : string := trimEnd (trimStart s).

Definition startsWith (s p : string) : bool := String.prefix p s.

Definition endsWith (s p : string) : bool :=
  let n := String.length s in
  let k := String.length p in
  (k <=? n)%nat && String.eqb (String.substring (n - k) k s) p.

(** [s[i]]: the one-character string at index [i], [None] for undefined. *)
Definition charAt (s : string) (i : nat) : option ascii := String.get i s.

Definition digitValue (c : ascii) : option Z :=
  let n := nat_of_ascii c in
  if (48 <=? n)%nat && (n <=? 57)%nat then Some (Z.of_nat (n - 48)) else None.

(** The longest prefix of decimal digits, read as a number; [None] when the
    string does not start with a digit. *)
Fixpoint digitsPrefix (acc : option Z) (s : string) : option Z :=
  match s with
  | EmptyString => acc
  | String c r =>
      match digitValue c with
      | Some d =>
          digitsPrefix (Some (10 * match acc with Some a => a | None => 0 end + d)) r
      | None => acc
      end
  end.

(** [parseInt(s, 10)]: leading white space, an optional sign, then decimal
    digits up to the first other character; [None] is NaN. *)
Definition parseInt (s : string) : option Z :=
  match trimStart s with
  | String "-" r => option_map Z.opp (digitsPrefix None r)
  | String "+" r => digitsPrefix None r
  | t => digitsPrefix None t
  end.

(** Values a caller can pass where a number is expected. *)
Inductive Value : Type :=
| Undefined
| Null
| Boolean (b : bool)
| Str (s : string)
| Number (x : spec_float)
| Object.

(** [typeof v === 'number'] *)
Definition isNumber (v : Value) : bool :=
  match v with Number _ => true | _ => false end.

(** Binary64 constants. *)
Definition zero : spec_float := S754_zero false.
Definition ofZ (z : Z) : spec_float := binary_normalize 53 1024 z 0 false.
Definition thirteen : spec_float := Eval vm_compute in ofZ 13.
Definition isDouble (x : spec_float) : bool := valid_binary 53 1024 x.

End JS.

(** The trait of a bid value: JavaScript compares it with [=== 0]. *)
Class BidValue (B : Type) := { strictEqZero : B -> bool }.

#[export] Instance BidValue_Z : BidValue Z := { strictEqZero := Z.eqb 0 }.
#[export] Instance BidValue_double : BidValue spec_float :=
  { strictEqZero := fun x => SFeqb x JS.zero }.

(* ================================================================== *)
(** ** Card.js, Deck.js, Player.js *)

Module CardJs.

(** Keys of [SUITS_MAP], in the order [Object.keys] gives them. *)
Inductive Suit : Type := Clubs | Diamonds | Hearts | Spades.

(** Keys of [RANKS_MAP]: '2'..'9' then 'T', 'J', 'Q', 'K', 'A'. *)
Inductive Rank : Type :=
| Two | Three | Four | Five | Six | Seven | Eight | Nine
| Ten | Jack | Queen | King | Ace.

Definition suit_eqb (a b : Suit) : bool :=
  match a, b with
  | Clubs, Clubs | Diamonds, Diamonds | Hearts, Hearts | Spades, Spades => true
  | _, _ => false
  end.

(** [RANKS_MAP[rankCode].value] *)
Definition rankValue (r : Rank) : Z :=
  match r with
  | Two => 2 | Three => 3 | Four => 4 | Five => 5 | Six => 6 | Seven => 7
  | Eight => 8 | Nine => 9 | Ten => 10 | Jack => 11 | Queen => 12
  | King => 13 | Ace => 14
  end.

Definition rankCodeStr (r : Rank) : string :=
  match r with
  | Two => "2" | Three => "3" | Four => "4" | Five => "5" | Six => "6"
  | Seven => "7" | Eight => "8" | Nine => "9" | Ten => "T" | Jack => "J"
  | Queen => "Q" | King => "K" | Ace => "A"
  end.

Definition suitCodeStr (s : Suit) : string :=
  match s with
  | Clubs => "C" | Diamonds => "D" | Hearts => "H" | Spades => "S"
  end.

(** [SUITS_MAP[suitCode].symbol]: the suit emoji (a suit sign followed by
    the variation selector U+FE0F), as its UTF-8 bytes. *)
Definition vs16 : string :=
  String (ascii_of_nat 239) (String (ascii_of_nat 184) (String (ascii_of_nat 143) "")).

Definition suitSign (last : nat) : string :=
  String (ascii_of_nat 226) (String (ascii_of_nat 153) (String (ascii_of_nat last) "")).

Definition suitSymbol (s : Suit) : string :=
  match s with
  | Clubs => String.append (suitSign 163) vs16
  | Diamonds => String.append (suitSign 166) vs16
  | Hearts => String.append (suitSign 165) vs16
  | Spades => String.append (suitSign 160) vs16
  end.

Record Card : Type := mkCard { rankCode : Rank; suitCode : Suit }.

(** Team number, 1 or 2. *)
Inductive Team : Type := Team1 | Team2.

Definition team_eqb (a b : option Team) : bool :=
  match a, b with
  | Some Team1, Some Team1 | Some Team2, Some Team2 | None, None => true
  | _, _ => false
  end.

Definition value (c : Card) : Z := rankValue (rankCode c).

(** [rankCode === 'T' ? '10' : rankCode] *)
Definition rankText (c : Card) : string :=
  match rankCode c with Ten => "10" | r => rankCodeStr r end.

Definition symbol (c : Card) : string := suitSymbol (suitCode c).

(** [this.code = this.rankText + this.symbol] *)
Definition code (c : Card) : string := String.append (rankText c) (symbol c).

(** [this.shortDisplay = rankCode + suitCode] *)
Definition shortDisplay (c : Card) : string :=
  String.append (rankCodeStr (rankCode c)) (suitCodeStr (suitCode c)).

Definition card_eqb (a b : Card) : bool :=
  suit_eqb (suitCode a) (suitCode b) && (value a =? value b).

Definition getRankCodes : list Rank :=
  [Two; Three; Four; Five; Six; Seven; Eight; Nine; Ten; Jack; Queen; King; Ace].

Definition getSuitCodes : list Suit := [Clubs; Diamonds; Hearts; Spades].

(** *** Deck.js *)

(** [Deck.reset]: suits outermost, ranks innermost. *)
Definition reset : list Card :=
  flat_map (fun s => map (fun r => mkCard r s) getRankCodes) getSuitCodes.

Fixpoint setNth (A : Type) (l : list A) (i : nat) (x : A) : list A :=
  match l, i with
  | [], _ => []
  | _ :: t, O => x :: t
  | h :: t, S k => h :: setNth t k x
  end.

(** [[a[i], a[j]] = [a[j], a[i]]] *)
Definition swap (A : Type) (l : list A) (i j : nat) : list A :=
  match nth_error l i, nth_error l j with
  | Some x, Some y => setNth (setNth l i y) j x
  | _, _ => l
  end.

(** [Deck.shuffle]: Fisher-Yates. [rand i] stands for the draw
    [Math.random()] makes at loop index [i]; [Math.floor(r * (i + 1))]
    lies in [0, i]. *)
Fixpoint shuffleFrom (A : Type) (rand : nat -> nat) (i : nat) (cards : list A) : list A :=
  match i with
  | O => cards
  | S k => shuffleFrom rand k (swap cards i (rand i mod (i + 1)))
  end.

Definition shuffle (A : Type) (rand : nat -> nat) (cards : list A) : list A :=
  shuffleFrom rand (List.length cards - 1) cards.

(** [Deck.deal]: [this.cards.pop()], the last card of the array. *)
Definition deal (A : Type) (cards : list A) : option (A * list A) :=
  match rev cards with
  | [] => None
  | c :: r => Some (c, rev r)
  end.

(** *** Player.js

    The bid is [null] until [setBid]. Player.js declares the trick counter
    as [tricksTaken]; GameManager reads it as [tricksWon]. The record keeps
    one counter, under the name GameManager reads. *)
Record Player (B : Type) : Type := mkPlayer {
  discordId : string;
  username : string;
  hand : list Card;
  bid : option B;
  isNil : bool;
  tricksWon : Z;
  score : Z;
  bags : Z;
  team : option Team
}.

Section PlayerMethods.
Context {B : Type} `{BidValue B}.

Definition newPlayer (id name : string) : Player B :=
  mkPlayer id name [] None false 0 0 0 None.

Definition addCard (p : Player B) (c : Card) : Player B :=
  mkPlayer (discordId p) (username p) (hand p ++ [c]) (bid p) (isNil p)
           (tricksWon p) (score p) (bags p) (team p).

Definition setHand (p : Player B) (h : list Card) : Player B :=
  mkPlayer (discordId p) (username p) h (bid p) (isNil p)
           (tricksWon p) (score p) (bags p) (team p).

Definition setBid (p : Player B) (bidAmount : B) : Player B :=
  mkPlayer (discordId p) (username p) (hand p) (Some bidAmount)
           (strictEqZero bidAmount) (tricksWon p) (score p) (bags p) (team p).

Definition resetForNewRound (p : Player B) : Player B :=
  mkPlayer (discordId p) (username p) [] None false 0 (score p) (bags p) (team p).

(** Modelled from the spec: [Player.addTrick], which [GameManager.endTrick]
    calls and Player.js does not define. The spec's Player State keeps the
    "tricks won this round"; winning a trick adds one to it. *)
Definition addTrick (p : Player B) : Player B :=
  mkPlayer (discordId p) (username p) (hand p) (bid p) (isNil p)
           (tricksWon p + 1) (score p) (bags p) (team p).

Definition setScore (p : Player B) (s : Z) : Player B :=
  mkPlayer (discordId p) (username p) (hand p) (bid p) (isNil p)
           (tricksWon p) s (bags p) (team p).

Definition setBags (p : Player B) (b : Z) : Player B :=
  mkPlayer (discordId p) (username p) (hand p) (bid p) (isNil p)
           (tricksWon p) (score p) b (team p).

Definition setTeam (p : Player B) (t : option Team) : Player B :=
  mkPlayer (discordId p) (username p) (hand p) (bid p) (isNil p)
           (tricksWon p) (score p) (bags p) t.

(** [findIndex(card => card.code === cardCode.toUpperCase())] and
    [splice(index, 1)] *)
Fixpoint removeByCode (uc : string) (h : list Card) : option (Card * list Card) :=
  match h with
  | [] => None
  | c :: r =>
      if String.eqb (code c) uc then Some (c, r)
      else match removeByCode uc r with
           | Some (x, r') => Some (x, c :: r')
           | None => None
           end
  end.

Definition playCard (p : Player B) (cardCode : string) : option (Card * Player B) :=
  match removeByCode (JS.toUpperCase cardCode) (hand p) with
  | Some (c, h) => Some (c, setHand p h)
  | None => None
  end.

(** [suitOrder] of [sortHand] *)
Definition suitOrder (s : Suit) : Z :=
  match s with Spades => 4 | Hearts => 3 | Diamonds => 2 | Clubs => 1 end.

(** The comparator of [sortHand]: negative when [a] sorts before [b]. *)
Definition compareCards (a b : Card) : Z :=
  if suitOrder (suitCode a) =? suitOrder (suitCode b)
  then value b - value a
  else suitOrder (suitCode b) - suitOrder (suitCode a).

(** [Array.prototype.sort] is stable: insertion after the equal elements. *)
Fixpoint insertCard (c : Card) (l : list Card) : list Card :=
  match l with
  | [] => [c]
  | x :: r => if compareCards c x <? 0 then c :: l else x :: insertCard c r
  end.

Definition sortCards (l : list Card) : list Card :=
  fold_left (fun acc c => insertCard c acc) l [].

Definition sortHand (p : Player B) : Player B := setHand p (sortCards (hand p)).

(** [getCard]: the first card of the hand whose code is the upper-cased
    text; [None] is the [null] the method answers otherwise. *)
Definition getCard (p : Player B) (cardCode : string) : option Card :=
  find (fun c => String.eqb (code c) (JS.toUpperCase cardCode)) (hand p).

End PlayerMethods.

End CardJs.

(* ================================================================== *)
(** ** GameManager.js *)

Module Manager.
Import CardJs.

(** The state labels; GameManager itself assigns 'LOBBY' and 'BIDDING'. *)
Inductive GameState : Type := LOBBY | BIDDING | PLAYING | ROUND_END | GAME_END.

Definition state_eqb (a b : GameState) : bool :=
  match a, b with
  | LOBBY, LOBBY | BIDDING, BIDDING | PLAYING, PLAYING
  | ROUND_END, ROUND_END | GAME_END, GAME_END => true
  | _, _ => false
  end.

(** An entry of [currentTrick]: [{ playerId, card }]. *)
Record TrickEntry : Type := mkEntry { playerId : string; card : Card }.

Record GameManager (B : Type) : Type := mkGame {
  deck : list Card;
  players : list (Player B);
  targetScore : Z;
  isGameActive : bool;
  state : GameState;
  currentPlayerIndex : nat;
  bidsTaken : nat;
  isBiddingActive : bool;
  isTrickActive : bool;
  currentTrick : list TrickEntry;
  trickSuit : option Suit;
  spadesBroken : bool
}.

(** Why a bid or a play was turned down, or which path accepted it. *)
Inductive BidResult : Type :=
| BiddingInactive | BidNotYourTurn | InvalidBid | BidThrew
| BidAccepted.

Inductive PlayResult : Type :=
| TrickNotActive | NotRegistered | PlayNotYourTurn | InvalidCard
| SpadesNotBroken | MustFollowSuit | InternalError
| CardPlayed
| TrickWon (winnerId : string)
| RoundOver (winnerId : string) (gameOver : bool)
| PlayThrew.

(** [processBid] and [processCardPlay] return [true] exactly on the
    accepting paths. *)
Definition bidReturn (r : BidResult) : bool :=
  match r with BidAccepted => true | _ => false end.

Definition playReturn (r : PlayResult) : bool :=
  match r with CardPlayed | TrickWon _ | RoundOver _ _ => true | _ => false end.

Inductive ParsedBid : Type := NIL | Num (n : Z).

Inductive Phase : Type := PhaseBid | PhaseTrick.

Fixpoint updateFirst (A : Type) (pred : A -> bool) (f : A -> A) (l : list A) : list A :=
  match l with
  | [] => []
  | x :: r => if pred x then f x :: r else x :: updateFirst pred f r
  end.

Fixpoint updateNth (A : Type) (i : nat) (f : A -> A) (l : list A) : list A :=
  match l, i with
  | [], _ => []
  | x :: r, O => f x :: r
  | x :: r, S k => x :: updateNth k f r
  end.

Fixpoint findIndex (A : Type) (pred : A -> bool) (l : list A) : option nat :=
  match l with
  | [] => None
  | x :: r => if pred x then Some O else option_map S (findIndex pred r)
  end.

Section Generic.
Context {B : Type} `{BidValue B}.

Definition setDeck (g : GameManager B) (d : list Card) : GameManager B :=
  mkGame d (players g) (targetScore g) (isGameActive g) (state g)
         (currentPlayerIndex g) (bidsTaken g) (isBiddingActive g)
         (isTrickActive g) (currentTrick g) (trickSuit g) (spadesBroken g).

Definition setPlayers (g : GameManager B) (ps : list (Player B)) : GameManager B :=
  mkGame (deck g) ps (targetScore g) (isGameActive g) (state g)
         (currentPlayerIndex g) (bidsTaken g) (isBiddingActive g)
         (isTrickActive g) (currentTrick g) (trickSuit g) (spadesBroken g).

Definition setGameActive (g : GameManager B) (b : bool) : GameManager B :=
  mkGame (deck g) (players g) (targetScore g) b (state g)
         (currentPlayerIndex g) (bidsTaken g) (isBiddingActive g)
         (isTrickActive g) (currentTrick g) (trickSuit g) (spadesBroken g).

Definition setState (g : GameManager B) (s : GameState) : GameManager B :=
  mkGame (deck g) (players g) (targetScore g) (isGameActive g) s
         (currentPlayerIndex g) (bidsTaken g) (isBiddingActive g)
         (isTrickActive g) (currentTrick g) (trickSuit g) (spadesBroken g).

Definition setIndex (g : GameManager B) (i : nat) : GameManager B :=
  mkGame (deck g) (players g) (targetScore g) (isGameActive g) (state g)
         i (bidsTaken g) (isBiddingActive g)
         (isTrickActive g) (currentTrick g) (trickSuit g) (spadesBroken g).

Definition setBidsTaken (g : GameManager B) (n : nat) : GameManager B :=
  mkGame (deck g) (players g) (targetScore g) (isGameActive g) (state g)
         (currentPlayerIndex g) n (isBiddingActive g)
         (isTrickActive g) (currentTrick g) (trickSuit g) (spadesBroken g).

Definition setBiddingActive (g : GameManager B) (b : bool) : GameManager B :=
  mkGame (deck g) (players g) (targetScore g) (isGameActive g) (state g)
         (currentPlayerIndex g) (bidsTaken g) b
         (isTrickActive g) (currentTrick g) (trickSuit g) (spadesBroken g).

Definition setTrickActive (g : GameManager B) (b : bool) : GameManager B :=
  mkGame (deck g) (players g) (targetScore g) (isGameActive g) (state g)
         (currentPlayerIndex g) (bidsTaken g) (isBiddingActive g)
         b (currentTrick g) (trickSuit g) (spadesBroken g).

Definition setTrick (g : GameManager B) (t : list TrickEntry) : GameManager B :=
  mkGame (deck g) (players g) (targetScore g) (isGameActive g) (state g)
         (currentPlayerIndex g) (bidsTaken g) (isBiddingActive g)
         (isTrickActive g) t (trickSuit g) (spadesBroken g).

Definition setTrickSuit (g : GameManager B) (s : option Suit) : GameManager B :=
  mkGame (deck g) (players g) (targetScore g) (isGameActive g) (state g)
         (currentPlayerIndex g) (bidsTaken g) (isBiddingActive g)
         (isTrickActive g) (currentTrick g) s (spadesBroken g).

Definition setSpadesBroken (g : GameManager B) (b : bool) : GameManager B :=
  mkGame (deck g) (players g) (targetScore g) (isGameActive g) (state g)
         (currentPlayerIndex g) (bidsTaken g) (isBiddingActive g)
         (isTrickActive g) (currentTrick g) (trickSuit g) b.

(** [constructor(publicAnnounce, privatePrompt, targetScore = 500)] *)
Definition defaultTargetScore : Z := 500.

Definition newGame (target : Z) : GameManager B :=
  mkGame reset [] target false LOBBY 0 0 false false [] None false.

Definition hasId (pid : string) (p : Player B) : bool :=
  String.eqb (discordId p) pid.

Definition getPlayerById (g : GameManager B) (pid : string) : option (Player B) :=
  find (hasId pid) (players g).

Definition peekCardInHand (p : Player B) (cardCode : string) : option Card :=
  let upperCode := JS.toUpperCase (JS.trim cardCode) in
  find (fun c => String.eqb (JS.toUpperCase (code c)) upperCode) (hand p).

(** [addPlayer]: [None] is the 'Lobby is full!' error. There is no
    [setupPartnerships] method, so the placeholder team stays. *)
Definition addPlayer (g : GameManager B) (id name : string) : option (GameManager B) :=
  if (4 <=? List.length (players g))%nat then None
  else
    let teamId := if (List.length (players g) mod 2 =? 0)%nat then Team2 else Team1 in
    Some (setPlayers g (players g ++ [setTeam (newPlayer id name) (Some teamId)])).

Definition isLobbyFull (g : GameManager B) : bool :=
  (4 <=? List.length (players g))%nat.

(** The loop of [dealCards]: card [i] goes to seat [i % players.length].
    The deck has just been reset when it runs, so [deal] finds a card. *)
Fixpoint dealLoop (n i : nat) (d : list Card) (ps : list (Player B))
  : list Card * list (Player B) :=
  match n with
  | O => (d, ps)
  | S k =>
      match deal d with
      | None => (d, ps)
      | Some (c, d') =>
          dealLoop k (S i) d'
                   (updateNth (i mod List.length ps) (fun p => addCard p c) ps)
      end
  end.

(** [dealCards]; [getHandDisplay] sorts each hand as it prints it. *)
Definition dealCards (g : GameManager B) : GameManager B :=
  let '(d, ps) := dealLoop 52 0 (deck g) (map resetForNewRound (players g)) in
  setPlayers (setDeck g d) (map sortHand ps).

Definition startBidding (g : GameManager B) : GameManager B :=
  setBidsTaken (setBiddingActive (setState g BIDDING) true) 0.

Definition startGame (rand : nat -> nat) (g : GameManager B) : GameManager B :=
  if negb (List.length (players g) =? 4)%nat then g
  else startBidding (dealCards (setDeck (setGameActive g true) (shuffle rand reset))).

(** [sendPlayCardPrompt] prints the player's hand through
    [getHandDisplay], which sorts it in place. For the text of the prompt it
    also reads [Card.CARD_EMOJIS], a table Card.js does not have (the Card
    class of Game.js has it); the text is outside the embedding and the
    table is taken as present. *)
Definition sendPlayCardPrompt (g : GameManager B) (i : nat) : GameManager B :=
  setPlayers g (updateNth i sortHand (players g)).

Definition advanceTurn (phase : Phase) (g : GameManager B) : GameManager B :=
  let i := ((currentPlayerIndex g + 1) mod List.length (players g))%nat in
  let g' := setIndex g i in
  match phase with
  | PhaseBid => g'
  | PhaseTrick => sendPlayCardPrompt g' i
  end.

Definition startTricks (g : GameManager B) : GameManager B :=
  let g' := setTrickSuit (setTrick (setTrickActive g true) []) None in
  sendPlayCardPrompt g' (currentPlayerIndex g').

Definition endBidding (g : GameManager B) : GameManager B :=
  startTricks (setBiddingActive g false).

(** The bookkeeping both bid entry points share once a bid is accepted. *)
Definition recordBid (g : GameManager B) (bidAmount : B) : GameManager B :=
  let g1 := setPlayers g (updateNth (currentPlayerIndex g)
                                    (fun p => setBid p bidAmount) (players g)) in
  let g2 := setBidsTaken g1 (S (bidsTaken g1)) in
  if (bidsTaken g2 <? List.length (players g2))%nat
  then advanceTurn PhaseBid g2
  else endBidding g2.

(** [winningCard.suitCode === ledSuitCode], where the led suit may be null *)
Definition isLedSuit (led : option Suit) (c : Card) : bool :=
  match led with
  | Some s => suit_eqb (suitCode c) s
  | None => false
  end.

Definition isSpade (c : Card) : bool := suit_eqb (suitCode c) Spades.

(** The callback of the [reduce] in [getWinnerOfTrick]. *)
Definition pickWinner (led : option Suit) (winningEntry currentEntry : TrickEntry)
  : TrickEntry :=
  let winningCard := card winningEntry in
  let currentCard := card currentEntry in
  if isSpade currentCard && negb (isSpade winningCard) then currentEntry
  else if isSpade winningCard && negb (isSpade currentCard) then winningEntry
  else if isSpade currentCard && isSpade winningCard then
    (if value winningCard <? value currentCard then currentEntry else winningEntry)
  else if isLedSuit led currentCard then
    (if negb (isLedSuit led winningCard) then currentEntry
     else if value winningCard <? value currentCard then currentEntry
     else winningEntry)
  else winningEntry.

(** [getWinnerOfTrick]: [None] is the [undefined] an empty trick gives. *)
Definition getWinnerOfTrick (g : GameManager B) : option TrickEntry :=
  match currentTrick g with
  | [] => None
  | first :: _ => Some (fold_left (pickWinner (trickSuit g)) (currentTrick g) first)
  end.

End Generic.

(** *** Bids typed as text: [processBid] *)

Definition validateBid (rawBidValue : string) : option ParsedBid :=
  let value := JS.toUpperCase (JS.trim rawBidValue) in
  if String.eqb value "NIL" then Some NIL
  else match JS.parseInt value with
       | Some num => if (1 <=? num) && (num <=? 13) then Some (Num num) else None
       | None => None
       end.

Definition processBid (g : GameManager Z) (pid rawBidValue : string)
  : BidResult * GameManager Z :=
  if negb (isBiddingActive g) then (BiddingInactive, g)
  else match nth_error (players g) (currentPlayerIndex g) with
       | None => (BidThrew, g)
       | Some currentPlayer =>
           if negb (String.eqb (discordId currentPlayer) pid) then (BidNotYourTurn, g)
           else match validateBid rawBidValue with
                | None => (InvalidBid, g)
                | Some parsedBid =>
                    let bidAmount := match parsedBid with NIL => 0 | Num n => n end in
                    (BidAccepted, recordBid g bidAmount)
                end
       end.

(** *** Bids sent by the buttons: [tryPlaceBid] *)

Inductive TryBidResult : Type :=
| TryInactive | TryNotYourTurn | TryInvalid | TryThrew
| TryPlaced (isNilDisplay : bool) (biddingComplete : bool) (bidsRemaining : nat).

Definition tryPlaceBid (g : GameManager spec_float) (pid : string) (bidAmount : JS.Value)
  : TryBidResult * GameManager spec_float :=
  if negb (isBiddingActive g) || negb (state_eqb (state g) BIDDING)
  then (TryInactive, g)
  else match nth_error (players g) (currentPlayerIndex g) with
       | None => (TryThrew, g)
       | Some currentPlayer =>
           if negb (String.eqb (discordId currentPlayer) pid) then (TryNotYourTurn, g)
           else match bidAmount with
                | JS.Number x =>
                    if SFltb x JS.zero || SFltb JS.thirteen x then (TryInvalid, g)
                    else
                      let g' := recordBid g x in
                      (TryPlaced (SFeqb x JS.zero)
                                 (negb (S (bidsTaken g) <? List.length (players g))%nat)
                                 (List.length (players g') - bidsTaken g'),
                       g')
                | _ => (TryInvalid, g)
                end
       end.

(** *** Round-end scoring *)

(** [sum + p.bid]: a [null] bid adds 0. *)
Definition bidNumber (p : Player Z) : Z :=
  match bid p with Some n => n | None => 0 end.

Definition sumOver (f : Player Z -> Z) (ps : list (Player Z)) : Z :=
  fold_left (fun sum p => sum + f p) ps 0.

Definition onTeam (t : option Team) (p : Player Z) : bool := team_eqb (team p) t.

(** The keys of the [teams] object in [for ... in] order: the integer keys
    ascending, then the key of players without a team. *)
Definition teamKeys : list (option Team) := [Some Team1; Some Team2; None].

Definition scoreNilPlayer (p : Player Z) : Player Z :=
  if tricksWon p =? 0 then setScore p (score p + 100)
  else setScore p (score p - 100).

(** One turn of the [for (const teamId in teams)] loop of [endRound]. *)
Definition scoreTeam (ps : list (Player Z)) (t : option Team) : list (Player Z) :=
  let teamPlayers := filter (onTeam t) ps in
  match teamPlayers with
  | [] => ps
  | _ =>
      let totalBid := sumOver bidNumber teamPlayers in
      let totalTricks := sumOver (@tricksWon Z) teamPlayers in
      let nilPlayers := filter (@isNil Z) teamPlayers in
      let totalNilTricksWon := sumOver (@tricksWon Z) nilPlayers in
      let standardBid := totalBid in
      let standardTricks := totalTricks - totalNilTricksWon in
      let teamScoreChange :=
        if standardBid <=? standardTricks then standardBid * 10
        else - (standardBid * 10) in
      let teamBags :=
        if standardBid <=? standardTricks then standardTricks - standardBid
        else 0 in
      (* scoring changes score and bags only, which the totals do not read *)
      let ps1 := map (fun p => if onTeam t p && isNil p then scoreNilPlayer p else p) ps in
      let ps2 := map (fun p => if onTeam t p then setScore p (score p + teamScoreChange)
                               else p) ps1 in
      updateFirst (onTeam t) (fun p => setBags p (bags p + teamBags)) ps2
  end.

Definition scoreContracts (ps : list (Player Z)) : list (Player Z) :=
  fold_left scoreTeam teamKeys ps.

(** One turn of the loop of [calculateAndApplyBags]. *)
Definition applyBags (ps : list (Player Z)) (t : option Team) : list (Player Z) :=
  let teamPlayers := filter (onTeam t) ps in
  let totalBags := sumOver (@bags Z) teamPlayers in
  if 10 <=? totalBags then
    let bagPenalty := totalBags / 10 * 100 in
    let remainingBags := Z.rem totalBags 10 in
    let ps1 := map (fun p => if onTeam t p
                             then setBags (setScore p (score p - bagPenalty)) 0
                             else p) ps in
    updateFirst (onTeam t) (fun p => setBags p remainingBags) ps1
  else ps.

Definition calculateAndApplyBags (ps : list (Player Z)) : list (Player Z) :=
  fold_left applyBags teamKeys ps.

(** [announceTeamScores]: half the sum of the two players' scores. *)
Definition teamScore (t : Team) (ps : list (Player Z)) : Q :=
  (inject_Z (sumOver (@score Z) (filter (onTeam (Some t)) ps)) / 2)%Q.

Definition teamBagTotal (t : Team) (ps : list (Player Z)) : Z :=
  sumOver (@bags Z) (filter (onTeam (Some t)) ps).

Definition announceTeamScores (ps : list (Player Z)) : Q * Q :=
  (teamScore Team1 ps, teamScore Team2 ps).

Definition checkGameEnd (target : Z) (scores : Q * Q) : bool :=
  Qle_bool (inject_Z target) (fst scores) || Qle_bool (inject_Z target) (snd scores).

Definition startNextRound (rand : nat -> nat) (g : GameManager Z) : GameManager Z :=
  let i := ((currentPlayerIndex g + 1) mod List.length (players g))%nat in
  startBidding (dealCards (setDeck (setIndex g i) (shuffle rand reset))).

(** [endRound]; the flag tells whether [checkGameEnd] ended the game. *)
Definition endRound (rand : nat -> nat) (g : GameManager Z) : bool * GameManager Z :=
  let g1 := setTrickActive g false in
  let ps := calculateAndApplyBags (scoreContracts (players g1)) in
  let g2 := setPlayers g1 ps in
  if checkGameEnd (targetScore g2) (announceTeamScores ps) then (true, g2)
  else (false, startNextRound rand g2).

(** *** Trick play *)

(** [endTrick]. The winner is looked up by id with [find] and, for the next
    lead, with [findIndex]; both stop at the same seat. *)
Definition endTrick (rand : nat -> nat) (g : GameManager Z) (winnerId : string)
  : PlayResult * GameManager Z :=
  match findIndex (hasId winnerId) (players g) with
  | None => (PlayThrew, g)
  | Some i =>
      let g1 := setPlayers g (updateNth i addTrick (players g)) in
      match nth_error (players g1) i with
      | None => (PlayThrew, g1)
      | Some winner =>
          if (List.length (hand winner) =? 0)%nat then
            let '(over, g2) := endRound rand (setTrickActive g1 false) in
            (RoundOver winnerId over, g2)
          else
            let g2 := setIndex (setTrickSuit (setTrick g1 []) None) i in
            (TrickWon winnerId, sendPlayCardPrompt g2 i)
      end
  end.

Definition evaluateTrick (rand : nat -> nat) (g : GameManager Z)
  : PlayResult * GameManager Z :=
  match getWinnerOfTrick g with
  | None => (PlayThrew, g)
  | Some winningEntry => endTrick rand g (playerId winningEntry)
  end.

(** [this.trickSuit !== 'S'] *)
Definition ledSpades (led : option Suit) : bool :=
  match led with Some Spades => true | _ => false end.

(** Steps 3 to 5 of [processCardPlay], once the card passed validation. *)
Definition playValidated (rand : nat -> nat) (g : GameManager Z)
           (player : Player Z) (pid rawCard : string)
  : PlayResult * GameManager Z :=
  match playCard player (JS.toUpperCase (JS.trim rawCard)) with
  | None => (InternalError, g)
  | Some (playedCard, player') =>
      let g1 := setPlayers g (updateFirst (hasId pid) (fun _ => player') (players g)) in
      let g2 := setTrick g1 (currentTrick g1 ++ [mkEntry pid playedCard]) in
      let g3 := if isSpade playedCard && negb (ledSpades (trickSuit g2))
                   && negb (spadesBroken g2)
                then setSpadesBroken g2 true else g2 in
      if (List.length (currentTrick g3) =? List.length (players g3))%nat
      then evaluateTrick rand g3
      else (CardPlayed, advanceTurn PhaseTrick g3)
  end.

Definition processCardPlay (rand : nat -> nat) (g : GameManager Z) (pid rawCard : string)
  : PlayResult * GameManager Z :=
  if negb (isTrickActive g) then (TrickNotActive, g)
  else match getPlayerById g pid with
  | None => (NotRegistered, g)
  | Some player =>
  match nth_error (players g) (currentPlayerIndex g) with
  | None => (PlayThrew, g)
  | Some currentPlayer =>
  if negb (String.eqb (discordId currentPlayer) pid) then (PlayNotYourTurn, g)
  else match peekCardInHand player rawCard with
  | None =>
      (* the prompt prints the hand through getHandDisplay, which sorts it *)
      (InvalidCard, setPlayers g (updateFirst (hasId pid) sortHand (players g)))
  | Some cardToCheck =>
      match currentTrick g with
      | [] =>
          let hasOnlySpades := forallb isSpade (hand player) in
          if isSpade cardToCheck && negb (spadesBroken g) && negb hasOnlySpades
          then (SpadesNotBroken, g)
          else playValidated rand (setTrickSuit g (Some (suitCode cardToCheck)))
                             player pid rawCard
      | _ :: _ =>
          let hasLedSuit := existsb (isLedSuit (trickSuit g)) (hand player) in
          if negb (isLedSuit (trickSuit g) cardToCheck) && hasLedSuit
          then (MustFollowSuit, g)
          else playValidated rand g player pid rawCard
      end
  end end end.

(** *** What the table is told *)

(** [getTeamScoreDisplay]: the bid and the score it prints for a team, each
    the sum over the players of the team. *)
Definition displayedBid (t : Team) (ps : list (Player Z)) : Z :=
  sumOver bidNumber (filter (onTeam (Some t)) ps).

Definition displayedScore (t : Team) (ps : list (Player Z)) : Z :=
  sumOver (@score Z) (filter (onTeam (Some t)) ps).

(** The announcement [checkGameEnd] makes when it ends the game. *)
Inductive Outcome : Type := Tie | Wins (t : Team).

(** [Math.max(a, b)] *)
Definition mathMax (a b : Q) : Q := if Qle_bool a b then b else a.

Definition announcedOutcome (target : Z) (scores : Q * Q) : option Outcome :=
  if checkGameEnd target scores then
    let winningScore := mathMax (fst scores) (snd scores) in
    Some (if Qeq_bool (fst scores) winningScore && Qeq_bool (snd scores) winningScore
          then Tie
          else if Qeq_bool (fst scores) winningScore then Wins Team1
          else Wins Team2)
  else None.

End Manager.

(* ================================================================== *)
(** ** Game.js *)

Module Engine.
Import CardJs.

(** [Card] of Game.js: [new Card(suit, rank)], suits 'S', 'H', 'D', 'C' and
    ranks 'A', 'K', 'Q', 'J', '10', '9', ..., '2'. *)
Record Card : Type := mkCard { suit : Suit; rank : Rank }.

(** [Card.getValue]; the default case is [parseInt(rank)] on '2'..'9'. *)
Definition getValue (r : Rank) : Z :=
  match r with
  | Ace => 14 | King => 13 | Queen => 12 | Jack => 11 | Ten => 10
  | Nine => 9 | Eight => 8 | Seven => 7 | Six => 6 | Five => 5
  | Four => 4 | Three => 3 | Two => 2
  end.

Definition value (c : Card) : Z := getValue (rank c).

Definition rank_eqb (a b : Rank) : bool := getValue a =? getValue b.

(** [bid]: 0 until a bid is made, 1-13, 14 for Nil. *)
Record Player : Type := mkPlayer {
  id : string;
  username : string;
  hand : list Card;
  bid : Z;
  tricks : Z;
  score : Z;
  bags : Z
}.

Definition setHand (p : Player) (h : list Card) : Player :=
  mkPlayer (id p) (username p) h (bid p) (tricks p) (score p) (bags p).

Definition setBags (p : Player) (b : Z) : Player :=
  mkPlayer (id p) (username p) (hand p) (bid p) (tricks p) (score p) b.

Definition addCard (p : Player) (c : Card) : Player := setHand p (hand p ++ [c]).

Definition getCardByCode (p : Player) (s : Suit) (r : Rank) : option Card :=
  find (fun c => suit_eqb (suit c) s && rank_eqb (rank c) r) (hand p).

(** An entry of [trick]: [{ player, card }]; the player object is given by
    its seat in [players]. *)
Record Play : Type := mkPlay { player : nat; card : Card }.

Inductive GameState : Type := INIT | BIDDING | PLAYING | ROUND_END | GAME_END.

Record Game : Type := mkGame {
  players : list Player;
  deck : list Card;
  state : GameState;
  currentRound : Z;
  dealerIndex : nat;
  currentPlayerIndex : nat;
  bidsCollected : nat;
  spadesBroken : bool;
  trick : list Play;
  team1 : Z;
  team2 : Z;
  maxScore : Z
}.

Definition setPlayers (g : Game) (ps : list Player) : Game :=
  mkGame ps (deck g) (state g) (currentRound g) (dealerIndex g)
         (currentPlayerIndex g) (bidsCollected g) (spadesBroken g) (trick g)
         (team1 g) (team2 g) (maxScore g).

Definition setDeck (g : Game) (d : list Card) : Game :=
  mkGame (players g) d (state g) (currentRound g) (dealerIndex g)
         (currentPlayerIndex g) (bidsCollected g) (spadesBroken g) (trick g)
         (team1 g) (team2 g) (maxScore g).

Definition setSpadesBroken (g : Game) (b : bool) : Game :=
  mkGame (players g) (deck g) (state g) (currentRound g) (dealerIndex g)
         (currentPlayerIndex g) (bidsCollected g) b (trick g)
         (team1 g) (team2 g) (maxScore g).

Definition setTeamScores (g : Game) (t1 t2 : Z) : Game :=
  mkGame (players g) (deck g) (state g) (currentRound g) (dealerIndex g)
         (currentPlayerIndex g) (bidsCollected g) (spadesBroken g) (trick g)
         t1 t2 (maxScore g).

(** *** Setup *)

(** [constructor(channelId, users)]; a user is given by id and name. *)
Definition newGame (users : list (string * string)) : Game :=
  mkGame (map (fun u => mkPlayer (fst u) (snd u) [] 0 0 0 0) users)
         [] INIT 1 0 0 0 false [] 0 0 500.

Definition createDeck : list Card :=
  flat_map (fun s => map (fun r => mkCard s r)
                         [Ace; King; Queen; Jack; Ten; Nine; Eight; Seven; Six;
                          Five; Four; Three; Two])
           [Spades; Hearts; Diamonds; Clubs].

Section Rounds.

(** The outcome of [Player.sortHand]. Its [suitOrder] table has no entry
    for clubs, the comparator answers NaN on them, and the order
    [Array.prototype.sort] then produces is left to the host. *)
Variable sortHandOrder : list Card -> list Card.

(** One pass of the inner loop of [dealCards]: a card to each player. *)
Fixpoint dealPass (d : list Card) (ps : list Player) : list Card * list Player :=
  match ps with
  | [] => (d, [])
  | p :: r =>
      match deal d with
      | Some (c, d') => let '(d'', r') := dealPass d' r in (d'', addCard p c :: r')
      | None => let '(d'', r') := dealPass d r in (d'', p :: r')
      end
  end.

Fixpoint dealPasses (n : nat) (d : list Card) (ps : list Player)
  : list Card * list Player :=
  match n with
  | O => (d, ps)
  | S k => let '(d', ps') := dealPass d ps in dealPasses k d' ps'
  end.

Definition dealCards (rand : nat -> nat) (g : Game) : Game :=
  let '(d, ps) := dealPasses 13 (shuffle rand createDeck) (players g) in
  setPlayers (setDeck g d) (map (fun p => setHand p (sortHandOrder (hand p))) ps).

Definition startRound (rand : nat -> nat) (g : Game) : Game :=
  let g1 := dealCards rand g in
  let ps := map (fun p => mkPlayer (id p) (username p) (hand p) 0 0 (score p) (bags p))
                (players g1) in
  mkGame ps (deck g1) BIDDING (currentRound g1) (dealerIndex g1)
         ((dealerIndex g1 + 1) mod List.length ps)%nat
         0 false [] (team1 g1) (team2 g1) (maxScore g1).

End Rounds.

(** *** Card parsing and validation *)

Inductive CardResult : Type :=
| Found (c : Card)
| InvalidFormat
| NotInHand
| SpadesNotBroken
| MustFollowSuit.

(** [possibleSuits.includes(ch)], with the suit the character names *)
Definition suitOfChar (ch : option ascii) : option Suit :=
  match ch with
  | Some "S"%char => Some Spades
  | Some "H"%char => Some Hearts
  | Some "D"%char => Some Diamonds
  | Some "C"%char => Some Clubs
  | _ => None
  end.

(** [possibleRanks.includes(ch)]: 'A', 'K', 'Q', 'J', '9', ..., '2' *)
Definition rankOfChar (ch : option ascii) : option Rank :=
  match ch with
  | Some "A"%char => Some Ace
  | Some "K"%char => Some King
  | Some "Q"%char => Some Queen
  | Some "J"%char => Some Jack
  | Some "9"%char => Some Nine
  | Some "8"%char => Some Eight
  | Some "7"%char => Some Seven
  | Some "6"%char => Some Six
  | Some "5"%char => Some Five
  | Some "4"%char => Some Four
  | Some "3"%char => Some Three
  | Some "2"%char => Some Two
  | _ => None
  end.

(** The parsing half of [getCardFromInput]: [None] when [suit] or [rank]
    stays empty. *)
Definition parseCard (cleanInput : string) : option (Suit * Rank) :=
  if (String.length cleanInput =? 3)%nat then
    match (if JS.startsWith cleanInput "10"
           then suitOfChar (JS.charAt cleanInput 2) else None) with
    | Some s => Some (s, Ten)
    | None =>
        match suitOfChar (JS.charAt cleanInput 0) with
        | Some s => if JS.endsWith cleanInput "10" then Some (s, Ten) else None
        | None => None
        end
    end
  else if (String.length cleanInput =? 2)%nat then
    match rankOfChar (JS.charAt cleanInput 0), suitOfChar (JS.charAt cleanInput 1) with
    | Some r, Some s => Some (s, r)
    | _, _ =>
        match suitOfChar (JS.charAt cleanInput 0), rankOfChar (JS.charAt cleanInput 1) with
        | Some s, Some r => Some (s, r)
        | _, _ => None
        end
    end
  else None.

Definition isSpade (c : Card) : bool := suit_eqb (suit c) Spades.

Definition getCardFromInput (g : Game) (p : Player) (input : string) : CardResult :=
  let cleanInput := JS.trim (JS.toUpperCase input) in
  match parseCard cleanInput with
  | None => InvalidFormat
  | Some (s, r) =>
      match getCardByCode p s r with
      | None => NotInHand
      | Some foundCard =>
          match trick g with
          | [] =>
              if suit_eqb s Spades && negb (spadesBroken g)
                 && existsb (fun c => negb (isSpade c)) (hand p)
              then SpadesNotBroken else Found foundCard
          | lead :: _ =>
              let followSuit := suit (card lead) in
              if negb (suit_eqb s followSuit)
                 && existsb (fun c => suit_eqb (suit c) followSuit) (hand p)
              then MustFollowSuit else Found foundCard
          end
      end
  end.

(** *** Trick winner *)

(** The body of the loop of [determineTrickWinner]. *)
Definition better (leadSuit : Suit) (winningPlay currentPlay : Play) : Play :=
  let currentCard := card currentPlay in
  let winningCard := card winningPlay in
  if isSpade currentCard && negb (isSpade winningCard) then currentPlay
  else if isSpade currentCard && isSpade winningCard then
    (if value winningCard <? value currentCard then currentPlay else winningPlay)
  else if suit_eqb (suit currentCard) leadSuit && suit_eqb (suit winningCard) leadSuit then
    (if value winningCard <? value currentCard then currentPlay else winningPlay)
  else winningPlay.

(** [determineTrickWinner]: [None] is the [{ winningPlayer: null,
    winningCard: null }] of an incomplete trick. *)
Definition determineTrickWinner (g : Game) : option Play * Game :=
  match trick g with
  | [p0; p1; p2; p3] =>
      let leadSuit := suit (card p0) in
      let winningPlay := fold_left (better leadSuit) [p1; p2; p3] p0 in
      (Some winningPlay,
       if isSpade (card winningPlay) then setSpadesBroken g true else g)
  | _ => (None, g)
  end.

(** *** Scoring *)

Definition floorHalf (x : Z) : Z := x / 2.
Definition ceilHalf (x : Z) : Z := - ((- x) / 2).

(** The contract part of [scoreTeam]: the score delta and the bag total
    before the penalty. *)
Definition contract (p1 p2 : Player) : Z * Z :=
  let tricksTaken := tricks p1 + tricks p2 in
  let totalBags := bags p1 + bags p2 in
  let totalBid := (if bid p1 =? 14 then 0 else bid p1)
                  + (if bid p2 =? 14 then 0 else bid p2) in
  let p1BidIsNil := bid p1 =? 14 in
  let p2BidIsNil := bid p2 =? 14 in
  if p1BidIsNil && p2BidIsNil then
    (if (tricks p1 =? 0) && (tricks p2 =? 0) then (200, totalBags)
     else (-200, totalBags))
  else if p1BidIsNil || p2BidIsNil then
    let nilPlayer := if p1BidIsNil then p1 else p2 in
    let partner := if p1BidIsNil then p2 else p1 in
    let '(nilDelta, bagsAfterNil) :=
      if tricks nilPlayer =? 0 then (100, totalBags)
      else (-100, totalBags + tricks nilPlayer) in
    let tricksRequired := bid partner in
    let partnerTricks := tricks partner in
    if tricksRequired <=? partnerTricks
    then (nilDelta + tricksRequired * 10, bagsAfterNil + (partnerTricks - tricksRequired))
    else (nilDelta - tricksRequired * 10, bagsAfterNil)
  else
    let tricksRequired := totalBid in
    if tricksRequired <=? tricksTaken
    then (tricksRequired * 10, totalBags + (tricksTaken - tricksRequired))
    else (- (tricksRequired * 10), totalBags).

(** The bag part of [scoreTeam]: the score delta after the penalty and the
    bags the two players are left with. *)
Definition bagPenalty (p1 p2 : Player) (scoreDelta totalBags : Z) : Z * Z * Z :=
  let bagsGained := totalBags - (bags p1 + bags p2) in
  let b1 := bags p1 + floorHalf bagsGained in
  let b2 := bags p2 + ceilHalf bagsGained in
  let total := b1 + b2 in
  if 10 <=? total
  then (scoreDelta - 100, floorHalf (total - 10), ceilHalf (total - 10))
  else (scoreDelta, b1, b2).

Fixpoint setNthPlayer (ps : list Player) (i : nat) (p : Player) : list Player :=
  match ps, i with
  | [], _ => []
  | _ :: r, O => p :: r
  | x :: r, S k => x :: setNthPlayer r k p
  end.

(** [scoreTeam(teamIndex)]; [None] is the TypeError of a missing seat. *)
Definition scoreTeam (teamIndex : nat) (g : Game) : option Game :=
  match nth_error (players g) teamIndex, nth_error (players g) (teamIndex + 2) with
  | Some p1, Some p2 =>
      let '(scoreDelta0, totalBags) := contract p1 p2 in
      let '(scoreDelta, b1, b2) := bagPenalty p1 p2 scoreDelta0 totalBags in
      let ps := setNthPlayer (setNthPlayer (players g) teamIndex (setBags p1 b1))
                             (teamIndex + 2) (setBags p2 b2) in
      let g' := setPlayers g ps in
      Some (match teamIndex with
            | O => setTeamScores g' (team1 g' + scoreDelta) (team2 g')
            | _ => setTeamScores g' (team1 g') (team2 g' + scoreDelta)
            end)
  | _, _ => None
  end.

Definition isGameOver (g : Game) : bool :=
  (maxScore g <=? team1 g) || (maxScore g <=? team2 g)
  || (team1 g <=? -200) || (team2 g <=? -200).

Definition calculateRoundScores (g : Game) : option (bool * Game) :=
  match scoreTeam 0 g with
  | None => None
  | Some g1 =>
      match scoreTeam 1 g1 with
      | None => None
      | Some g2 => Some (isGameOver g2, g2)
      end
  end.

(** *** Taking a card out of a hand *)

Section Plays.

Variable sortHandOrder : list Card -> list Card.

(** [findIndex] followed by [splice(index, 1)]: the hand without the first
    card that matches; [None] when [findIndex] answers -1. *)
Fixpoint spliceFirst (matches : Card -> bool) (h : list Card) : option (list Card) :=
  match h with
  | [] => None
  | c :: r => if matches c then Some r
              else option_map (cons c) (spliceFirst matches r)
  end.

(** [Player.removeCard]: the hand is sorted again only when a card left
    it. *)
Definition removeCard (p : Player) (cardToRemove : Card) : Player :=
  match spliceFirst (fun c => suit_eqb (suit c) (suit cardToRemove)
                              && rank_eqb (rank c) (rank cardToRemove)) (hand p) with
  | Some h => setHand p (sortHandOrder h)
  | None => p
  end.

End Plays.

(** *** The end of the game *)

(** [endGame]: which of its three messages it returns. The message for a
    winner reads the names of the two players of the partnership, seats 0
    and 2 or seats 1 and 3; [None] is the TypeError of reading the name of
    a player that is undefined. *)
Inductive GameResult : Type := Team1Wins | Team2Wins | TieGame.

Definition endGame (g : Game) : option GameResult :=
  if team2 g <? team1 g then
    match nth_error (players g) 0, nth_error (players g) 2 with
    | Some _, Some _ => Some Team1Wins
    | _, _ => None
    end
  else if team1 g <? team2 g then
    match nth_error (players g) 1, nth_error (players g) 3 with
    | Some _, Some _ => Some Team2Wins
    | _, _ => None
    end
  else Some TieGame.

End Engine.

(* ================================================================== *)
(** ** Specification vocabulary *)

Module Spec.
Import CardJs.

(** The ranking key of a play: [(isSpade, isSpade ? rank : (suit == ledSuit
    ? rank : -1))]. *)
Definition trickKey (spade led : bool) (v : Z) : bool * Z :=
  (spade, if spade then v else if led then v else -1).

(** Lexicographic order on keys, [false] below [true]. *)
Definition keyLt (a b : bool * Z) : Prop :=
  (fst a = false /\ fst b = true) \/ (fst a = fst b /\ snd a < snd b).

Definition keyLe (a b : bool * Z) : Prop :=
  (fst a = false /\ fst b = true) \/ (fst a = fst b /\ snd a <= snd b).

Definition managerKey (ledSuit : Suit) (c : CardJs.Card) : bool * Z :=
  trickKey (Manager.isSpade c) (suit_eqb (suitCode c) ledSuit) (CardJs.value c).

Definition engineKey (ledSuit : Suit) (c : Engine.Card) : bool * Z :=
  trickKey (Engine.isSpade c) (suit_eqb (Engine.suit c) ledSuit) (Engine.value c).

(** [w] is a play of the trick whose key is above the key of every other
    play of the trick. *)
Definition strictlyBest (E : Type) (key : E -> bool * Z) (trick : list E) (w : E) : Prop :=
  In w trick /\ forall e, In e trick -> e = w \/ keyLt (key e) (key w).

(** The trick of the spec's example: 2 of clubs led, then the king and the
    ace of spades, then the 9 of clubs. *)
Definition exampleTrick : list Manager.TrickEntry :=
  [Manager.mkEntry "P1" (CardJs.mkCard Two Clubs);
   Manager.mkEntry "P2" (CardJs.mkCard King Spades);
   Manager.mkEntry "P3" (CardJs.mkCard Ace Spades);
   Manager.mkEntry "P4" (CardJs.mkCard Nine Clubs)].

Definition exampleManager : Manager.GameManager Z :=
  Manager.setTrickSuit (Manager.setTrick (Manager.newGame Manager.defaultTargetScore) exampleTrick) (Some Clubs).

Definition examplePlays : list Engine.Play :=
  [Engine.mkPlay 0 (Engine.mkCard Clubs Two);
   Engine.mkPlay 1 (Engine.mkCard Spades King);
   Engine.mkPlay 2 (Engine.mkCard Spades Ace);
   Engine.mkPlay 3 (Engine.mkCard Clubs Nine)].

Definition exampleEngine : Engine.Game :=
  Engine.mkGame [] [] Engine.PLAYING 1 0 0 4 false examplePlays 0 0 500.

(** A seat that holds the ace of spades and the two of clubs and is about
    to lead a trick, in each engine. *)
Definition leader : CardJs.Player Z :=
  CardJs.mkPlayer "north" "North"
    [CardJs.mkCard Ace Spades; CardJs.mkCard Two Clubs]
    (Some 3) false 0 0 0 (Some Team2).

Definition leadState : Manager.GameManager Z :=
  Manager.setTrickActive (Manager.setPlayers (Manager.newGame Manager.defaultTargetScore) [leader]) true.

Definition engineLeader : Engine.Player :=
  Engine.mkPlayer "north" "North"
    [Engine.mkCard Spades Ace; Engine.mkCard Clubs Two] 3 0 0 0.

Definition engineLeadState : Engine.Game :=
  Engine.mkGame [engineLeader] [] Engine.PLAYING 1 0 0 4 false [] 0 0 500.

(** The code Game.js reads for a card: rank then suit, '10' for the ten. *)
Definition engineCode (c : Engine.Card) : string :=
  String.append
    (match Engine.rank c with Ten => "10" | r => rankCodeStr r end)
    (suitCodeStr (Engine.suit c)).

(** A seat whose turn it is to bid through the buttons. *)
Definition buttonBidder : CardJs.Player spec_float :=
  CardJs.mkPlayer "north" "North" [] None false 0 0 0 (Some Team2).

Definition buttonState : Manager.GameManager spec_float :=
  Manager.startBidding (Manager.setPlayers (Manager.newGame Manager.defaultTargetScore) [buttonBidder]).

(** 2.5 as a binary64 number. *)
Definition twoAndHalf : spec_float := Eval vm_compute in binary_normalize 53 1024 5 (-1) false.

(** *** Counting cards *)

Definition handCards (B : Type) (ps : list (CardJs.Player B)) : nat :=
  fold_right (fun p n => (List.length (hand p) + n)%nat) 0%nat ps.

(** Changes to a player that leave the hand as long as it was. *)
Definition keepsHand (B : Type) (f : CardJs.Player B -> CardJs.Player B) : Prop :=
  forall p, List.length (hand (f p)) = List.length (hand p).


(** The cards of the trick in progress; none outside trick play. *)
Definition trickCards (g : Manager.GameManager Z) : nat :=
  if Manager.isTrickActive g then List.length (Manager.currentTrick g) else 0%nat.

(** What the engine keeps true of its cards when [k] tricks of the round
    are resolved, with the phase facts the argument needs: nothing runs
    before the game is started, a started game has four seats, and bidding
    and trick play exclude each other. *)
Definition CardInvariant (k : nat) (g : Manager.GameManager Z) : Prop :=
  (handCards (Manager.players g) + List.length (Manager.deck g) + 4 * k
   + trickCards g = 52)%nat
  /\ (Manager.isGameActive g = false ->
      Manager.isTrickActive g = false /\ Manager.isBiddingActive g = false)
  /\ (Manager.isGameActive g = true -> List.length (Manager.players g) = 4%nat)
  /\ (Manager.isBiddingActive g = true -> Manager.isTrickActive g = false).



(** The penalty as the spec words it: while the bag total is at least 10,
    take 100 points and 10 bags. *)
Fixpoint penalise (fuel : nat) (points bagTotal : Z) : Z * Z :=
  match fuel with
  | O => (points, bagTotal)
  | S n => if 10 <=? bagTotal then penalise n (points - 100) (bagTotal - 10)
           else (points, bagTotal)
  end.

(** What [applyBags] does, seen on the players of the team alone. *)
Definition updateHead (A : Type) (f : A -> A) (l : list A) : list A :=
  match l with
  | [] => []
  | x :: r => f x :: r
  end.

Definition penaliseTeam (teamPlayers : list (CardJs.Player Z)) : list (CardJs.Player Z) :=
  let totalBags := Manager.sumOver (@bags Z) teamPlayers in
  if 10 <=? totalBags then
    updateHead (fun p => setBags p (Z.rem totalBags 10))
               (map (fun p => setBags (setScore p (score p - totalBags / 10 * 100)) 0)
                    teamPlayers)
  else teamPlayers.

(** *** A game at a table of four *)

Definition join (g : Manager.GameManager Z) (id : string) : Manager.GameManager Z :=
  match Manager.addPlayer g id id with Some g' => g' | None => g end.

Definition lobby : Manager.GameManager Z :=
  join (join (join (join (Manager.newGame Manager.defaultTargetScore) "north") "east")
             "south") "west".

(** The random draws of the shuffle are all taken as 0 here. *)
Definition draws : nat -> nat := fun _ => O.

Definition dealt : Manager.GameManager Z := Manager.startGame draws lobby.

Definition afterBid (g : Manager.GameManager Z) (pid raw : string) : Manager.GameManager Z :=
  snd (Manager.processBid g pid raw).


(** North bids first, then east, south and west. *)
Definition bidsMade : Manager.GameManager Z :=
  afterBid (afterBid (afterBid (afterBid dealt "north" "3") "east" "3") "south" "4")
           "west" "3".


(** *** A whole round at the table of four *)




(** *** Tables at the end of a round *)

(** A seat with its bid and the tricks it took; scores and bags at 0. *)
Definition seat (name : string) (t : Team) (bidAmount tricks : Z) : CardJs.Player Z :=
  CardJs.mkPlayer name name [] (Some bidAmount) (0 =? bidAmount) tricks 0 0 (Some t).

(** North bids Nil and takes no trick; south, the partner, bids 4 and takes
    4. East and west bid 9 together and take 9. *)
Definition nilMade : list (CardJs.Player Z) :=
  [seat "north" Team2 0 0; seat "east" Team1 4 4;
   seat "south" Team2 4 4; seat "west" Team1 5 5].

(** North bids Nil and takes 2 tricks; south bids 4 and takes 4. *)
Definition nilFailed : list (CardJs.Player Z) :=
  [seat "north" Team2 0 2; seat "east" Team1 4 3;
   seat "south" Team2 4 4; seat "west" Team1 5 4].

Definition lastTrickDone (ps : list (CardJs.Player Z)) : Manager.GameManager Z :=
  Manager.setTrickActive
    (Manager.setGameActive (Manager.setPlayers (Manager.newGame Manager.defaultTargetScore) ps) true) true.

Definition scored (ps : list (CardJs.Player Z)) : list (CardJs.Player Z) :=
  Manager.players (snd (Manager.endRound draws (lastTrickDone ps))).

Definition engineSeat (name : string) (bidAmount tricks bagCount : Z) : Engine.Player :=
  Engine.mkPlayer name name [] bidAmount tricks 0 bagCount.

Definition engineTable (ps : list Engine.Player) (score1 score2 : Z) : Engine.Game :=
  Engine.mkGame ps [] Engine.PLAYING 1 0 0 4 false [] score1 score2 500.

(** North and south hold 4 and 5 bags, bid 1 each and take all 13 tricks:
    11 bags more, 20 in all. *)
Definition bagHeavy : Engine.Game :=
  engineTable [engineSeat "north" 1 7 4; engineSeat "east" 3 0 0;
               engineSeat "south" 1 6 5; engineSeat "west" 3 0 0] 0 0.

(** North and south stand at -150 and miss a bid of 6. *)
Definition lowScore : Engine.Game :=
  engineTable [engineSeat "north" 3 2 0; engineSeat "east" 4 5 0;
               engineSeat "south" 3 2 0; engineSeat "west" 4 4 0] (-150) 120.

(** The same tables once the round is scored. *)
Definition engineScored (g : Engine.Game) : Engine.Game :=
  match Engine.calculateRoundScores g with
  | Some (_, g') => g'
  | None => g
  end.

Definition lowScoreScored : Engine.Game := engineScored lowScore.

Definition bagHeavyScored : Engine.Game := engineScored bagHeavy.

(** *** The order of a sorted hand *)

(** [a] may stand before [b] in a sorted hand: spades, then hearts,
    diamonds and clubs, the higher card first within a suit. *)
Definition sortsBefore (a b : CardJs.Card) : Prop :=
  suitOrder (suitCode b) < suitOrder (suitCode a)
  \/ (suitCode a = suitCode b /\ CardJs.value b <= CardJs.value a).

(** All the cards the players hold, seat after seat. *)
Definition allHands (B : Type) (ps : list (CardJs.Player B)) : list CardJs.Card :=
  flat_map (@hand B) ps.

(** The return paths on which [processCardPlay] answers [false] after
    telling the player why. *)
Definition refused (r : Manager.PlayResult) : bool :=
  match r with
  | Manager.TrickNotActive | Manager.NotRegistered | Manager.PlayNotYourTurn
  | Manager.InvalidCard | Manager.SpadesNotBroken | Manager.MustFollowSuit
  | Manager.InternalError => true
  | _ => false
  end.

(** *** A trick under way *)



Definition engineFollower : Engine.Player :=
  Engine.mkPlayer "east" "East"
    [Engine.mkCard Hearts King; Engine.mkCard Clubs Two] 3 0 0 0.

Definition engineFollowState : Engine.Game :=
  Engine.mkGame [engineFollower] [] Engine.PLAYING 1 0 0 4 false
    [Engine.mkPlay 0 (Engine.mkCard Hearts Three)] 0 0 500.



(** *** Runs of calls *)

(** A run of calls to [processBid], each with the id of the caller and the
    text typed. *)
Definition bidAll (g : Manager.GameManager Z) (calls : list (string * string))
  : Manager.GameManager Z :=
  fold_left (fun g0 call => snd (Manager.processBid g0 (fst call) (snd call))) calls g.

(** A bid the bidding can hold: 0 for Nil, or 1 to 13. *)
Definition hasValidBid (p : CardJs.Player Z) : Prop :=
  exists b, bid p = Some b /\ 0 <= b <= 13.

(** A run of joins, each with the id and the name of a user; a join the
    lobby turns down changes nothing. *)
Definition joinAll (g : Manager.GameManager Z) (users : list (string * string))
  : Manager.GameManager Z :=
  fold_left (fun g0 u => match Manager.addPlayer g0 (fst u) (snd u) with
                         | Some g1 => g1
                         | None => g0
                         end) users g.

(** The player [addPlayer] seats at index [j] for a user. *)
Definition seated (j : nat) (u : string * string) : CardJs.Player Z :=
  setTeam (newPlayer (fst u) (snd u)) (Some (if Nat.even j then Team2 else Team1)).

(** *** What a deal keeps *)

(** What a player carries from round to round. *)
Definition account (B : Type) (p : CardJs.Player B)
  : string * string * Z * Z * option Team :=
  (discordId p, username p, score p, bags p, team p).

Definition engineAccount (p : Engine.Player) : string * string * Z * Z :=
  (Engine.id p, Engine.username p, Engine.score p, Engine.bags p).

Definition engineHands (ps : list Engine.Player) : list Engine.Card :=
  flat_map Engine.hand ps.

(** *** Team scores of Game.js *)

(** [this.teamScores[`team${teamIndex + 1}`]] *)
Definition engineTeamScore (teamIndex : nat) (g : Engine.Game) : Z :=
  match teamIndex with
  | O => Engine.team1 g
  | _ => Engine.team2 g
  end.

(** Two made bids of 3 and 4 with two overtricks on team 2, and a set
    contract of 6 on team 1. *)
Definition plainRound : list (CardJs.Player Z) :=
  [seat "north" Team2 3 5; seat "east" Team1 3 2;
   seat "south" Team2 4 4; seat "west" Team1 3 2].

(** North's team comes to the round with 12 bags. *)
Definition bagged : list (CardJs.Player Z) :=
  [setBags (seat "north" Team2 3 3) 12; seat "east" Team1 3 3;
   seat "south" Team2 4 4; seat "west" Team1 3 3].

(** [bagHeavy] once its first partnership is scored. *)
Definition bagHeavyTeam1Scored : Engine.Game :=
  match Engine.scoreTeam 0 bagHeavy with
  | Some g => g
  | None => bagHeavy
  end.

(** *** The same trick in both engines *)

Definition toEngineCard (c : CardJs.Card) : Engine.Card :=
  Engine.mkCard (suitCode c) (rankCode c).

(** The entries of a GameManager trick as plays of Game.js, each player
    given by the place of the play in the trick, counted from [seat]. *)
Fixpoint asPlays (seat : nat) (t : list Manager.TrickEntry) : list Engine.Play :=
  match t with
  | [] => []
  | e :: r => Engine.mkPlay seat (toEngineCard (Manager.card e)) :: asPlays (S seat) r
  end.

(** The other code Game.js reads for a card: suit then rank. *)
Definition engineCodeSuitFirst (c : Engine.Card) : string :=
  String.append
    (suitCodeStr (Engine.suit c))
    (match Engine.rank c with Ten => "10" | r => rankCodeStr r end).

(** *** More tables at the end of a round *)

(** A partnership of Game.js in which north bid Nil (14) and took no
    trick while south bid 4 and took 5. *)
Definition engineNilBidder : Engine.Player := engineSeat "north" 14 0 0.
Definition engineNilPartner : Engine.Player := engineSeat "south" 4 5 0.

(** The table of four at 480 points each, before a round that north and
    south make. *)
Definition nearTarget : list (CardJs.Player Z) :=
  map (fun p => setScore p 480) plainRound.

End Spec.

(* ================================================================== *)
(** * Properties *)

Import CardJs.

(** ** Trick winner *)

Section TrickWinner.

Lemma rankValue_bounds : forall r, 2 <= rankValue r <= 14.
Proof. destruct r; simpl; lia. Qed.

Lemma rankValue_inj : forall a b, rankValue a = rankValue b -> a = b.
Proof. destruct a, b; simpl; intros E; try reflexivity; discriminate E. Qed.

Lemma suit_eqb_eq : forall a b, suit_eqb a b = true <-> a = b.
Proof. destruct a, b; simpl; split; intro E; try reflexivity; discriminate E. Qed.

Lemma keyLe_trans : forall a b c, Spec.keyLe a b -> Spec.keyLe b c -> Spec.keyLe a c.
Proof.
  unfold Spec.keyLe. intros [a1 a2] [b1 b2] [c1 c2]; simpl.
  destruct a1, b1, c1; intuition (try discriminate; try lia).
Qed.

Lemma keyLe_refl : forall a, Spec.keyLe a a.
Proof. unfold Spec.keyLe. intros a. right. split; [reflexivity | lia]. Qed.

Lemma NoDup_map_eq (A K : Type) (f : A -> K) (l : list A) (x y : A) :
  NoDup (map f l) -> In x l -> In y l -> f x = f y -> x = y.
Proof.
  induction l as [| a l IH]; simpl; intros ND Hx Hy E; [contradiction |].
  inversion ND as [| ? ? Hnot ND']; subst.
  destruct Hx as [-> | Hx], Hy as [-> | Hy]; auto.
  - exfalso. apply Hnot. rewrite E. now apply in_map.
  - exfalso. apply Hnot. rewrite <- E. now apply in_map.
Qed.

Lemma card_eq_dec : forall a b : CardJs.Card, {a = b} + {a <> b}.
Proof. decide equality; decide equality. Defined.

Lemma engine_card_eq_dec : forall a b : Engine.Card, {a = b} + {a <> b}.
Proof. decide equality; decide equality. Defined.

(** The reduce callback of GameManager keeps the entry with the larger key,
    whatever the two entries are. *)
Lemma pickWinner_max (s : Suit) (w c : Manager.TrickEntry) :
  let r := Manager.pickWinner (Some s) w c in
  (r = w \/ r = c)
  /\ Spec.keyLe (Spec.managerKey s (Manager.card w)) (Spec.managerKey s (Manager.card r))
  /\ Spec.keyLe (Spec.managerKey s (Manager.card c)) (Spec.managerKey s (Manager.card r)).
Proof.
  destruct w as [wi [wr ws]], c as [ci [cr cs]].
  unfold Manager.pickWinner, Spec.managerKey, Spec.trickKey, Spec.keyLe,
    Manager.isSpade, Manager.isLedSuit, CardJs.value; simpl.
  destruct ws, cs, s; simpl;
    try destruct (Z.ltb_spec (rankValue wr) (rankValue cr)); simpl;
    pose proof (rankValue_bounds wr); pose proof (rankValue_bounds cr);
    intuition lia.
Qed.

(** The loop body of Game.js keeps the play with the larger key as long as
    the play it holds is a spade or follows the lead. *)
Lemma better_max (s : Suit) (w c : Engine.Play) :
  Engine.isSpade (Engine.card w) || suit_eqb (Engine.suit (Engine.card w)) s = true ->
  let r := Engine.better s w c in
  (r = w \/ r = c)
  /\ Spec.keyLe (Spec.engineKey s (Engine.card w)) (Spec.engineKey s (Engine.card r))
  /\ Spec.keyLe (Spec.engineKey s (Engine.card c)) (Spec.engineKey s (Engine.card r))
  /\ Engine.isSpade (Engine.card r) || suit_eqb (Engine.suit (Engine.card r)) s = true.
Proof.
  destruct w as [wi [ws wr]], c as [ci [cs cr]].
  unfold Engine.better, Spec.engineKey, Spec.trickKey, Spec.keyLe,
    Engine.isSpade, Engine.value; simpl.
  destruct ws, cs, s; simpl; intros Hw; try discriminate Hw;
    try destruct (Z.ltb_spec (Engine.getValue wr) (Engine.getValue cr)); simpl;
    pose proof (rankValue_bounds wr); pose proof (rankValue_bounds cr);
    assert (forall r, Engine.getValue r = rankValue r) as HV by (destruct r; reflexivity);
    rewrite ?HV in *;
    intuition lia.
Qed.

Lemma managerKey_strict (s : Suit) (a b : CardJs.Card) :
  Spec.keyLe (Spec.managerKey s a) (Spec.managerKey s b) ->
  Manager.isSpade b || suit_eqb (suitCode b) s = true ->
  a <> b ->
  Spec.keyLt (Spec.managerKey s a) (Spec.managerKey s b).
Proof.
  destruct a as [ar sa], b as [br sb]. intros Hle Hb Hne.
  assert (sa = sb -> rankValue ar <> rankValue br) as Hv.
  { intros -> E. apply rankValue_inj in E. subst. now apply Hne. }
  revert Hle Hb Hv.
  unfold Spec.managerKey, Spec.trickKey, Spec.keyLe, Spec.keyLt,
    Manager.isSpade, CardJs.value; simpl.
  pose proof (rankValue_bounds ar); pose proof (rankValue_bounds br).
  destruct sa, sb, s; simpl; intros Hle Hb Hv; try discriminate Hb;
    try specialize (Hv eq_refl); intuition (try discriminate; try lia).
Qed.

Lemma engineKey_strict (s : Suit) (a b : Engine.Card) :
  Spec.keyLe (Spec.engineKey s a) (Spec.engineKey s b) ->
  Engine.isSpade b || suit_eqb (Engine.suit b) s = true ->
  a <> b ->
  Spec.keyLt (Spec.engineKey s a) (Spec.engineKey s b).
Proof.
  destruct a as [sa ar], b as [sb br]. intros Hle Hb Hne.
  assert (forall r, Engine.getValue r = rankValue r) as HV by (destruct r; reflexivity).
  assert (sa = sb -> rankValue ar <> rankValue br) as Hv.
  { intros -> E. apply rankValue_inj in E. subst. now apply Hne. }
  revert Hle Hb Hv.
  unfold Spec.engineKey, Spec.trickKey, Spec.keyLe, Spec.keyLt,
    Engine.isSpade, Engine.value; simpl. rewrite ?(HV ar), ?(HV br).
  pose proof (rankValue_bounds ar); pose proof (rankValue_bounds br).
  destruct sa, sb, s; simpl; intros Hle Hb Hv; try discriminate Hb;
    try specialize (Hv eq_refl); intuition (try discriminate; try lia).
Qed.

(** A play that follows the lead, or a spade, stays below nothing that is
    neither: the winner of a trick whose first play fixes the lead is a
    spade or follows the lead. *)
Lemma above_lead_is_spade_or_led (s : Suit) (lead w : CardJs.Card) :
  suitCode lead = s ->
  Spec.keyLe (Spec.managerKey s lead) (Spec.managerKey s w) ->
  Manager.isSpade w || suit_eqb (suitCode w) s = true.
Proof.
  destruct lead as [lr ls], w as [wr ws]. simpl. intros <-.
  unfold Spec.managerKey, Spec.trickKey, Spec.keyLe, Manager.isSpade, CardJs.value; simpl.
  pose proof (rankValue_bounds lr); pose proof (rankValue_bounds wr).
  destruct ls, ws; simpl; intuition (try discriminate; try lia).
Qed.

(** C4. For a complete trick of four plays with distinct cards, led by the
    suit of its first play, the winner each engine determines is a play of
    the trick whose key [(isSpade, isSpade ? rank : (suit == ledSuit ? rank
    : -1))] is strictly above the key of every other play; the winning card
    is a spade or of the led suit. GameManager.getWinnerOfTrick and
    Game.determineTrickWinner agree on this. *)
Theorem C4_trick_winner_has_maximum_key :
  (forall (B : Type) (g : Manager.GameManager B) e0 e1 e2 e3,
      Manager.currentTrick g = [e0; e1; e2; e3] ->
      Manager.trickSuit g = Some (suitCode (Manager.card e0)) ->
      NoDup (map Manager.card [e0; e1; e2; e3]) ->
      exists w,
        Manager.getWinnerOfTrick g = Some w
        /\ Spec.strictlyBest
             (fun e => Spec.managerKey (suitCode (Manager.card e0)) (Manager.card e))
             [e0; e1; e2; e3] w
        /\ (suitCode (Manager.card w) = Spades
            \/ suitCode (Manager.card w) = suitCode (Manager.card e0)))
  /\
  (forall (g : Engine.Game) p0 p1 p2 p3,
      Engine.trick g = [p0; p1; p2; p3] ->
      NoDup (map Engine.card [p0; p1; p2; p3]) ->
      exists w,
        fst (Engine.determineTrickWinner g) = Some w
        /\ Spec.strictlyBest
             (fun p => Spec.engineKey (Engine.suit (Engine.card p0)) (Engine.card p))
             [p0; p1; p2; p3] w
        /\ (Engine.suit (Engine.card w) = Spades
            \/ Engine.suit (Engine.card w) = Engine.suit (Engine.card p0))).
Proof.
  split.
  - intros B g e0 e1 e2 e3 Ht Hs ND.
    unfold Manager.getWinnerOfTrick. rewrite Ht, Hs. cbn [fold_left].
    set (s := suitCode (Manager.card e0)).
    pose proof (pickWinner_max s e0 e0) as (M0 & L0 & _).
    set (w0 := Manager.pickWinner (Some s) e0 e0) in *.
    pose proof (pickWinner_max s w0 e1) as (M1 & L1 & R1).
    set (w1 := Manager.pickWinner (Some s) w0 e1) in *.
    pose proof (pickWinner_max s w1 e2) as (M2 & L2 & R2).
    set (w2 := Manager.pickWinner (Some s) w1 e2) in *.
    pose proof (pickWinner_max s w2 e3) as (M3 & L3 & R3).
    set (w := Manager.pickWinner (Some s) w2 e3) in *.
    assert (In w [e0; e1; e2; e3]) as Hin.
    { simpl. destruct M3 as [-> | ->]; auto. destruct M2 as [-> | ->]; auto.
      destruct M1 as [-> | ->]; auto. destruct M0 as [-> | ->]; auto. }
    assert (forall e, In e [e0; e1; e2; e3] ->
              Spec.keyLe (Spec.managerKey s (Manager.card e))
                         (Spec.managerKey s (Manager.card w))) as Hmax.
    { intros e [<- | [<- | [<- | [<- | []]]]]; eauto using keyLe_trans. }
    assert (Manager.isSpade (Manager.card w)
            || suit_eqb (suitCode (Manager.card w)) s = true) as Hw.
    { eapply above_lead_is_spade_or_led; [reflexivity | apply Hmax; simpl; auto]. }
    exists w. split; [reflexivity |]. split; [split; [exact Hin |] |].
    + intros e He.
      destruct (card_eq_dec (Manager.card e) (Manager.card w)) as [Ec | Nc].
      * left. eapply NoDup_map_eq; eauto.
      * right. apply managerKey_strict; auto.
    + apply orb_true_iff in Hw. destruct Hw as [Hw | Hw];
        apply suit_eqb_eq in Hw; auto.
  - intros g p0 p1 p2 p3 Ht ND.
    unfold Engine.determineTrickWinner. rewrite Ht. cbn [fold_left fst].
    set (s := Engine.suit (Engine.card p0)).
    assert (Engine.isSpade (Engine.card p0)
            || suit_eqb (Engine.suit (Engine.card p0)) s = true) as H0.
    { apply orb_true_iff. right. apply suit_eqb_eq. reflexivity. }
    pose proof (better_max s p0 p1 H0) as (M1 & L1 & R1 & H1).
    set (w1 := Engine.better s p0 p1) in *.
    pose proof (better_max s w1 p2 H1) as (M2 & L2 & R2 & H2).
    set (w2 := Engine.better s w1 p2) in *.
    pose proof (better_max s w2 p3 H2) as (M3 & L3 & R3 & H3).
    set (w := Engine.better s w2 p3) in *.
    assert (In w [p0; p1; p2; p3]) as Hin.
    { simpl. destruct M3 as [-> | ->]; auto. destruct M2 as [-> | ->]; auto.
      destruct M1 as [-> | ->]; auto. }
    assert (forall e, In e [p0; p1; p2; p3] ->
              Spec.keyLe (Spec.engineKey s (Engine.card e))
                         (Spec.engineKey s (Engine.card w))) as Hmax.
    { intros e [<- | [<- | [<- | [<- | []]]]]; eauto using keyLe_trans. }
    exists w. split; [reflexivity |]. split; [split; [exact Hin |] |].
    + intros e He.
      destruct (engine_card_eq_dec (Engine.card e) (Engine.card w)) as [Ec | Nc].
      * left. eapply NoDup_map_eq; eauto.
      * right. apply engineKey_strict; auto.
    + apply orb_true_iff in H3. destruct H3 as [Hw | Hw];
        apply suit_eqb_eq in Hw; auto.
Qed.

(** The spec's example trick, in both engines: the ace of spades wins. *)
Lemma C4_trick_winner_witness :
  (exists w, Manager.getWinnerOfTrick Spec.exampleManager = Some w
             /\ Manager.playerId w = "P3")
  /\ (exists w, fst (Engine.determineTrickWinner Spec.exampleEngine) = Some w
                /\ Engine.player w = 2%nat).
Proof.
  split.
  - destruct (proj1 C4_trick_winner_has_maximum_key Z Spec.exampleManager
                _ _ _ _ eq_refl eq_refl) as (w & Hw & _).
    + repeat constructor; simpl; intuition discriminate.
    + exists w. split; [exact Hw |].
      vm_compute in Hw. inversion Hw. reflexivity.
  - destruct (proj2 C4_trick_winner_has_maximum_key Spec.exampleEngine
                _ _ _ _ eq_refl) as (w & Hw & _).
    + repeat constructor; simpl; intuition discriminate.
    + exists w. split; [exact Hw |].
      vm_compute in Hw. inversion Hw. reflexivity.
Defined.

End TrickWinner.

(** ** Leading a spade *)

Section LeadRule.

Lemma not_all_spades (l : list CardJs.Card) :
  negb (forallb Manager.isSpade l) = true
  <-> exists c, In c l /\ suitCode c <> Spades.
Proof.
  induction l as [| a l IH]; simpl.
  - split; [discriminate | intros (c & [] & _)].
  - rewrite negb_andb, orb_true_iff, IH. split.
    + intros [Ha | (c & Hc & Hs)].
      * exists a. split; [now left |]. intros E.
        unfold Manager.isSpade in Ha. rewrite E in Ha. discriminate Ha.
      * exists c. split; [now right | exact Hs].
    + intros (c & [<- | Hc] & Hs).
      * left. unfold Manager.isSpade. destruct (suitCode a); try reflexivity.
        now contradiction Hs.
      * right. exists c. split; assumption.
Qed.

Lemma some_non_spade (l : list Engine.Card) :
  existsb (fun c => negb (Engine.isSpade c)) l = true
  <-> exists c, In c l /\ Engine.suit c <> Spades.
Proof.
  rewrite existsb_exists. split; intros (c & Hc & Hs); exists c; split; auto.
  - intros E. unfold Engine.isSpade in Hs. rewrite E in Hs. discriminate Hs.
  - unfold Engine.isSpade. destruct (Engine.suit c); try reflexivity.
    now contradiction Hs.
Qed.

Lemma endTrick_result (rand : nat -> nat) (g : Manager.GameManager Z) (w : string) :
  match fst (Manager.endTrick rand g w) with
  | Manager.PlayThrew | Manager.TrickWon _ | Manager.RoundOver _ _ => True
  | _ => False
  end.
Proof.
  unfold Manager.endTrick.
  destruct (Manager.findIndex _ _); [| exact I].
  destruct (nth_error _ _); [| exact I].
  destruct (_ =? _)%nat; [| exact I].
  destruct (Manager.endRound _ _). exact I.
Qed.

Lemma playValidated_result (rand : nat -> nat) (g : Manager.GameManager Z)
      (p : CardJs.Player Z) (pid raw : string) :
  match fst (Manager.playValidated rand g p pid raw) with
  | Manager.InternalError | Manager.CardPlayed | Manager.PlayThrew
  | Manager.TrickWon _ | Manager.RoundOver _ _ => True
  | _ => False
  end.
Proof.
  unfold Manager.playValidated.
  destruct (playCard p _) as [[c p'] |]; [| exact I].
  cbv zeta. destruct (_ =? _)%nat; [| exact I].
  unfold Manager.evaluateTrick.
  destruct (Manager.getWinnerOfTrick _); [| exact I].
  match goal with
  | |- context [Manager.endTrick ?r ?g0 ?w] =>
      pose proof (endTrick_result r g0 w) as R;
      destruct (fst (Manager.endTrick r g0 w)); try exact I; try contradiction
  end.
Qed.

(** C9. When a player leads (the current trick is empty) a card found in
    the hand, the play is turned down for spades not being broken exactly
    when the card is a spade, spadesBroken is false and the hand holds a
    card that is not a spade. So a hand of spades only may lead a spade
    whatever spadesBroken is, and a lead that is not a spade is never
    turned down by this rule. GameManager.processCardPlay and
    Game.getCardFromInput agree on this. *)
Theorem C9_spade_lead_rejected_iff_unbroken_and_other_suit_held :
  (forall rand (g : Manager.GameManager Z) pid raw player cur c,
      Manager.isTrickActive g = true ->
      Manager.getPlayerById g pid = Some player ->
      nth_error (Manager.players g) (Manager.currentPlayerIndex g) = Some cur ->
      discordId cur = pid ->
      Manager.currentTrick g = [] ->
      Manager.peekCardInHand player raw = Some c ->
      (fst (Manager.processCardPlay rand g pid raw) = Manager.SpadesNotBroken
       <-> suitCode c = Spades
           /\ Manager.spadesBroken g = false
           /\ exists c', In c' (hand player) /\ suitCode c' <> Spades))
  /\
  (forall (g : Engine.Game) (p : Engine.Player) input s r c,
      Engine.trick g = [] ->
      Engine.parseCard (JS.trim (JS.toUpperCase input)) = Some (s, r) ->
      Engine.getCardByCode p s r = Some c ->
      (Engine.getCardFromInput g p input = Engine.SpadesNotBroken
       <-> Engine.suit c = Spades
           /\ Engine.spadesBroken g = false
           /\ exists c', In c' (Engine.hand p) /\ Engine.suit c' <> Spades)).
Proof.
  split.
  - intros rand g pid raw player cur c Hact Hp Hcur Hid Htrick Hpeek.
    unfold Manager.processCardPlay.
    rewrite Hact, Hp, Hcur, Hid, String.eqb_refl, Hpeek, Htrick. cbn [negb].
    rewrite <- not_all_spades.
    destruct (Manager.isSpade c) eqn:Hs; cbn [andb].
    + assert (suitCode c = Spades) as Hc
          by (apply suit_eqb_eq; exact Hs).
      destruct (Manager.spadesBroken g); cbn [negb andb].
      * split.
        -- intros E. pose proof (playValidated_result rand
             (Manager.setTrickSuit g (Some (suitCode c))) player pid raw) as R.
           rewrite E in R. contradiction.
        -- intros (_ & F & _). discriminate F.
      * destruct (negb (forallb Manager.isSpade (hand player))) eqn:Hall.
        -- cbn [fst]. split; [intros _; auto | reflexivity].
        -- split.
           ++ intros E. pose proof (playValidated_result rand
                (Manager.setTrickSuit g (Some (suitCode c))) player pid raw) as R.
              rewrite E in R. contradiction.
           ++ intros (_ & _ & F). discriminate F.
    + split.
      * intros E. pose proof (playValidated_result rand
          (Manager.setTrickSuit g (Some (suitCode c))) player pid raw) as R.
        rewrite E in R. contradiction.
      * intros (F & _). unfold Manager.isSpade in Hs. rewrite F in Hs. discriminate Hs.
  - intros g p input s r c Htrick Hparse Hfind.
    unfold Engine.getCardFromInput. rewrite Hparse, Hfind, Htrick.
    rewrite <- some_non_spade.
    assert (Engine.suit c = s) as Hc.
    { unfold Engine.getCardByCode in Hfind. apply find_some in Hfind.
      destruct Hfind as [_ Hb]. apply andb_true_iff in Hb.
      apply suit_eqb_eq. apply Hb. }
    subst s.
    destruct (suit_eqb (Engine.suit c) Spades) eqn:Hs; cbn [andb].
    + apply suit_eqb_eq in Hs.
      destruct (Engine.spadesBroken g); cbn [negb andb].
      * split; [discriminate | intros (_ & F & _); discriminate F].
      * destruct (existsb _ (Engine.hand p)).
        -- split; auto.
        -- split; [discriminate | intros (_ & _ & F); discriminate F].
    + split; [discriminate |].
      intros (F & _). rewrite F in Hs. discriminate Hs.
Qed.

(** With the ace of spades and the two of clubs in hand and spades not
    broken, leading the ace is turned down in both engines. *)
Lemma C9_spade_lead_witness :
  fst (Manager.processCardPlay (fun _ => O) Spec.leadState "north"
         (CardJs.code (CardJs.mkCard Ace Spades))) = Manager.SpadesNotBroken
  /\ Engine.getCardFromInput Spec.engineLeadState Spec.engineLeader "as"
     = Engine.SpadesNotBroken.
Proof.
  split.
  - apply (proj1 C9_spade_lead_rejected_iff_unbroken_and_other_suit_held
             (fun _ => O) Spec.leadState "north"
             (CardJs.code (CardJs.mkCard Ace Spades))
             Spec.leader Spec.leader (CardJs.mkCard Ace Spades));
      try reflexivity.
    split; [reflexivity | split; [reflexivity |]].
    exists (CardJs.mkCard Two Clubs). split; [simpl; auto | discriminate].
  - apply (proj2 C9_spade_lead_rejected_iff_unbroken_and_other_suit_held
             Spec.engineLeadState Spec.engineLeader "as" Spades Ace
             (Engine.mkCard Spades Ace)); try reflexivity.
    split; [reflexivity | split; [reflexivity |]].
    exists (Engine.mkCard Clubs Two). split; [simpl; auto | discriminate].
Defined.

End LeadRule.

(** ** Bids sent by the buttons *)

Section ButtonBids.

Lemma SFcompare_antisym (x y : spec_float) :
  SFcompare y x = option_map CompOpp (SFcompare x y).
Proof.
  destruct x as [sx | sx | | sx mx ex], y as [sy | sy | | sy my ey]; simpl;
    try reflexivity; try (destruct sx; reflexivity); try (destruct sy; reflexivity);
    try (destruct sx, sy; reflexivity).
  assert ((ey ?= ex)%Z = CompOpp (ex ?= ey)%Z) as EZ
      by (apply Z.compare_antisym).
  assert (Pos.compare_cont Eq my mx = CompOpp (Pos.compare_cont Eq mx my)) as EP
      by (rewrite Pos.compare_cont_antisym; reflexivity).
  destruct sx, sy; simpl; try reflexivity;
    rewrite EZ; destruct (ex ?= ey)%Z; simpl; try reflexivity;
    rewrite EP; destruct (Pos.compare_cont Eq mx my); reflexivity.
Qed.

Lemma bid_bounds_are_doubles :
  JS.isDouble JS.zero = true /\ JS.isDouble JS.thirteen = true
  /\ JS.isDouble Spec.twoAndHalf = true
  /\ SFltb JS.zero Spec.twoAndHalf = true /\ SFltb Spec.twoAndHalf JS.thirteen = true.
Proof. repeat split. Qed.

(** JavaScript's [a <= b] excludes [b < a]. *)
Lemma SFleb_not_gt (a b : spec_float) : SFleb a b = true -> SFltb b a = false.
Proof.
  unfold SFleb, SFltb. rewrite (SFcompare_antisym a b).
  destruct (SFcompare a b) as [[] |]; simpl; intros E; try reflexivity; discriminate E.
Qed.

Lemma nth_error_updateNth (A : Type) (f : A -> A) (l : list A) (i : nat) (a : A) :
  nth_error l i = Some a -> nth_error (Manager.updateNth i f l) i = Some (f a).
Proof.
  revert i. induction l as [| x l IH]; intros [| i]; simpl; try discriminate.
  - intros E. inversion E. reflexivity.
  - apply IH.
Qed.

(** The bidder's seat after [recordBid] holds the bid as it was passed. *)
Lemma recordBid_keeps_bid (B : Type) `{BidValue B}
      (g : Manager.GameManager B) (x : B) (cur : CardJs.Player B) :
  nth_error (Manager.players g) (Manager.currentPlayerIndex g) = Some cur ->
  exists cur',
    nth_error (Manager.players (Manager.recordBid g x)) (Manager.currentPlayerIndex g)
    = Some cur'
    /\ bid cur' = Some x /\ isNil cur' = strictEqZero x.
Proof.
  intros Hcur. unfold Manager.recordBid. cbv zeta.
  set (ps := Manager.updateNth (Manager.currentPlayerIndex g)
                               (fun p => setBid p x) (Manager.players g)).
  assert (nth_error ps (Manager.currentPlayerIndex g) = Some (setBid cur x)) as Hps
      by (exact (nth_error_updateNth (fun p => setBid p x) _ _ Hcur)).
  destruct (_ <? _)%nat.
  - exists (setBid cur x). simpl. auto.
  - exists (sortHand (setBid cur x)). simpl. split; [| auto].
    exact (nth_error_updateNth sortHand _ _ Hps).
Qed.

(** C10. While bidding is active and it is the submitting player's turn,
    tryPlaceBid accepts every JavaScript number x with 0 <= x <= 13, an
    integer or not, stores it unchanged as the player's bid and marks the
    bid Nil exactly when x === 0. The calls it turns down as invalid are
    the values that are not numbers and the numbers with x < 0 or x > 13. *)
Theorem C10_tryPlaceBid_accepts_every_number_in_range :
  forall (g : Manager.GameManager spec_float) (pid : string) (cur : CardJs.Player spec_float),
    Manager.isBiddingActive g = true ->
    Manager.state g = Manager.BIDDING ->
    nth_error (Manager.players g) (Manager.currentPlayerIndex g) = Some cur ->
    discordId cur = pid ->
    (forall x, SFleb JS.zero x = true -> SFleb x JS.thirteen = true ->
       exists nilShown complete remaining cur',
         fst (Manager.tryPlaceBid g pid (JS.Number x))
         = Manager.TryPlaced nilShown complete remaining
         /\ nth_error (Manager.players (snd (Manager.tryPlaceBid g pid (JS.Number x))))
                      (Manager.currentPlayerIndex g) = Some cur'
         /\ bid cur' = Some x
         /\ isNil cur' = SFeqb x JS.zero)
    /\ (forall v, fst (Manager.tryPlaceBid g pid v) = Manager.TryInvalid
                  <-> match v with
                      | JS.Number x => SFltb x JS.zero = true \/ SFltb JS.thirteen x = true
                      | _ => True
                      end).
Proof.
  intros g pid cur Hact Hst Hcur Hid. split.
  - intros x H0 H13.
    unfold Manager.tryPlaceBid.
    rewrite Hact, Hst, Hcur, Hid, String.eqb_refl. cbn [negb orb Manager.state_eqb].
    rewrite (SFleb_not_gt _ _ H0), (SFleb_not_gt _ _ H13). cbn [orb fst snd].
    destruct (recordBid_keeps_bid g x Hcur) as (cur' & Hn & Hb & Hnil).
    eexists _, _, _, cur'. split; [reflexivity |]. auto.
  - intros v. unfold Manager.tryPlaceBid.
    rewrite Hact, Hst, Hcur, Hid, String.eqb_refl. cbn [negb orb Manager.state_eqb].
    destruct v as [| | b | s | x |]; cbn [fst]; try (split; auto; fail).
    destruct (SFltb x JS.zero); cbn [orb fst].
    + split; auto.
    + destruct (SFltb JS.thirteen x); cbn [fst].
      * split; auto.
      * split; [discriminate | intros [F | F]; discriminate F].
Qed.

(** A bid of 2.5 is placed as it is. *)
Lemma C10_tryPlaceBid_witness :
  exists nilShown complete remaining cur',
    fst (Manager.tryPlaceBid Spec.buttonState "north" (JS.Number Spec.twoAndHalf))
    = Manager.TryPlaced nilShown complete remaining
    /\ nth_error (Manager.players
                    (snd (Manager.tryPlaceBid Spec.buttonState "north"
                            (JS.Number Spec.twoAndHalf)))) 0 = Some cur'
    /\ bid cur' = Some Spec.twoAndHalf
    /\ isNil cur' = false.
Proof.
  exact (proj1 (C10_tryPlaceBid_accepts_every_number_in_range
                  Spec.buttonState (cur := Spec.buttonBidder)
                  eq_refl eq_refl eq_refl eq_refl)
               Spec.twoAndHalf eq_refl eq_refl).
Defined.

(** NaN is a number that is neither below 0 nor above 13: the guard lets
    it through as well. *)
Lemma tryPlaceBid_places_NaN :
  exists b c r, fst (Manager.tryPlaceBid Spec.buttonState "north" (JS.Number S754_nan))
                = Manager.TryPlaced b c r.
Proof. eexists _, _, _. reflexivity. Qed.

End ButtonBids.

(** ** Looking a card up from text *)

Section CardLookup.

(** The text GameManager compares the input with is [card.code], the rank
    followed by the suit emoji; no two-character code equals it. *)
Lemma code_is_not_short_code (card c : CardJs.Card) :
  String.eqb (JS.toUpperCase (CardJs.code card))
             (JS.toUpperCase (JS.trim (CardJs.shortDisplay c))) = false.
Proof. destruct card as [[] []], c as [[] []]; reflexivity. Qed.

Lemma find_none_all (A : Type) (f : A -> bool) (l : list A) :
  (forall a, f a = false) -> find f l = None.
Proof.
  intros Hf. induction l as [| a l IH]; simpl; [reflexivity |].
  rewrite Hf. exact IH.
Qed.

Lemma peekCardInHand_short_code (B : Type) (p : CardJs.Player B) (c : CardJs.Card) :
  Manager.peekCardInHand p (CardJs.shortDisplay c) = None.
Proof.
  unfold Manager.peekCardInHand. apply find_none_all.
  intros card. apply code_is_not_short_code.
Qed.

(** Whatever the state, a play typed as the rank-plus-suit code of a card
    is never accepted by GameManager. *)
Lemma processCardPlay_short_code_rejected
      (rand : nat -> nat) (g : Manager.GameManager Z) (pid : string) (c : CardJs.Card) :
  Manager.playReturn (fst (Manager.processCardPlay rand g pid (CardJs.shortDisplay c)))
  = false.
Proof.
  unfold Manager.processCardPlay.
  destruct (negb (Manager.isTrickActive g)); [reflexivity |].
  destruct (Manager.getPlayerById g pid) as [p |]; [| reflexivity].
  destruct (nth_error _ _) as [cur |]; [| reflexivity].
  destruct (negb (String.eqb (discordId cur) pid)); [reflexivity |].
  rewrite peekCardInHand_short_code. reflexivity.
Qed.

(** C8 on GameManager: the player to lead holds the ace of spades and types
    AS, the code the prompt asks for; the lookup finds nothing and the play
    is turned down as an invalid card. The emoji code is what it accepts. *)
Theorem C8_manager_rejects_rank_suit_code :
  In (CardJs.mkCard Ace Spades) (hand Spec.leader)
  /\ Manager.peekCardInHand Spec.leader "AS" = None
  /\ fst (Manager.processCardPlay (fun _ => O) Spec.leadState "north" "AS")
     = Manager.InvalidCard
  /\ fst (Manager.processCardPlay (fun _ => O) Spec.leadState "north" "2C")
     = Manager.InvalidCard
  /\ Manager.peekCardInHand Spec.leader (CardJs.code (CardJs.mkCard Two Clubs))
     = Some (CardJs.mkCard Two Clubs).
Proof. repeat split; try reflexivity. simpl. auto. Qed.

End CardLookup.

Section EngineLookup.

Lemma parseCard_engineCode (c : Engine.Card) :
  Engine.parseCard (Spec.engineCode c) = Some (Engine.suit c, Engine.rank c).
Proof. destruct c as [[] []]; reflexivity. Qed.

Lemma getCardByCode_finds (p : Engine.Player) (c : Engine.Card) :
  In c (Engine.hand p) ->
  Engine.getCardByCode p (Engine.suit c) (Engine.rank c) = Some c.
Proof.
  intros Hin. unfold Engine.getCardByCode.
  set (f := fun c0 => suit_eqb (Engine.suit c0) (Engine.suit c)
                      && Engine.rank_eqb (Engine.rank c0) (Engine.rank c)).
  assert (forall c0, f c0 = true -> c0 = c) as Hf.
  { intros [s0 r0]. unfold f, Engine.rank_eqb. destruct c as [s r]. simpl.
    intros E. apply andb_true_iff in E. destruct E as [E1 E2].
    apply suit_eqb_eq in E1. apply Z.eqb_eq in E2. subst.
    destruct r0, r; try reflexivity; discriminate E2. }
  destruct (find f (Engine.hand p)) as [c0 |] eqn:E.
  - apply find_some in E. destruct E as [_ E]. apply Hf in E. now subst.
  - exfalso. pose proof (find_none _ _ E c Hin) as N.
    unfold f, Engine.rank_eqb in N.
    assert (suit_eqb (Engine.suit c) (Engine.suit c) = true) as E1
        by (apply suit_eqb_eq; reflexivity).
    rewrite E1, Z.eqb_refl in N. discriminate N.
Qed.

(** Game.getCardFromInput does what GameManager.peekCardInHand misses: a
    rank-plus-suit code, in any letter case and with spaces around it,
    resolves to the card of the hand it names, and the call then answers
    with that card or with one of the two rule violations; text that does
    not parse, or names a card that is not held, is turned down. The call
    returns a value and changes no state. *)
Lemma engine_getCardFromInput_lookup (g : Engine.Game) (p : Engine.Player) (input : string) :
  (forall c, In c (Engine.hand p) ->
             JS.trim (JS.toUpperCase input) = Spec.engineCode c ->
             Engine.getCardFromInput g p input = Engine.Found c
             \/ Engine.getCardFromInput g p input = Engine.SpadesNotBroken
             \/ Engine.getCardFromInput g p input = Engine.MustFollowSuit)
  /\ (Engine.parseCard (JS.trim (JS.toUpperCase input)) = None ->
      Engine.getCardFromInput g p input = Engine.InvalidFormat)
  /\ (forall s r, Engine.parseCard (JS.trim (JS.toUpperCase input)) = Some (s, r) ->
                  ~ In (Engine.mkCard s r) (Engine.hand p) ->
                  Engine.getCardFromInput g p input = Engine.NotInHand).
Proof.
  split; [| split].
  - intros c Hin Hcode. unfold Engine.getCardFromInput.
    rewrite Hcode, parseCard_engineCode, (getCardByCode_finds p c Hin).
    destruct (Engine.trick g).
    + destruct (_ && _); auto.
    + destruct (_ && _); auto.
  - intros E. unfold Engine.getCardFromInput. rewrite E. reflexivity.
  - intros s r E Hnot. unfold Engine.getCardFromInput. rewrite E.
    destruct (Engine.getCardByCode p s r) as [c |] eqn:F; [| reflexivity].
    exfalso. apply Hnot. unfold Engine.getCardByCode in F.
    apply find_some in F. destruct F as [Hin Hb].
    apply andb_true_iff in Hb. destruct Hb as [E1 E2].
    apply suit_eqb_eq in E1. unfold Engine.rank_eqb in E2. apply Z.eqb_eq in E2.
    destruct c as [s0 r0]. simpl in *. subst s0.
    assert (r0 = r) as -> by (destruct r0, r; try reflexivity; discriminate E2).
    exact Hin.
Qed.

End EngineLookup.

(** ** Card conservation *)

Section CardCount.

Local Open Scope nat_scope.

Lemma length_updateNth (A : Type) (f : A -> A) (l : list A) (i : nat) :
  List.length (Manager.updateNth i f l) = List.length l.
Proof.
  revert i. induction l as [| x l IH]; intros [| i]; simpl; auto.
Qed.


Lemma length_setNth (A : Type) (l : list A) (i : nat) (x : A) :
  List.length (setNth l i x) = List.length l.
Proof.
  revert i. induction l as [| y l IH]; intros [| i]; simpl; auto.
Qed.

Lemma length_swap (A : Type) (l : list A) (i j : nat) :
  List.length (swap l i j) = List.length l.
Proof.
  unfold swap. destruct (nth_error l i), (nth_error l j); auto.
  now rewrite !length_setNth.
Qed.

Lemma length_shuffleFrom (A : Type) (rand : nat -> nat) (i : nat) (l : list A) :
  List.length (shuffleFrom rand i l) = List.length l.
Proof.
  revert l. induction i as [| i IH]; intros l; simpl; [reflexivity |].
  now rewrite IH, length_swap.
Qed.

Lemma length_shuffle (A : Type) (rand : nat -> nat) (l : list A) :
  List.length (shuffle rand l) = List.length l.
Proof. apply length_shuffleFrom. Qed.


Lemma deal_length (A : Type) (d d' : list A) (c : A) :
  deal d = Some (c, d') -> List.length d = S (List.length d').
Proof.
  unfold deal. intros E.
  rewrite <- (length_rev d). destruct (rev d) as [| x r]; [discriminate |].
  inversion E. subst. simpl. now rewrite length_rev.
Qed.

Lemma length_insertCard (c : Card) (l : list Card) :
  List.length (insertCard c l) = S (List.length l).
Proof.
  induction l as [| x l IH]; simpl; [reflexivity |].
  destruct (_ <? _)%Z; simpl; auto.
Qed.

Lemma length_sortCards (l : list Card) : List.length (sortCards l) = List.length l.
Proof.
  unfold sortCards.
  assert (forall acc, List.length (fold_left (fun a c => insertCard c a) l acc)
                      = List.length l + List.length acc) as G.
  { induction l as [| x l IH]; intros acc; simpl; [reflexivity |].
    rewrite IH, length_insertCard. lia. }
  rewrite G. simpl. lia.
Qed.


Section Hands.
Context {B : Type} `{BidValue B}.

Lemma handCards_updateNth (f : Player B -> Player B) (ps : list (Player B)) (i : nat) :
  Spec.keepsHand f -> Spec.handCards (Manager.updateNth i f ps) = Spec.handCards ps.
Proof.
  intros Hf. revert i. induction ps as [| p ps IH]; intros [| i]; simpl; auto.
Qed.






Lemma keepsHand_sortHand : Spec.keepsHand (@sortHand B).
Proof. intros p. simpl. apply length_sortCards. Qed.





Lemma dealCards_flags (g : Manager.GameManager B) :
  Manager.isGameActive (Manager.dealCards g) = Manager.isGameActive g
  /\ Manager.isTrickActive (Manager.dealCards g) = Manager.isTrickActive g
  /\ Manager.isBiddingActive (Manager.dealCards g) = Manager.isBiddingActive g
  /\ Manager.currentTrick (Manager.dealCards g) = Manager.currentTrick g.
Proof.
  unfold Manager.dealCards. destruct (Manager.dealLoop _ _ _ _). cbn. auto.
Qed.

End Hands.

End CardCount.

Section Invariant.

Local Open Scope nat_scope.











Lemma sendPlayCardPrompt_hands (g : Manager.GameManager Z) (i : nat) :
  Spec.handCards (Manager.players (Manager.sendPlayCardPrompt g i))
  = Spec.handCards (Manager.players g)
  /\ List.length (Manager.players (Manager.sendPlayCardPrompt g i))
     = List.length (Manager.players g).
Proof.
  unfold Manager.sendPlayCardPrompt. cbn [Manager.players Manager.setPlayers].
  rewrite handCards_updateNth by apply keepsHand_sortHand.
  rewrite length_updateNth. auto.
Qed.



End Invariant.

Section PlayInvariant.

Local Open Scope nat_scope.






Lemma setTrickSuit_invariant (k : nat) (g : Manager.GameManager Z) (s : option Suit) :
  Spec.CardInvariant k g -> Spec.CardInvariant k (Manager.setTrickSuit g s).
Proof. intros I. exact I. Qed.



End PlayInvariant.

Section CardCountClaim.

Local Open Scope nat_scope.












End CardCountClaim.

(** ** The end of bidding and the start of a round *)

Section RoundStart.

Local Open Scope nat_scope.

(** The bid that completes the bidding leaves the turn with its bidder:
    [endBidding] and [startTricks] never move [currentPlayerIndex], and the
    state label stays as it was. Both [processBid] and [tryPlaceBid] go
    through this. *)
Lemma last_bid_keeps_turn (B : Type) `{BidValue B} (g : Manager.GameManager B) (b : B) :
  S (Manager.bidsTaken g) = List.length (Manager.players g) ->
  Manager.currentPlayerIndex (Manager.recordBid g b) = Manager.currentPlayerIndex g
  /\ Manager.isTrickActive (Manager.recordBid g b) = true
  /\ Manager.isBiddingActive (Manager.recordBid g b) = false
  /\ Manager.state (Manager.recordBid g b) = Manager.state g.
Proof.
  intros E. unfold Manager.recordBid. cbv zeta.
  cbn [Manager.bidsTaken Manager.players Manager.setBidsTaken Manager.setPlayers].
  rewrite length_updateNth, E, Nat.ltb_irrefl.
  cbn. auto.
Qed.

(** C2 on GameManager: north bids first at the table of four; after the
    fourth bid trick play is on, the state label is still BIDDING, and the
    turn is with west, the last bidder, not with north, whose play is
    turned down. *)
Theorem C2_manager_last_bidder_leads :
  Manager.currentPlayerIndex Spec.dealt = 0
  /\ fst (Manager.processBid Spec.dealt "north" "3") = Manager.BidAccepted
  /\ Manager.isTrickActive Spec.bidsMade = true
  /\ Manager.isBiddingActive Spec.bidsMade = false
  /\ Manager.state Spec.bidsMade = Manager.BIDDING
  /\ Manager.currentPlayerIndex Spec.bidsMade = 3
  /\ option_map (@discordId Z)
       (nth_error (Manager.players Spec.bidsMade)
                  (Manager.currentPlayerIndex Spec.bidsMade)) = Some "west"
  /\ fst (Manager.processCardPlay Spec.draws Spec.bidsMade "north"
            (code (mkCard Two Clubs))) = Manager.PlayNotYourTurn.
Proof. repeat split; vm_compute; reflexivity. Qed.

Lemma dealPass_length (d : list Engine.Card) (ps : list Engine.Player) :
  List.length (snd (Engine.dealPass d ps)) = List.length ps.
Proof.
  revert d. induction ps as [| p ps IH]; intros d; simpl; [reflexivity |].
  destruct (deal d) as [[c d'] |].
  - specialize (IH d'). destruct (Engine.dealPass d' ps). simpl in *. now rewrite IH.
  - specialize (IH d). destruct (Engine.dealPass d ps). simpl in *. now rewrite IH.
Qed.

Lemma dealPasses_length (n : nat) (d : list Engine.Card) (ps : list Engine.Player) :
  List.length (snd (Engine.dealPasses n d ps)) = List.length ps.
Proof.
  revert d ps. induction n as [| n IH]; intros d ps; simpl; [reflexivity |].
  pose proof (dealPass_length d ps) as L.
  destruct (Engine.dealPass d ps) as [d' ps']. simpl in L. now rewrite IH.
Qed.

(** Game.startRound does what GameManager misses: the seat after the
    dealer bids first and leads, and spadesBroken is false again. *)
Lemma engine_startRound_resets (sortHandOrder : list Engine.Card -> list Engine.Card)
      (rand : nat -> nat) (g : Engine.Game) :
  let g' := Engine.startRound sortHandOrder rand g in
  Engine.currentPlayerIndex g'
  = (Engine.dealerIndex g + 1) mod List.length (Engine.players g)
  /\ Engine.spadesBroken g' = false
  /\ Engine.trick g' = []
  /\ Engine.state g' = Engine.BIDDING.
Proof.
  unfold Engine.startRound, Engine.dealCards.
  pose proof (dealPasses_length 13 (shuffle rand Engine.createDeck) (Engine.players g)) as L.
  destruct (Engine.dealPasses 13 (shuffle rand Engine.createDeck) (Engine.players g))
    as [d ps].
  cbn [snd] in L. cbn. rewrite !length_map, L. auto.
Qed.

Lemma startNextRound_spadesBroken (rand : nat -> nat) (g : Manager.GameManager Z) :
  Manager.spadesBroken (Manager.startNextRound rand g) = Manager.spadesBroken g.
Proof.
  unfold Manager.startNextRound, Manager.startBidding, Manager.dealCards.
  destruct (Manager.dealLoop _ _ _ _). reflexivity.
Qed.

Lemma endRound_spadesBroken (rand : nat -> nat) (g : Manager.GameManager Z) :
  Manager.spadesBroken (snd (Manager.endRound rand g)) = Manager.spadesBroken g.
Proof.
  unfold Manager.endRound. cbv zeta.
  destruct (Manager.checkGameEnd _ _); cbn [snd]; [reflexivity |].
  rewrite startNextRound_spadesBroken. reflexivity.
Qed.


(** Within a round the flag only goes up: no bid and no play clears it. *)
Lemma spadesBroken_never_cleared (rand : nat -> nat) (g : Manager.GameManager Z)
      (pid raw : string) :
  Manager.spadesBroken g = true ->
  Manager.spadesBroken (snd (Manager.processBid g pid raw)) = true
  /\ Manager.spadesBroken (snd (Manager.processCardPlay rand g pid raw)) = true.
Proof.
  intros Hs. split.
  - unfold Manager.processBid.
    destruct (negb _); [exact Hs |].
    destruct (nth_error _ _); [| exact Hs].
    destruct (negb _); [exact Hs |].
    destruct (Manager.validateBid raw); [| exact Hs].
    cbn [snd]. unfold Manager.recordBid. cbv zeta.
    destruct (_ <? _); exact Hs.
  - assert (forall g0 w, Manager.spadesBroken g0 = true ->
              Manager.spadesBroken (snd (Manager.endTrick rand g0 w)) = true) as ET.
    { intros g0 w H0. unfold Manager.endTrick.
      destruct (Manager.findIndex _ _); [| exact H0]. cbv zeta.
      destruct (nth_error _ _); [| exact H0].
      destruct (_ =? _); [| exact H0].
      pose proof (endRound_spadesBroken rand
                    (Manager.setTrickActive
                       (Manager.setPlayers g0
                          (Manager.updateNth n addTrick (Manager.players g0)))
                       false)) as R.
      destruct (Manager.endRound _ _) as [over g2]. cbn [snd] in *.
      rewrite R. exact H0. }
    assert (forall g0 p, Manager.spadesBroken g0 = true ->
              Manager.spadesBroken (snd (Manager.playValidated rand g0 p pid raw)) = true)
      as PV.
    { intros g0 p H0. unfold Manager.playValidated.
      destruct (playCard p _) as [[c p'] |]; [| exact H0]. cbv zeta.
      match goal with
      | |- context [if ?cond then Manager.setSpadesBroken ?g2 true else ?g2] =>
          set (g3 := if cond then Manager.setSpadesBroken g2 true else g2);
          assert (Manager.spadesBroken g3 = true) as H3
            by (subst g3; destruct cond; [reflexivity | exact H0])
      end.
      clearbody g3.
      destruct (_ =? _); [| exact H3].
      unfold Manager.evaluateTrick.
      destruct (Manager.getWinnerOfTrick g3); [| exact H3].
      apply ET. exact H3. }
    unfold Manager.processCardPlay.
    destruct (negb _); [exact Hs |].
    destruct (Manager.getPlayerById g pid) as [p |]; [| exact Hs].
    destruct (nth_error _ _); [| exact Hs].
    destruct (negb _); [exact Hs |].
    destruct (Manager.peekCardInHand p raw); [| exact Hs].
    destruct (Manager.currentTrick g).
    + destruct (_ && _); [exact Hs |]. apply PV. exact Hs.
    + destruct (_ && _); [exact Hs |]. apply PV. exact Hs.
Qed.

End RoundStart.

(** ** Round-end scoring *)

Section Scoring.

Local Open Scope Z_scope.

(** C1 on GameManager. With a made Nil (north) next to a made bid of 4
    (south), north's own score gains 140 and south's 40, and the team score
    the scoreboard reports, half their sum, is 90, not 140: the Nil bonus
    weighs 50. With a failed Nil of 2 tricks the reported score is -10, not
    -60, and the two tricks reach no bag count. *)
Theorem C1_manager_nil_bonus_halved_and_no_bags :
  map (@score Z) (Spec.scored Spec.nilMade) = [140; 90; 40; 90]
  /\ (Manager.teamScore Team2 (Spec.scored Spec.nilMade) == 90)%Q
  /\ map (@score Z) (Spec.scored Spec.nilFailed) = [-60; -90; 40; -90]
  /\ (Manager.teamScore Team2 (Spec.scored Spec.nilFailed) == -10)%Q
  /\ Manager.teamBagTotal Team2 (Spec.scored Spec.nilFailed) = 0.
Proof. repeat split; vm_compute; reflexivity. Qed.

(** Game.js scores a single Nil as the spec words it, with 14 as its code
    for Nil: 100 points up or down for the Nil bidder, whose tricks become bags
    when the Nil fails, and the partner's own bid against the partner's own
    tricks. *)
Lemma engine_single_nil_contract (n m : Engine.Player) :
  Engine.bid n = 14 -> Engine.bid m <> 14 ->
  let nilPart := if (Engine.tricks n =? 0)%Z then 100 else -100 in
  let nilBags := if (Engine.tricks n =? 0)%Z then 0 else Engine.tricks n in
  let met := (Engine.bid m <=? Engine.tricks m)%Z in
  let partnerPart := if met then Engine.bid m * 10 else - (Engine.bid m * 10) in
  let partnerBags := if met then Engine.tricks m - Engine.bid m else 0 in
  Engine.contract n m
  = (nilPart + partnerPart, Engine.bags n + Engine.bags m + nilBags + partnerBags)
  /\ Engine.contract m n
     = (nilPart + partnerPart, Engine.bags m + Engine.bags n + nilBags + partnerBags).
Proof.
  intros Hn Hm. unfold Engine.contract. rewrite Hn.
  apply Z.eqb_neq in Hm. rewrite Hm. cbn [Z.eqb Pos.eqb andb orb].
  cbv zeta.
  destruct (Engine.tricks n =? 0)%Z; destruct (Engine.bid m <=? Engine.tricks m)%Z;
    split; f_equal; lia.
Qed.

(** C6 on Game.js. A partnership with 9 bags gains 11: at 20 bags it pays
    100 points once and keeps 10 bags, where the repeated penalty of the
    spec takes 200 points and leaves none. *)
Theorem C6_engine_penalty_applied_once :
  Engine.calculateRoundScores Spec.bagHeavy = Some (false, Spec.bagHeavyScored)
  /\ Engine.team1 Spec.bagHeavyScored = 20 - 100
  /\ map Engine.bags (Engine.players Spec.bagHeavyScored) = [5; 0; 5; 0]
  /\ Spec.penalise 2 20 20 = (-180, 0).
Proof. repeat split. Qed.

End Scoring.

Section BagPenalty.

Local Open Scope Z_scope.

Lemma penalise_closed_form (n : nat) (points total : Z) :
  0 <= total <= 10 * Z.of_nat n + 9 ->
  Spec.penalise n points total = (points - 100 * (total / 10), total mod 10).
Proof.
  revert points total. induction n as [| n IH]; intros points total Hb.
  - simpl. f_equal.
    + rewrite Z.div_small by lia. lia.
    + rewrite Z.mod_small by lia. reflexivity.
  - cbn [Spec.penalise]. destruct (Z.leb_spec 10 total) as [Hge | Hlt].
    + rewrite IH by lia.
      replace total with ((total - 10) + 1 * 10) at 3 4 by lia.
      rewrite Z.div_add, Z.mod_add by lia. f_equal. lia.
    + f_equal.
      * rewrite Z.div_small by lia. lia.
      * rewrite Z.mod_small by lia. reflexivity.
Qed.

Lemma fold_sum_shift (f : Player Z -> Z) (l : list (Player Z)) (a b : Z) :
  fold_left (fun sum p => sum + f p) l (a + b)
  = a + fold_left (fun sum p => sum + f p) l b.
Proof.
  revert b. induction l as [| x l IH]; intros b; simpl; [reflexivity |].
  rewrite <- Z.add_assoc. apply IH.
Qed.

Lemma sumOver_cons (f : Player Z -> Z) (x : Player Z) (l : list (Player Z)) :
  Manager.sumOver f (x :: l) = f x + Manager.sumOver f l.
Proof.
  unfold Manager.sumOver. cbn [fold_left].
  rewrite <- fold_sum_shift. f_equal. lia.
Qed.

Lemma filter_map_on (q : Player Z -> bool) (f : Player Z -> Player Z)
      (l : list (Player Z)) :
  (forall p, q (f p) = q p) ->
  filter q (map (fun p => if q p then f p else p) l) = map f (filter q l).
Proof.
  intros Hq. induction l as [| x l IH]; simpl; [reflexivity |].
  destruct (q x) eqn:E; simpl.
  - rewrite Hq, E, IH. reflexivity.
  - rewrite E, IH. reflexivity.
Qed.

Lemma filter_map_off (q q' : Player Z -> bool) (f : Player Z -> Player Z)
      (l : list (Player Z)) :
  (forall p, q p = true -> q' p = false) ->
  (forall p, q' (f p) = q' p) ->
  filter q' (map (fun p => if q p then f p else p) l) = filter q' l.
Proof.
  intros Hoff Hq. induction l as [| x l IH]; simpl; [reflexivity |].
  destruct (q x) eqn:E.
  - rewrite Hq, (Hoff x E). exact IH.
  - destruct (q' x); [f_equal |]; exact IH.
Qed.

Lemma filter_updateFirst_off (q q' : Player Z -> bool) (f : Player Z -> Player Z)
      (l : list (Player Z)) :
  (forall p, q p = true -> q' p = false) ->
  (forall p, q' (f p) = q' p) ->
  filter q' (Manager.updateFirst q f l) = filter q' l.
Proof.
  intros Hoff Hq. induction l as [| x l IH]; simpl; [reflexivity |].
  destruct (q x) eqn:E; simpl.
  - rewrite Hq, (Hoff x E). reflexivity.
  - destruct (q' x); [f_equal |]; exact IH.
Qed.

Lemma filter_updateFirst_on (q : Player Z -> bool) (f : Player Z -> Player Z)
      (l : list (Player Z)) :
  (forall p, q (f p) = q p) ->
  filter q (Manager.updateFirst q f l) = Spec.updateHead f (filter q l).
Proof.
  intros Hq. induction l as [| x l IH]; simpl; [reflexivity |].
  destruct (q x) eqn:E; simpl.
  - rewrite Hq, E. reflexivity.
  - rewrite E. exact IH.
Qed.

(** The players of another team are out of reach of the loop turn. *)
Lemma applyBags_off_team (ps : list (Player Z)) (t t' : option Team) :
  team_eqb t' t = false ->
  filter (Manager.onTeam t') (Manager.applyBags ps t) = filter (Manager.onTeam t') ps.
Proof.
  intros Hne.
  assert (forall p, Manager.onTeam t p = true -> Manager.onTeam t' p = false) as Hoff.
  { intros p. unfold Manager.onTeam.
    destruct (team p) as [[] |], t as [[] |], t' as [[] |]; simpl in *;
      intros E; try reflexivity; try discriminate E; discriminate Hne. }
  unfold Manager.applyBags. cbv zeta.
  destruct (10 <=? _); [| reflexivity].
  rewrite filter_updateFirst_off by (auto; intros p; reflexivity).
  apply filter_map_off; [exact Hoff | intros p; reflexivity].
Qed.

(** On its own team the loop turn is [penaliseTeam]. *)
Lemma applyBags_on_team (ps : list (Player Z)) (t : option Team) :
  filter (Manager.onTeam t) (Manager.applyBags ps t)
  = Spec.penaliseTeam (filter (Manager.onTeam t) ps).
Proof.
  unfold Manager.applyBags, Spec.penaliseTeam. cbv zeta.
  destruct (10 <=? _); [| reflexivity].
  rewrite filter_updateFirst_on by (intros p; reflexivity).
  rewrite filter_map_on by (intros p; reflexivity).
  reflexivity.
Qed.

Lemma sumOver_bags_reset (pen : Z) (l : list (Player Z)) :
  Manager.sumOver (@bags Z)
    (map (fun p => setBags (setScore p (score p - pen)) 0) l) = 0.
Proof.
  induction l as [| x l IH]; [reflexivity |].
  cbn [map]. rewrite sumOver_cons, IH. reflexivity.
Qed.

(** GameManager applies the penalty as the spec words it. For a team whose
    bag total T is not negative, [calculateAndApplyBags] leaves the team
    with the bag total, and each of its players with the score, that taking
    100 points and 10 bags while the total is at least 10 gives: T mod 10
    bags and 100 * (T / 10) points less. A total below 10 changes nothing
    for the team. *)
Lemma manager_bag_penalty_repeats (ps : list (Player Z)) (t : Team) :
  let T := Manager.teamBagTotal t ps in
  let onT := filter (Manager.onTeam (Some t)) in
  0 <= T ->
  Manager.teamBagTotal t (Manager.calculateAndApplyBags ps)
  = snd (Spec.penalise (Z.to_nat T) 0 T)
  /\ map (@score Z) (onT (Manager.calculateAndApplyBags ps))
     = map (fun p => fst (Spec.penalise (Z.to_nat T) (score p) T)) (onT ps)
  /\ Manager.teamBagTotal t (Manager.calculateAndApplyBags ps) < 10
  /\ (T < 10 -> onT (Manager.calculateAndApplyBags ps) = onT ps).
Proof.
  intros T onT HT.
  assert (onT (Manager.calculateAndApplyBags ps) = Spec.penaliseTeam (onT ps)) as V.
  { subst onT. unfold Manager.calculateAndApplyBags, Manager.teamKeys. cbn [fold_left].
    rewrite applyBags_off_team by (destruct t; reflexivity).
    destruct t.
    - rewrite applyBags_off_team by reflexivity. apply applyBags_on_team.
    - rewrite applyBags_on_team. rewrite applyBags_off_team by reflexivity.
      reflexivity. }
  unfold Manager.teamBagTotal at 1 2. fold onT. rewrite V.
  assert (forall s, Spec.penalise (Z.to_nat T) s T = (s - 100 * (T / 10), T mod 10)) as P
      by (intros s; apply penalise_closed_form; lia).
  rewrite P. cbn [snd].
  unfold Spec.penaliseTeam. cbv zeta.
  change (Manager.sumOver (@bags Z) (onT ps)) with T.
  destruct (Z.leb_spec 10 T) as [Hge | Hlt].
  - assert (Z.rem T 10 = T mod 10) as Hrem by (apply Z.rem_mod_nonneg; lia).
    destruct (onT ps) as [| x l] eqn:El.
    + exfalso. subst T. unfold Manager.teamBagTotal in Hge. fold onT in Hge.
      rewrite El in Hge. unfold Manager.sumOver in Hge. simpl in Hge. lia.
    + cbn [map Spec.updateHead]. rewrite sumOver_cons, sumOver_bags_reset.
      cbn [bags setBags]. rewrite Hrem.
      pose proof (Z.mod_pos_bound T 10).
      split; [lia | split; [| split; [lia | lia]]].
      cbn [map score setBags setScore]. rewrite P. cbn [fst]. f_equal; [lia |].
      rewrite map_map. apply map_ext. intros p. cbn [score setBags setScore].
      rewrite P. cbn [fst]. lia.
  - rewrite Z.mod_small by lia.
    change (Manager.sumOver (@bags Z) (onT ps)) with T.
    split; [reflexivity | split; [| split; [lia | reflexivity]]].
    apply map_ext. intros p. rewrite P. cbn [fst]. rewrite Z.div_small by lia. lia.
Qed.

End BagPenalty.

Section NilContract.

Local Open Scope Z_scope.

Lemma filter_idem (q : Player Z -> bool) (l : list (Player Z)) :
  filter q (filter q l) = filter q l.
Proof.
  induction l as [| x l IH]; simpl; [reflexivity |].
  destruct (q x) eqn:E; simpl; [rewrite E, IH |]; auto.
Qed.

Lemma team_maps_restrict (q c : Player Z -> bool) (g1 g2 : Player Z -> Player Z)
      (l : list (Player Z)) :
  (forall p, q (g1 p) = q p) -> (forall p, q (g2 p) = q p) ->
  filter q (map (fun p => if q p then g2 p else p)
                (map (fun p => if q p && c p then g1 p else p) l))
  = map (fun p => if q p then g2 p else p)
        (map (fun p => if q p && c p then g1 p else p) (filter q l)).
Proof.
  intros Q1 Q2. induction l as [| x l IH]; [reflexivity |].
  cbn [map filter]. destruct (q x) eqn:E; cbn [andb map filter].
  - rewrite E. cbn [andb].
    assert (q (if c x then g1 x else x) = true) as E1
        by (destruct (c x); [rewrite Q1 |]; exact E).
    rewrite E1, Q2, E1, IH. reflexivity.
  - rewrite E, E. exact IH.
Qed.

Lemma team_update_restrict (q c : Player Z -> bool) (g1 g2 f : Player Z -> Player Z)
      (l : list (Player Z)) :
  (forall p, q (g1 p) = q p) -> (forall p, q (g2 p) = q p) -> (forall p, q (f p) = q p) ->
  filter q (Manager.updateFirst q f
              (map (fun p => if q p then g2 p else p)
                   (map (fun p => if q p && c p then g1 p else p) l)))
  = Manager.updateFirst q f
      (map (fun p => if q p then g2 p else p)
           (map (fun p => if q p && c p then g1 p else p) (filter q l))).
Proof.
  intros Q1 Q2 Q3. induction l as [| x l IH]; [reflexivity |].
  cbn [map filter]. destruct (q x) eqn:E; cbn [andb map filter Manager.updateFirst].
  - rewrite E. cbn [andb].
    assert (q (if c x then g1 x else x) = true) as E1
        by (destruct (c x); [rewrite Q1 |]; exact E).
    rewrite E1, Q2, E1. cbn [filter]. rewrite Q3, Q2, E1.
    f_equal. apply team_maps_restrict; assumption.
  - rewrite E, E. cbn [filter]. rewrite E. exact IH.
Qed.

(** Scoring a team looks at the players of the team only. *)
Lemma scoreTeam_on_team (ps : list (Player Z)) (t : option Team) :
  filter (Manager.onTeam t) (Manager.scoreTeam ps t)
  = Manager.scoreTeam (filter (Manager.onTeam t) ps) t.
Proof.
  unfold Manager.scoreTeam. rewrite filter_idem.
  destruct (filter (Manager.onTeam t) ps) as [| x l] eqn:E; [exact E |].
  cbv zeta. rewrite <- E.
  match goal with
  | |- filter ?q (Manager.updateFirst ?q ?f
                    (map (fun p2 => if ?q p2 then @?g2 p2 else p2)
                         (map (fun p1 => if ?q p1 && ?c p1 then @?g1 p1 else p1) ?l0))) = _ =>
      apply (team_update_restrict q c g1 g2 f)
  end.
  - intros p. unfold Manager.scoreNilPlayer. destruct (_ =? _); reflexivity.
  - intros p. reflexivity.
  - intros p. reflexivity.
Qed.

Lemma scoreTeam_off_team (ps : list (Player Z)) (t t' : option Team) :
  team_eqb t' t = false ->
  filter (Manager.onTeam t') (Manager.scoreTeam ps t) = filter (Manager.onTeam t') ps.
Proof.
  intros Hne.
  assert (forall p, Manager.onTeam t p = true -> Manager.onTeam t' p = false) as Hoff.
  { intros p. unfold Manager.onTeam.
    destruct (team p) as [[] |], t as [[] |], t' as [[] |]; simpl in *;
      intros E; try reflexivity; try discriminate E; discriminate Hne. }
  unfold Manager.scoreTeam.
  destruct (filter (Manager.onTeam t) ps) as [| x0 l0]; [reflexivity |].
  cbv zeta.
  rewrite filter_updateFirst_off by (auto; intros ?; reflexivity).
  rewrite filter_map_off by (auto; intros ?; reflexivity).
  assert (forall l1 : list (Player Z),
             map (fun p => if Manager.onTeam t p && isNil p
                           then Manager.scoreNilPlayer p else p) l1
             = map (fun p => if Manager.onTeam t p
                             then (if isNil p then Manager.scoreNilPlayer p else p)
                             else p) l1) as M1
      by (intros l1; apply map_ext; intros p; destruct (Manager.onTeam t p); reflexivity).
  rewrite M1. apply filter_map_off; [exact Hoff |].
  intros p. unfold Manager.scoreNilPlayer.
  destruct (isNil p); [destruct (_ =? _) |]; reflexivity.
Qed.


End NilContract.

(** ** The end of the game *)

Section GameEnd.

Local Open Scope Z_scope.

(** C7 as stated fails on Game.js: north and south stand at -150 and miss
    a bid of 6; at -210 the game is reported over although neither
    partnership has reached the target of 500. *)
Lemma C7_counterexample_low_score_ends_game :
  Engine.calculateRoundScores Spec.lowScore = Some (true, Spec.lowScoreScored)
  /\ Engine.team1 Spec.lowScoreScored = -210
  /\ Engine.team2 Spec.lowScoreScored = 200
  /\ Engine.maxScore Spec.lowScoreScored = 500
  /\ ~ (Engine.maxScore Spec.lowScoreScored <= Engine.team1 Spec.lowScoreScored
        \/ Engine.maxScore Spec.lowScoreScored <= Engine.team2 Spec.lowScoreScored).
Proof.
  repeat split. vm_compute. intros [H | H]; apply H; reflexivity.
Qed.

(** C7, amended. After the round's scores and bag penalties are applied,
    GameManager ends the game exactly when a partnership's score is at
    least the target, leaving trick play off and starting nothing, and in
    every other case starts a new round, back in bidding with no bid taken;
    Game.calculateRoundScores reports the game over exactly when a
    partnership's score is at least the maximum or at most -200. *)
Theorem C7_game_ends_at_target_or_engine_low_score :
  (forall (rand : nat -> nat) (g : Manager.GameManager Z),
      let ps := Manager.calculateAndApplyBags (Manager.scoreContracts (Manager.players g)) in
      let ended := Manager.setPlayers (Manager.setTrickActive g false) ps in
      (fst (Manager.endRound rand g) = true
       <-> (inject_Z (Manager.targetScore g) <= Manager.teamScore Team1 ps)%Q
           \/ (inject_Z (Manager.targetScore g) <= Manager.teamScore Team2 ps)%Q)
      /\ (fst (Manager.endRound rand g) = true ->
          snd (Manager.endRound rand g) = ended
          /\ Manager.isTrickActive (snd (Manager.endRound rand g)) = false)
      /\ (fst (Manager.endRound rand g) = false ->
          snd (Manager.endRound rand g) = Manager.startNextRound rand ended
          /\ Manager.isBiddingActive (snd (Manager.endRound rand g)) = true
          /\ Manager.state (snd (Manager.endRound rand g)) = Manager.BIDDING
          /\ Manager.bidsTaken (snd (Manager.endRound rand g)) = 0%nat
          /\ Manager.isTrickActive (snd (Manager.endRound rand g)) = false))
  /\
  (forall (g g' : Engine.Game) (over : bool),
      Engine.calculateRoundScores g = Some (over, g') ->
      (over = true
       <-> Engine.maxScore g' <= Engine.team1 g' \/ Engine.maxScore g' <= Engine.team2 g'
           \/ Engine.team1 g' <= -200 \/ Engine.team2 g' <= -200)).
Proof.
  split.
  - intros rand g ps ended. unfold Manager.endRound. cbv zeta.
    cbn [Manager.players Manager.setTrickActive Manager.targetScore Manager.setPlayers].
    fold ps. fold ended.
    assert (Manager.checkGameEnd (Manager.targetScore g) (Manager.announceTeamScores ps) = true
            <-> (inject_Z (Manager.targetScore g) <= Manager.teamScore Team1 ps)%Q
                \/ (inject_Z (Manager.targetScore g) <= Manager.teamScore Team2 ps)%Q) as C.
    { unfold Manager.checkGameEnd, Manager.announceTeamScores. cbn [fst snd].
      rewrite orb_true_iff, !Qle_bool_iff. reflexivity. }
    destruct (Manager.checkGameEnd _ _); cbn [fst snd].
    + split; [exact C |]. split; [| discriminate].
      intros _. split; reflexivity.
    + split; [exact C |]. split; [discriminate |].
      intros _. split; [reflexivity |].
      unfold Manager.startNextRound.
      match goal with
      | |- context [Manager.dealCards ?g0] =>
          destruct (dealCards_flags g0) as (_ & F & _ & _);
          remember (Manager.dealCards g0) as g1 eqn:Eg; clear Eg
      end.
      cbn in F. cbn. auto.
  - intros g g' over E. unfold Engine.calculateRoundScores in E.
    destruct (Engine.scoreTeam 0 g) as [g1 |]; [| discriminate E].
    destruct (Engine.scoreTeam 1 g1) as [g2 |]; [| discriminate E].
    inversion E. subst g' over. unfold Engine.isGameOver.
    rewrite !orb_true_iff, !Z.leb_le. tauto.
Qed.

Lemma C7_game_end_witness :
  (true = true
   <-> Engine.maxScore Spec.lowScoreScored <= Engine.team1 Spec.lowScoreScored
       \/ Engine.maxScore Spec.lowScoreScored <= Engine.team2 Spec.lowScoreScored
       \/ Engine.team1 Spec.lowScoreScored <= -200
       \/ Engine.team2 Spec.lowScoreScored <= -200)
  /\ (fst (Manager.endRound Spec.draws (Spec.lastTrickDone Spec.nilMade)) = true
      <-> (inject_Z 500
           <= Manager.teamScore Team1
                (Manager.calculateAndApplyBags (Manager.scoreContracts Spec.nilMade)))%Q
          \/ (inject_Z 500
              <= Manager.teamScore Team2
                   (Manager.calculateAndApplyBags (Manager.scoreContracts Spec.nilMade)))%Q).
Proof.
  split.
  - apply (proj2 C7_game_ends_at_target_or_engine_low_score Spec.lowScore).
    vm_compute. reflexivity.
  - exact (proj1 (proj1 C7_game_ends_at_target_or_engine_low_score
                    Spec.draws (Spec.lastTrickDone Spec.nilMade))).
Defined.

End GameEnd.

(* ================================================================== *)
(** * Further properties of the code *)

(** ** The deck *)

Section Deck.

Lemma setNth_exchange (A : Type) (t : list A) (k : nat) (x y : A) :
  nth_error t k = Some y -> Permutation (y :: setNth t k x) (x :: t).
Proof.
  revert k. induction t as [| a t IH]; intros [| k]; simpl; try discriminate.
  - intros E. inversion E. subst. apply perm_swap.
  - intros E. specialize (IH k E).
    apply perm_trans with (a :: y :: setNth t k x); [apply perm_swap |].
    apply perm_trans with (a :: x :: t); [now apply perm_skip | apply perm_swap].
Qed.

Lemma swap_Permutation (A : Type) (l : list A) (i j : nat) :
  Permutation (swap l i j) l.
Proof.
  unfold swap.
  destruct (nth_error l i) as [x |] eqn:Ei; [| reflexivity].
  destruct (nth_error l j) as [y |] eqn:Ej; [| reflexivity].
  revert i j Ei Ej. induction l as [| a l IH]; intros [| i] [| j]; simpl;
    try discriminate.
  - intros E1 E2. inversion E1. inversion E2. subst. reflexivity.
  - intros E1 E2. inversion E1. subst. now apply setNth_exchange.
  - intros E1 E2. inversion E2. subst. now apply setNth_exchange.
  - intros E1 E2. apply perm_skip. now apply IH.
Qed.

Lemma shuffleFrom_Permutation (A : Type) (rand : nat -> nat) (i : nat) (l : list A) :
  Permutation (shuffleFrom rand i l) l.
Proof.
  revert l. induction i as [| i IH]; intros l; simpl; [reflexivity |].
  eapply perm_trans; [apply IH | apply swap_Permutation].
Qed.

Lemma NoDup_reset : NoDup reset.
Proof.
  assert (nodup card_eq_dec reset = reset) as E by (vm_compute; reflexivity).
  rewrite <- E. apply NoDup_nodup.
Qed.

Lemma In_reset (c : Card) : In c reset.
Proof.
  destruct c as [r s]. destruct r, s; vm_compute;
    repeat first [left; reflexivity | right].
Qed.

Lemma NoDup_createDeck : NoDup Engine.createDeck.
Proof.
  assert (nodup engine_card_eq_dec Engine.createDeck = Engine.createDeck) as E
      by (vm_compute; reflexivity).
  rewrite <- E. apply NoDup_nodup.
Qed.

Lemma In_createDeck (c : Engine.Card) : In c Engine.createDeck.
Proof.
  destruct c as [s r]. destruct r, s; vm_compute;
    repeat first [left; reflexivity | right].
Qed.

(** X2. Deck.shuffle and Game.shuffleDeck only reorder: whatever the random
    draws are, the shuffled array holds the same cards, each as often as
    before. *)
Theorem shuffle_reorders_the_cards :
  forall (A : Type) (rand : nat -> nat) (cards : list A),
    Permutation (shuffle rand cards) cards
    /\ List.length (shuffle rand cards) = List.length cards.
Proof.
  intros A rand cards. split.
  - unfold shuffle. apply shuffleFrom_Permutation.
  - apply length_shuffle.
Qed.

(** X1. Every deal starts from a full deck. Deck.reset followed by
    Deck.shuffle, and Game.createDeck followed by Game.shuffleDeck, give 52
    cards in which each rank of each suit occurs exactly once, whatever the
    random draws are. *)
Theorem shuffled_deck_has_each_card_once :
  forall rand : nat -> nat,
    (List.length (shuffle rand reset) = 52%nat
     /\ NoDup (shuffle rand reset)
     /\ forall c : CardJs.Card, In c (shuffle rand reset))
    /\ (List.length (shuffle rand Engine.createDeck) = 52%nat
        /\ NoDup (shuffle rand Engine.createDeck)
        /\ forall c : Engine.Card, In c (shuffle rand Engine.createDeck)).
Proof.
  intros rand.
  assert (forall (A : Type) (l : list A), Permutation l (shuffle rand l)) as P.
  { intros A l. apply Permutation_sym. unfold shuffle. apply shuffleFrom_Permutation. }
  split; (split; [rewrite length_shuffle; reflexivity | split]).
  - apply (Permutation_NoDup (P _ reset)). exact NoDup_reset.
  - intros c. apply (Permutation_in c (P _ reset)). apply In_reset.
  - apply (Permutation_NoDup (P _ Engine.createDeck)). exact NoDup_createDeck.
  - intros c. apply (Permutation_in c (P _ Engine.createDeck)). apply In_createDeck.
Qed.

End Deck.

(** ** Sorting a hand *)

Section Sorting.

Lemma suitOrder_inj (a b : Suit) : suitOrder a = suitOrder b -> a = b.
Proof. destruct a, b; simpl; intros E; try reflexivity; discriminate E. Qed.

Lemma compareCards_sortsBefore (a b : Card) :
  compareCards a b <= 0 <-> Spec.sortsBefore a b.
Proof.
  unfold compareCards, Spec.sortsBefore.
  destruct (Z.eqb_spec (suitOrder (suitCode a)) (suitOrder (suitCode b))) as [E | N].
  - pose proof (suitOrder_inj _ _ E). split; [intros; right; split; [assumption | lia] |].
    intros [F | [_ F]]; lia.
  - split; [intros; left; lia |].
    intros [F | [F _]]; [lia |]. rewrite F in N. now contradiction N.
Qed.

Lemma compareCards_antisym (a b : Card) : compareCards b a = - compareCards a b.
Proof.
  unfold compareCards. rewrite (Z.eqb_sym (suitOrder (suitCode b))).
  destruct (_ =? _); lia.
Qed.

Lemma sortsBefore_trans (a b c : Card) :
  Spec.sortsBefore a b -> Spec.sortsBefore b c -> Spec.sortsBefore a c.
Proof.
  unfold Spec.sortsBefore. intros [H1 | [E1 H1]] [H2 | [E2 H2]].
  - left. lia.
  - left. rewrite <- E2. exact H1.
  - left. rewrite E1. exact H2.
  - right. split; [congruence | lia].
Qed.

Lemma insertCard_Permutation (c : Card) (l : list Card) :
  Permutation (insertCard c l) (c :: l).
Proof.
  induction l as [| x l IH]; simpl; [reflexivity |].
  destruct (_ <? _); [reflexivity |].
  apply perm_trans with (x :: c :: l); [now apply perm_skip | apply perm_swap].
Qed.

Lemma insertCard_sorted (c : Card) (l : list Card) :
  StronglySorted Spec.sortsBefore l -> StronglySorted Spec.sortsBefore (insertCard c l).
Proof.
  induction 1 as [| x l Hs IH Hall]; simpl.
  - constructor; constructor.
  - destruct (Z.ltb_spec (compareCards c x) 0) as [Hlt | Hge].
    + assert (Spec.sortsBefore c x) as Hcx by (apply compareCards_sortsBefore; lia).
      constructor; [constructor; assumption |].
      constructor; [exact Hcx |].
      eapply Forall_impl; [| exact Hall]. intros z Hz.
      eapply sortsBefore_trans; eassumption.
    + constructor; [exact IH |].
      apply (Permutation_Forall (Permutation_sym (insertCard_Permutation c l))).
      constructor; [| exact Hall].
      apply compareCards_sortsBefore. rewrite compareCards_antisym. lia.
Qed.

Lemma sortCards_from (l acc : list Card) :
  StronglySorted Spec.sortsBefore acc ->
  Permutation (fold_left (fun a c => insertCard c a) l acc) (l ++ acc)
  /\ StronglySorted Spec.sortsBefore (fold_left (fun a c => insertCard c a) l acc).
Proof.
  revert acc. induction l as [| x l IH]; intros acc Hacc; simpl; [auto |].
  destruct (IH (insertCard x acc) (insertCard_sorted x Hacc)) as [P S].
  split; [| exact S].
  eapply perm_trans; [exact P |].
  eapply perm_trans; [apply Permutation_app_head; apply insertCard_Permutation |].
  apply Permutation_sym. apply Permutation_middle.
Qed.

Lemma sortCards_Permutation (l : list Card) : Permutation (sortCards l) l.
Proof.
  destruct (sortCards_from l (SSorted_nil _)) as [P _].
  unfold sortCards. now rewrite app_nil_r in P.
Qed.

Lemma sortCards_sorted (l : list Card) : StronglySorted Spec.sortsBefore (sortCards l).
Proof. apply (sortCards_from l (SSorted_nil _)). Qed.

(** A card that no card of the list may follow goes to the end: equal
    cards keep the order they came in. *)
Lemma insertCard_last (c : Card) (l : list Card) :
  Forall (fun y => Spec.sortsBefore y c) l -> insertCard c l = l ++ [c].
Proof.
  induction 1 as [| y l Hy Hall IH]; simpl; [reflexivity |].
  apply compareCards_sortsBefore in Hy. rewrite compareCards_antisym in Hy.
  destruct (Z.ltb_spec (compareCards c y) 0) as [Hlt | Hge]; [lia |].
  now rewrite IH.
Qed.

Lemma sorted_app_last (acc l : list Card) (x : Card) :
  StronglySorted Spec.sortsBefore (acc ++ x :: l) ->
  Forall (fun y => Spec.sortsBefore y x) acc.
Proof.
  induction acc as [| a acc IH]; simpl; intros S; [constructor |].
  inversion S as [| ? ? S' Hall]; subst. constructor; [| now apply IH].
  rewrite Forall_forall in Hall. apply Hall. apply in_or_app. right. now left.
Qed.

Lemma sortCards_sorted_from (l acc : list Card) :
  StronglySorted Spec.sortsBefore (acc ++ l) ->
  fold_left (fun a c => insertCard c a) l acc = acc ++ l.
Proof.
  revert acc. induction l as [| x l IH]; intros acc S; simpl.
  - now rewrite app_nil_r.
  - rewrite (insertCard_last (sorted_app_last _ _ _ S)).
    rewrite IH; rewrite <- app_assoc; [reflexivity | exact S].
Qed.

Lemma sortCards_fixes_sorted (l : list Card) :
  StronglySorted Spec.sortsBefore l -> sortCards l = l.
Proof. intros S. unfold sortCards. now rewrite sortCards_sorted_from. Qed.

(** X3. Player.sortHand keeps the cards of the hand and puts them in order:
    spades first, then hearts, diamonds and clubs, and within a suit the
    higher card first. It changes nothing else of the player, and a hand
    that is in order already stays as it is, so sorting twice is sorting
    once. *)
Theorem sortHand_orders_the_hand :
  forall (B : Type) (p : Player B),
    Permutation (hand (sortHand p)) (hand p)
    /\ StronglySorted Spec.sortsBefore (hand (sortHand p))
    /\ setHand (sortHand p) (hand p) = p
    /\ sortHand (sortHand p) = sortHand p.
Proof.
  intros B p. split; [| split; [| split]].
  - apply sortCards_Permutation.
  - apply sortCards_sorted.
  - destruct p. reflexivity.
  - unfold sortHand. cbn [hand setHand].
    rewrite (sortCards_fixes_sorted (sortCards_sorted (hand p))).
    reflexivity.
Qed.

End Sorting.

(** ** Finding a card of the hand from its code *)

Section HandLookup.

Lemma upperChar_idem (c : ascii) : JS.upperChar (JS.upperChar c) = JS.upperChar c.
Proof. destruct c as [[] [] [] [] [] [] [] []]; reflexivity. Qed.

Lemma toUpperCase_idem (s : string) :
  JS.toUpperCase (JS.toUpperCase s) = JS.toUpperCase s.
Proof.
  induction s as [| c s IH]; simpl; [reflexivity |].
  now rewrite upperChar_idem, IH.
Qed.

(** A card's code has no lower-case letter. *)
Lemma code_upper (c : Card) : JS.toUpperCase (code c) = code c.
Proof. destruct c as [[] []]; reflexivity. Qed.

Lemma code_inj (a b : Card) : code a = code b -> a = b.
Proof.
  assert (NoDup (map code reset)) as ND.
  { assert (nodup string_dec (map code reset) = map code reset) as E
        by (vm_compute; reflexivity).
    rewrite <- E. apply NoDup_nodup. }
  intros E. exact (NoDup_map_eq code reset a b ND (In_reset a) (In_reset b) E).
Qed.

Lemma find_ext_in (A : Type) (f g : A -> bool) (l : list A) :
  (forall a, f a = g a) -> find f l = find g l.
Proof.
  intros E. induction l as [| x l IH]; simpl; [reflexivity |].
  rewrite E, IH. reflexivity.
Qed.

(** The lookup of [peekCardInHand] is a lookup by code. *)
Lemma peekCardInHand_by_code (B : Type) (p : Player B) (raw : string) :
  Manager.peekCardInHand p raw
  = find (fun c => String.eqb (code c) (JS.toUpperCase (JS.trim raw))) (hand p).
Proof.
  unfold Manager.peekCardInHand. apply find_ext_in.
  intros c. now rewrite code_upper.
Qed.

Lemma find_by_code (uc : string) (h : list Card) (c : Card) :
  find (fun x => String.eqb (code x) uc) h = Some c <-> In c h /\ code c = uc.
Proof.
  split.
  - intros E. apply find_some in E. destruct E as [Hin E].
    apply String.eqb_eq in E. auto.
  - intros [Hin E].
    destruct (find (fun x => String.eqb (code x) uc) h) as [c0 |] eqn:F.
    + apply find_some in F. destruct F as [_ F]. apply String.eqb_eq in F.
      f_equal. apply code_inj. congruence.
    + pose proof (find_none _ _ F c Hin) as N. cbv beta in N.
      rewrite E, String.eqb_refl in N. discriminate N.
Qed.

(** [removeByCode] takes out the card [find] finds, and keeps the other
    cards in their order. *)
Lemma removeByCode_find (uc : string) (h : list Card) :
  match find (fun x => String.eqb (code x) uc) h, removeByCode uc h with
  | Some c, Some (c', h') =>
      c' = c /\ exists l1 l2, h = l1 ++ c :: l2 /\ h' = l1 ++ l2 /\ ~ In c l1
  | None, None => True
  | _, _ => False
  end.
Proof.
  induction h as [| x h IH]; simpl; [exact I |].
  destruct (String.eqb (code x) uc) eqn:E.
  - split; [reflexivity |]. exists [], h. simpl. auto.
  - destruct (find _ h) as [c |] eqn:F; destruct (removeByCode uc h) as [[c' h'] |];
      try contradiction; [| exact I].
    destruct IH as [-> (l1 & l2 & -> & -> & Hnot)]. split; [reflexivity |].
    exists (x :: l1), l2. simpl. split; [reflexivity | split; [reflexivity |]].
    intros [-> | Hin]; [| now apply Hnot].
    apply find_some in F. destruct F as [_ F]. rewrite F in E. discriminate E.
Qed.


(** X5. Player.playCard takes out of the hand the card Player.getCard finds for
    the same text, the first card whose code is the upper-cased text, and
    returns it; the other cards stay in their order and nothing else of
    the player changes. It returns null, and leaves the hand alone, exactly
    when getCard finds nothing. *)
Theorem playCard_takes_the_card_getCard_finds :
  forall (B : Type) (p : Player B) (cardCode : string),
    match getCard p cardCode, playCard p cardCode with
    | Some c, Some (c', p') =>
        c' = c
        /\ code c = JS.toUpperCase cardCode
        /\ (exists l1 l2, hand p = l1 ++ c :: l2 /\ hand p' = l1 ++ l2 /\ ~ In c l1)
        /\ setHand p' (hand p) = p
    | None, None => True
    | _, _ => False
    end.
Proof.
  intros B p cardCode. unfold getCard, playCard.
  pose proof (removeByCode_find (JS.toUpperCase cardCode) (hand p)) as R.
  destruct (find _ (hand p)) as [c |] eqn:F;
    destruct (removeByCode _ (hand p)) as [[c' h'] |]; try contradiction; [| exact I].
  destruct R as [-> R]. split; [reflexivity |].
  apply find_by_code in F. destruct F as [_ F].
  split; [exact F |]. split; [exact R |].
  destruct p. reflexivity.
Qed.

(** What [processCardPlay] passes to [playCard] finds the card
    [peekCardInHand] found. *)
Lemma playCard_after_peek (B : Type) (p : Player B) (raw : string) (c : Card) :
  Manager.peekCardInHand p raw = Some c ->
  exists h', removeByCode (JS.toUpperCase (JS.toUpperCase (JS.trim raw))) (hand p)
             = Some (c, h')
             /\ exists l1 l2, hand p = l1 ++ c :: l2 /\ h' = l1 ++ l2.
Proof.
  rewrite peekCardInHand_by_code, toUpperCase_idem. intros F.
  pose proof (removeByCode_find (JS.toUpperCase (JS.trim raw)) (hand p)) as R.
  rewrite F in R.
  destruct (removeByCode _ (hand p)) as [[c' h'] |]; [| contradiction].
  destruct R as [-> (l1 & l2 & E1 & E2 & _)]. exists h'. split; [reflexivity |].
  exists l1, l2. auto.
Qed.

Lemma playValidated_not_internal (rand : nat -> nat) (g : Manager.GameManager Z)
      (p : Player Z) (pid raw : string) (c : Card) :
  Manager.peekCardInHand p raw = Some c ->
  match fst (Manager.playValidated rand g p pid raw) with
  | Manager.CardPlayed | Manager.PlayThrew
  | Manager.TrickWon _ | Manager.RoundOver _ _ => True
  | _ => False
  end.
Proof.
  intros Hpeek. destruct (playCard_after_peek p raw Hpeek) as (h' & E & _).
  unfold Manager.playValidated, playCard. rewrite E. cbv zeta.
  destruct (_ =? _)%nat; [| exact I].
  unfold Manager.evaluateTrick.
  destruct (Manager.getWinnerOfTrick _); [| exact I].
  match goal with
  | |- context [Manager.endTrick ?r ?g0 ?w] =>
      pose proof (endTrick_result r g0 w) as R;
      destruct (fst (Manager.endTrick r g0 w)); try exact I; try contradiction
  end.
Qed.

(** X6. The defensive branch of GameManager.processCardPlay is dead code: once
    peekCardInHand has found the card, playCard finds it too, so no call
    ends on the internal error 'Could not remove card from hand after
    validation'. *)
Theorem processCardPlay_never_reports_internal_error :
  forall (rand : nat -> nat) (g : Manager.GameManager Z) (pid raw : string),
    match fst (Manager.processCardPlay rand g pid raw) with
    | Manager.InternalError => False
    | _ => True
    end.
Proof.
  intros rand g pid raw. unfold Manager.processCardPlay.
  destruct (negb (Manager.isTrickActive g)); [exact I |].
  destruct (Manager.getPlayerById g pid) as [p |]; [| exact I].
  destruct (nth_error _ _) as [cur |]; [| exact I].
  destruct (negb _); [exact I |].
  destruct (Manager.peekCardInHand p raw) as [c |] eqn:Hpeek; [| exact I].
  destruct (Manager.currentTrick g).
  - destruct (_ && _); [exact I |].
    pose proof (@playValidated_not_internal rand
                  (Manager.setTrickSuit g (Some (suitCode c))) p pid raw c Hpeek) as R.
    destruct (fst _); try exact I; contradiction.
  - destruct (_ && _); [exact I |].
    pose proof (@playValidated_not_internal rand g p pid raw c Hpeek) as R.
    destruct (fst _); try exact I; contradiction.
Qed.

End HandLookup.

(** ** Playing a card *)

Section Plays.





End Plays.

(** ** What a play changes *)

Section Moves.

Local Open Scope nat_scope.







Lemma better_isSpade (s : Suit) (w c : Engine.Play) :
  Engine.isSpade (Engine.card (Engine.better s w c))
  = Engine.isSpade (Engine.card w) || Engine.isSpade (Engine.card c).
Proof.
  destruct w as [wi [ws wr]], c as [ci [cs cr]].
  unfold Engine.better, Engine.isSpade. simpl.
  destruct ws, cs, s; simpl; try reflexivity;
    destruct (_ <? _)%Z; reflexivity.
Qed.

(** X9. Game.determineTrickWinner marks spades broken exactly when the complete
    trick holds a spade (the winning card is then a spade), whoever played
    it and whatever was led; it changes nothing else of the game, and on a
    trick that is not complete it answers no winner and changes
    nothing. *)
Theorem engine_trick_breaks_spades_iff_it_holds_a_spade :
  forall g : Engine.Game,
    (List.length (Engine.trick g) = 4 ->
     Engine.spadesBroken (snd (Engine.determineTrickWinner g))
     = Engine.spadesBroken g
       || existsb (fun p => Engine.isSpade (Engine.card p)) (Engine.trick g)
     /\ Engine.setSpadesBroken (snd (Engine.determineTrickWinner g))
                               (Engine.spadesBroken g) = g)
    /\ (List.length (Engine.trick g) <> 4 -> Engine.determineTrickWinner g = (None, g)).
Proof.
  intros g. unfold Engine.determineTrickWinner. split.
  - intros L.
    destruct (Engine.trick g) as [| p0 [| p1 [| p2 [| p3 [| p4 l]]]]]; try discriminate L.
    cbn [fold_left snd existsb]. rewrite !better_isSpade, orb_false_r.
    rewrite <- !orb_assoc.
    destruct (_ || _); destruct g; cbn; split; try reflexivity;
      destruct spadesBroken; reflexivity.
  - intros L.
    destruct (Engine.trick g) as [| p0 [| p1 [| p2 [| p3 [| p4 l]]]]]; try reflexivity.
    now contradiction L.
Qed.

Lemma engine_trick_breaks_spades_witness :
  Engine.spadesBroken (snd (Engine.determineTrickWinner Spec.exampleEngine)) = true
  /\ Engine.determineTrickWinner Spec.engineFollowState = (None, Spec.engineFollowState).
Proof.
  split.
  - exact (proj1 (proj1 (engine_trick_breaks_spades_iff_it_holds_a_spade Spec.exampleEngine)
                        eq_refl)).
  - apply (proj2 (engine_trick_breaks_spades_iff_it_holds_a_spade Spec.engineFollowState)).
    discriminate.
Defined.

End Moves.

(** ** Accepted and refused plays *)

Section Accepted.

Local Open Scope nat_scope.




End Accepted.

Section Refused.

Lemma Forall2_same_or_sorted_refl (l : list (Player Z)) :
  Forall2 (fun p p' => p' = p \/ p' = sortHand p) l l.
Proof. induction l; constructor; auto. Qed.

Lemma Forall2_updateFirst_sortHand (q : Player Z -> bool) (l : list (Player Z)) :
  Forall2 (fun p p' => p' = p \/ p' = sortHand p) l (Manager.updateFirst q sortHand l).
Proof.
  induction l as [| x l IH]; simpl; [constructor |].
  destruct (q x); constructor; auto. apply Forall2_same_or_sorted_refl.
Qed.

Lemma setPlayers_same (g : Manager.GameManager Z) :
  Manager.setPlayers g (Manager.players g) = g.
Proof. destruct g. reflexivity. Qed.

(** X11. A call GameManager turns down changes nothing. A refused bid leaves
    the game as it was. A refused play (trick play not active, unknown
    player, not the player's turn, no such card in the hand, spades not
    broken, suit not followed) leaves it as it was too, except that after
    'Invalid card code' the hand of the first player with that id has been
    sorted, a side effect of printing it in the answer. *)
Theorem refused_calls_leave_the_game_as_it_was :
  forall (rand : nat -> nat) (g : Manager.GameManager Z) (pid raw : string),
    (Manager.bidReturn (fst (Manager.processBid g pid raw)) = false ->
     snd (Manager.processBid g pid raw) = g)
    /\ (Spec.refused (fst (Manager.processCardPlay rand g pid raw)) = true ->
        (match fst (Manager.processCardPlay rand g pid raw) with
         | Manager.InvalidCard =>
             snd (Manager.processCardPlay rand g pid raw)
             = Manager.setPlayers g (Manager.updateFirst (Manager.hasId pid) sortHand
                                                         (Manager.players g))
         | _ => snd (Manager.processCardPlay rand g pid raw) = g
         end)
        /\ Manager.setPlayers (snd (Manager.processCardPlay rand g pid raw))
                              (Manager.players g) = g
        /\ Forall2 (fun p p' => p' = p \/ p' = sortHand p)
                   (Manager.players g)
                   (Manager.players (snd (Manager.processCardPlay rand g pid raw)))).
Proof.
  intros rand g pid raw. split.
  - unfold Manager.processBid.
    destruct (negb _); [reflexivity |].
    destruct (nth_error _ _); [| reflexivity].
    destruct (negb _); [reflexivity |].
    destruct (Manager.validateBid raw); [discriminate | reflexivity].
  - assert (forall g0 p c, Manager.peekCardInHand p raw = Some c ->
              Spec.refused (fst (Manager.playValidated rand g0 p pid raw)) = false) as PV.
    { intros g0 p c Hpeek.
      pose proof (@playValidated_not_internal rand g0 p pid raw c Hpeek) as R.
      destruct (fst _); try reflexivity; contradiction. }
    pose proof (setPlayers_same g) as S.
    pose proof (Forall2_same_or_sorted_refl (Manager.players g)) as F.
    unfold Manager.processCardPlay.
    destruct (negb (Manager.isTrickActive g)); [cbn; auto |].
    destruct (Manager.getPlayerById g pid) as [p |]; [| cbn; auto].
    destruct (nth_error _ _) as [cur |]; [| discriminate].
    destruct (negb _); [cbn; auto |].
    destruct (Manager.peekCardInHand p raw) as [c |] eqn:Hpeek.
    + destruct (Manager.currentTrick g).
      * destruct (_ && _); [cbn; auto |].
        rewrite (PV _ p c Hpeek). discriminate.
      * destruct (_ && _); [cbn; auto |].
        rewrite (PV _ p c Hpeek). discriminate.
    + intros _. cbn [fst snd Manager.players Manager.setPlayers].
      split; [reflexivity |]. split; [| apply Forall2_updateFirst_sortHand].
      destruct g. reflexivity.
Qed.

(** East bids out of turn at the table of four, and north types AS with
    the ace of spades in hand. *)
Lemma refused_calls_witness :
  snd (Manager.processBid Spec.dealt "east" "3") = Spec.dealt
  /\ Manager.setPlayers (snd (Manager.processCardPlay Spec.draws Spec.leadState "north" "AS"))
                        (Manager.players Spec.leadState) = Spec.leadState.
Proof.
  split.
  - apply (proj1 (refused_calls_leave_the_game_as_it_was Spec.draws Spec.dealt "east" "3")).
    vm_compute. reflexivity.
  - apply (proj2 (refused_calls_leave_the_game_as_it_was
                    Spec.draws Spec.leadState "north" "AS")).
    reflexivity.
Defined.

End Refused.

(** ** Bidding *)

Section Bidding.

Local Open Scope nat_scope.

Lemma nth_error_updateNth_other (A : Type) (f : A -> A) (l : list A) (i m : nat) :
  m <> i -> nth_error (Manager.updateNth i f l) m = nth_error l m.
Proof.
  revert i m. induction l as [| x l IH]; intros [| i] [| m] N; simpl; auto;
    try (now contradiction N); try (apply IH; lia).
Qed.

Lemma updateNth_twice (A : Type) (f h : A -> A) (l : list A) (i : nat) :
  Manager.updateNth i h (Manager.updateNth i f l) = Manager.updateNth i (fun a => h (f a)) l.
Proof.
  revert i. induction l as [| x l IH]; intros [| i]; simpl; auto.
  now rewrite IH.
Qed.

(** What an accepted bid does to the state, whichever entry point took
    it. *)
Lemma recordBid_effect (B : Type) `{BidValue B} (g : Manager.GameManager B) (b : B) :
  let n := List.length (Manager.players g) in
  let i := Manager.currentPlayerIndex g in
  let g' := Manager.recordBid g b in
  (exists F, Manager.players g' = Manager.updateNth i F (Manager.players g)
             /\ forall p, bid (F p) = Some b /\ isNil (F p) = strictEqZero b
                          /\ Permutation (hand (F p)) (hand p))
  /\ Manager.bidsTaken g' = S (Manager.bidsTaken g)
  /\ (S (Manager.bidsTaken g) < n ->
      Manager.isBiddingActive g' = Manager.isBiddingActive g
      /\ Manager.isTrickActive g' = Manager.isTrickActive g
      /\ Manager.currentPlayerIndex g' = (i + 1) mod n)
  /\ (n <= S (Manager.bidsTaken g) ->
      Manager.isBiddingActive g' = false
      /\ Manager.isTrickActive g' = true
      /\ Manager.currentPlayerIndex g' = i
      /\ Manager.currentTrick g' = [] /\ Manager.trickSuit g' = None).
Proof.
  intros n i g'. subst n i g'. unfold Manager.recordBid. cbv zeta.
  cbn [Manager.bidsTaken Manager.players Manager.setBidsTaken Manager.setPlayers].
  rewrite length_updateNth.
  destruct (Nat.ltb_spec (S (Manager.bidsTaken g)) (List.length (Manager.players g)))
    as [Hlt | Hge].
  - cbn. rewrite length_updateNth.
    split; [| split; [reflexivity | split; [auto | intros; lia]]].
    exists (fun p => setBid p b). split; [reflexivity |].
    intros p. cbn. auto.
  - cbn. rewrite updateNth_twice.
    split; [| split; [reflexivity | split; [intros; lia | auto 6]]].
    exists (fun p => sortHand (setBid p b)). split; [reflexivity |].
    intros p. cbn. split; [reflexivity | split; [reflexivity |]].
    apply sortCards_Permutation.
Qed.

Lemma validateBid_range (raw : string) (parsed : Manager.ParsedBid) :
  Manager.validateBid raw = Some parsed ->
  let b := match parsed with Manager.NIL => 0%Z | Manager.Num n => n end in
  (0 <= b <= 13)%Z /\ (b = 0%Z <-> JS.toUpperCase (JS.trim raw) = "NIL").
Proof.
  unfold Manager.validateBid. cbv zeta.
  destruct (String.eqb_spec (JS.toUpperCase (JS.trim raw)) "NIL") as [E | N].
  - intros Hv. inversion Hv. subst. split; [lia | tauto].
  - destruct (JS.parseInt _) as [num |]; [| discriminate].
    destruct (Z.leb_spec 1 num) as [H1 | H1]; cbn [andb]; [| discriminate].
    destruct (Z.leb_spec num 13) as [H13 | H13]; [| discriminate].
    intros Hv. inversion Hv. subst. split; [lia |]. split; [lia | contradiction].
Qed.



(** The seats reached by counting on from seat [i0] cover the table. *)
Lemma seat_reached (n i0 m : nat) :
  i0 < n -> m < n -> exists j, j < n /\ (i0 + j) mod n = m.
Proof.
  intros Hi Hm. destruct (Nat.le_gt_cases i0 m) as [Hle | Hgt].
  - exists (m - i0). split; [lia |].
    replace (i0 + (m - i0)) with m by lia. now apply Nat.mod_small.
  - exists (m + n - i0). split; [lia |].
    replace (i0 + (m + n - i0)) with (m + 1 * n) by lia.
    rewrite Nat.Div0.mod_add. now apply Nat.mod_small.
Qed.

(** The invariant of a bidding round that started at seat [i0] at a table
    of [n], with [k] bids taken. *)
Lemma bidAll_invariant (g : Manager.GameManager Z) (calls : list (string * string)) :
  Manager.currentPlayerIndex g < List.length (Manager.players g) ->
  let n := List.length (Manager.players g) in
  let i0 := Manager.currentPlayerIndex g in
  let g' := Spec.bidAll (Manager.startBidding g) calls in
  List.length (Manager.players g') = n
  /\ Manager.bidsTaken g' <= n
  /\ (forall j, j < Manager.bidsTaken g' ->
        exists p, nth_error (Manager.players g') ((i0 + j) mod n) = Some p
                  /\ Spec.hasValidBid p)
  /\ (Manager.isBiddingActive g' = true ->
      Manager.bidsTaken g' < n
      /\ Manager.currentPlayerIndex g' = (i0 + Manager.bidsTaken g') mod n
      /\ Manager.isTrickActive g' = Manager.isTrickActive g)
  /\ (Manager.isBiddingActive g' = false ->
      Manager.bidsTaken g' = n
      /\ Manager.isTrickActive g' = true
      /\ Manager.currentPlayerIndex g' = (i0 + (n - 1)) mod n).
Proof.
  intros Hi n i0. cbv zeta.
  induction calls as [| call calls IH] using rev_ind.
  - unfold Spec.bidAll, Manager.startBidding. cbn.
    split; [reflexivity | split; [lia | split; [intros j Hj; lia | split]]].
    + intros _. split; [fold n; lia |]. split; [| reflexivity].
      rewrite Nat.add_0_r. symmetry. now apply Nat.mod_small.
    + discriminate.
  - unfold Spec.bidAll in *. rewrite fold_left_app. cbn [fold_left].
    set (g1 := fold_left _ calls (Manager.startBidding g)) in *.
    unfold Manager.processBid.
    remember (Manager.isBiddingActive g1) as act eqn:Hact in |- *.
    symmetry in Hact. destruct act; cbn [negb snd]; [| exact IH].
    destruct (nth_error _ _) as [cur |] eqn:Hcur; [| exact IH].
    destruct (negb _); [exact IH |].
    destruct (Manager.validateBid (snd call)) as [parsed |] eqn:Hv; [| exact IH].
    destruct IH as (L & K & Hbids & Hopen & Hclosed).
    destruct (Hopen Hact) as (Hk & Hidx & Htr).
    cbn [snd].
    destruct (validateBid_range (snd call) Hv) as [Hr _].
    set (b := match parsed with Manager.NIL => 0%Z | Manager.Num n0 => n0 end) in *.
    destruct (recordBid_effect g1 b) as ((F & HF & HFp) & Hbt & Hmore & Hlast).
    fold n in L, K, Hk. rewrite L in Hmore, Hlast. fold n in Hmore, Hlast.
    set (g2 := Manager.recordBid g1 b) in *.
    assert (List.length (Manager.players g2) = n) as L2
        by (rewrite HF, length_updateNth; exact L).
    split; [exact L2 |]. rewrite Hbt.
    split; [lia |]. split; [| split].
    + intros j Hj. rewrite HF.
      destruct (Nat.eq_dec ((i0 + j) mod n) (Manager.currentPlayerIndex g1)) as [E | N].
      * rewrite E, (nth_error_updateNth F _ _ Hcur).
        exists (F cur). split; [reflexivity |].
        exists b. split; [apply HFp | exact Hr].
      * rewrite nth_error_updateNth_other by exact N.
        apply Hbids. assert (j <> Manager.bidsTaken g1) by (intros ->; now apply N).
        lia.
    + intros Hopen2.
      destruct (Nat.lt_ge_cases (S (Manager.bidsTaken g1)) n) as [Hlt | Hge].
      * destruct (Hmore Hlt) as (_ & T & I). split; [exact Hlt |].
        split; [| congruence].
        rewrite I, Hidx, Nat.Div0.add_mod_idemp_l. f_equal. lia.
      * destruct (Hlast Hge) as (A & _). rewrite A in Hopen2. discriminate.
    + intros Hclosed2.
      destruct (Nat.lt_ge_cases (S (Manager.bidsTaken g1)) n) as [Hlt | Hge].
      * destruct (Hmore Hlt) as (A & _). rewrite A, Hact in Hclosed2. discriminate.
      * destruct (Hlast Hge) as (_ & T & I & _).
        split; [lia |]. split; [exact T |].
        rewrite I, Hidx. f_equal. lia.
Qed.

(** X13. Bidding in GameManager runs once round the table. From startBidding
    on, whatever calls to processBid follow, accepted or not: while bidding
    is open fewer bids are taken than there are seats and the turn is with
    the seat that many places after the first bidder; bidding is closed
    exactly when every seat has bid, each player then holds a bid of 0 to
    13, trick play is on, and the turn is still with the last bidder. *)
Theorem bidding_closes_when_every_seat_has_bid :
  forall (g : Manager.GameManager Z) (calls : list (string * string)),
    Manager.currentPlayerIndex g < List.length (Manager.players g) ->
    let n := List.length (Manager.players g) in
    let g' := Spec.bidAll (Manager.startBidding g) calls in
    List.length (Manager.players g') = n
    /\ (Manager.isBiddingActive g' = true ->
        Manager.bidsTaken g' < n
        /\ Manager.currentPlayerIndex g'
           = (Manager.currentPlayerIndex g + Manager.bidsTaken g') mod n
        /\ Manager.isTrickActive g' = Manager.isTrickActive g)
    /\ (Manager.isBiddingActive g' = false ->
        Manager.bidsTaken g' = n
        /\ Forall Spec.hasValidBid (Manager.players g')
        /\ Manager.isTrickActive g' = true
        /\ Manager.currentPlayerIndex g' = (Manager.currentPlayerIndex g + (n - 1)) mod n).
Proof.
  intros g calls Hi. cbv zeta.
  destruct (bidAll_invariant g calls Hi) as (L & K & Hbids & Hopen & Hclosed).
  split; [exact L |]. split; [exact Hopen |].
  intros Hc. destruct (Hclosed Hc) as (E & T & I).
  split; [exact E |]. split; [| auto].
  apply Forall_forall. intros p Hin.
  apply In_nth_error in Hin. destruct Hin as (m & Hm).
  assert (m < List.length (Manager.players g)) as Hmn.
  { rewrite <- L. apply nth_error_Some. rewrite Hm. discriminate. }
  destruct (seat_reached Hi Hmn) as (j & Hj & Ej).
  destruct (Hbids j) as (p' & Hp' & V); [lia |].
  rewrite Ej, Hm in Hp'. inversion Hp'. subst. exact V.
Qed.

(** The table of four: east is turned down when bidding out of turn, a
    bid of 14 is turned down, and after the four bids bidding is closed
    with a bid on every seat. *)
Lemma bidding_closes_witness :
  Manager.isBiddingActive
    (Spec.bidAll (Manager.startBidding Spec.dealt)
       [("east", "3"); ("north", "14"); ("north", "3"); ("east", "nil");
        ("south", "4"); ("west", "3"); ("north", "5")]) = false
  /\ Forall Spec.hasValidBid
       (Manager.players
          (Spec.bidAll (Manager.startBidding Spec.dealt)
             [("east", "3"); ("north", "14"); ("north", "3"); ("east", "nil");
              ("south", "4"); ("west", "3"); ("north", "5")])).
Proof.
  split; [vm_compute; reflexivity |].
  refine (proj1 (proj2 (proj2 (proj2
    (bidding_closes_when_every_seat_has_bid Spec.dealt
       [("east", "3"); ("north", "14"); ("north", "3"); ("east", "nil");
        ("south", "4"); ("west", "3"); ("north", "5")] _)) _))).
  - vm_compute. lia.
  - vm_compute. reflexivity.
Defined.

End Bidding.

(** ** The lobby *)

Section Lobby.

Local Open Scope nat_scope.

Lemma joinAll_seats (g0 : Manager.GameManager Z) (users : list (string * string)) :
  Manager.players g0 = [] ->
  let g := Spec.joinAll g0 users in
  List.length (Manager.players g) = Nat.min 4 (List.length users)
  /\ (forall j, nth_error (Manager.players g) j
                = if j <? 4 then option_map (Spec.seated j) (nth_error users j) else None)
  /\ Manager.setPlayers g [] = Manager.setPlayers g0 [].
Proof.
  intros Hnone. cbv zeta.
  induction users as [| u users IH] using rev_ind.
  - unfold Spec.joinAll. cbn [fold_left]. rewrite Hnone.
    split; [reflexivity |]. split; [| reflexivity].
    intros j. destruct (j <? 4); destruct j; reflexivity.
  - unfold Spec.joinAll in *. rewrite fold_left_app. cbn [fold_left].
    set (g := fold_left _ users g0) in *.
    destruct IH as (L & N & S). rewrite length_app. cbn [List.length].
    unfold Manager.addPlayer.
    destruct (Nat.leb_spec 4 (List.length (Manager.players g))) as [Hfull | Hroom].
    + split; [lia |]. split; [| exact S].
      intros j. rewrite N. destruct (Nat.ltb_spec j 4) as [Hj | Hj]; [| reflexivity].
      rewrite nth_error_app1 by lia. reflexivity.
    + assert (List.length (Manager.players g) = List.length users) as L' by lia.
      cbn [Manager.players Manager.setPlayers]. rewrite length_app. cbn [List.length].
      split; [lia |]. split; [| destruct g; exact S].
      intros j.
      destruct (Nat.lt_trichotomy j (List.length users)) as [Hlt | [Heq | Hgt]].
      * rewrite !nth_error_app1 by lia. apply N.
      * subst j. rewrite <- L' at 1. rewrite !nth_error_app2 by lia.
        rewrite L', Nat.sub_diag. cbn [nth_error].
        destruct (Nat.ltb_spec (List.length users) 4) as [H4 | H4]; [| lia].
        cbn [option_map]. unfold Spec.seated. do 3 f_equal.
        destruct (List.length users) as [| [| [| [| k]]]]; try reflexivity; lia.
      * assert (nth_error (Manager.players g ++ [setTeam (newPlayer (fst u) (snd u))
                  (Some (if (List.length (Manager.players g) mod 2 =? 0)
                         then Team2 else Team1))]) j = None) as ->
            by (apply nth_error_None; rewrite length_app; cbn [List.length]; lia).
        assert (nth_error (users ++ [u]) j = None) as ->
            by (apply nth_error_None; rewrite length_app; cbn [List.length]; lia).
        destruct (j <? 4); reflexivity.
Qed.

(** X14. GameManager seats the first four users who join, in the order they
    join: seat j holds the j-th user, with no cards, no bid, score and bags
    0, on team 2 when j is even and on team 1 when j is odd, so the
    partners sit opposite each other. A join after the fourth is turned
    down and changes nothing; joining changes nothing but the list of
    players. The same user may take more than one seat: the id is not
    compared with those of the players already seated. *)
Theorem lobby_seats_the_first_four_users_in_join_order :
  forall (target : Z) (users : list (string * string)),
    let g := Spec.joinAll (Manager.newGame target) users in
    List.length (Manager.players g) = Nat.min 4 (List.length users)
    /\ (forall j, nth_error (Manager.players g) j
                  = if j <? 4 then option_map (Spec.seated j) (nth_error users j) else None)
    /\ Manager.isLobbyFull g = (4 <=? List.length users)
    /\ Manager.setPlayers g [] = Manager.newGame target.
Proof.
  intros target users.
  destruct (joinAll_seats (Manager.newGame target) users eq_refl) as (L & N & S).
  cbv zeta. split; [exact L |]. split; [exact N |]. split; [| exact S].
  unfold Manager.isLobbyFull. rewrite L.
  destruct (Nat.leb_spec 4 (List.length users)) as [H | H].
  - rewrite Nat.min_l by lia. reflexivity.
  - rewrite Nat.min_r by lia. apply Nat.leb_gt. exact H.
Qed.

End Lobby.

(** ** Dealing *)

Section Dealing.

Local Open Scope nat_scope.

Context {B : Type} `{BidValue B}.

Lemma allHands_addCard (ps : list (Player B)) (j : nat) (c : Card) :
  j < List.length ps ->
  Permutation (Spec.allHands (Manager.updateNth j (fun p => addCard p c) ps))
              (c :: Spec.allHands ps).
Proof.
  revert j. induction ps as [| p ps IH]; intros [| j]; simpl; intros Hj; try lia.
  - unfold Spec.allHands. cbn [flat_map hand addCard].
    rewrite <- app_assoc. cbn [app].
    apply Permutation_sym, Permutation_middle.
  - unfold Spec.allHands in *. cbn [flat_map].
    eapply perm_trans; [apply Permutation_app_head; apply IH; lia |].
    apply Permutation_sym, Permutation_middle.
Qed.

Lemma deal_snoc (A : Type) (d d' : list A) (c : A) :
  deal d = Some (c, d') -> d = d' ++ [c].
Proof.
  unfold deal. destruct (rev d) as [| x r] eqn:E; [discriminate |].
  intros H0. inversion H0. subst.
  apply (f_equal (@rev A)) in E. rewrite rev_involutive in E. exact E.
Qed.

(** Dealing moves cards from the deck to the hands and loses none. *)
Lemma dealLoop_Permutation (n i : nat) (d : list Card) (ps : list (Player B)) :
  ps <> [] ->
  Permutation (Spec.allHands (snd (Manager.dealLoop n i d ps))
               ++ fst (Manager.dealLoop n i d ps))
              (Spec.allHands ps ++ d).
Proof.
  revert i d ps. induction n as [| n IH]; intros i d ps Hps; simpl; [reflexivity |].
  destruct (deal d) as [[c d'] |] eqn:E; simpl; [| reflexivity].
  assert (i mod List.length ps < List.length ps) as Hi.
  { apply Nat.mod_upper_bound. destruct ps; [contradiction | simpl; lia]. }
  eapply perm_trans.
  - apply IH. intros F. apply (f_equal (@List.length _)) in F.
    rewrite length_updateNth in F. destruct ps; [contradiction | discriminate].
  - rewrite (deal_snoc _ E).
    eapply perm_trans; [apply Permutation_app_tail; apply allHands_addCard; exact Hi |].
    cbn [app]. rewrite app_assoc. apply Permutation_cons_append.
Qed.

(** The loop only adds cards to hands. *)
Lemma dealLoop_accounts (F : Type) (proj : Player B -> F)
      (n i : nat) (d : list Card) (ps : list (Player B)) :
  (forall p c, proj (addCard p c) = proj p) ->
  map proj (snd (Manager.dealLoop n i d ps)) = map proj ps.
Proof.
  intros Hp. revert i d ps. induction n as [| n IH]; intros i d ps; simpl; [reflexivity |].
  destruct (deal d) as [[c d'] |]; simpl; [| reflexivity].
  rewrite IH. clear IH. generalize (i mod List.length ps). intros j.
  revert j. induction ps as [| p ps IHps]; intros [| j]; simpl; auto.
  - now rewrite Hp.
  - now rewrite IHps.
Qed.

(** Fifty-two cards round a table of four: thirteen each. *)
Lemma dealLoop_four (d : list Card) (p0 p1 p2 p3 : Player B) :
  List.length d = 52 ->
  fst (Manager.dealLoop 52 0 d (map resetForNewRound [p0; p1; p2; p3])) = []
  /\ map (fun p => List.length (hand p))
         (snd (Manager.dealLoop 52 0 d (map resetForNewRound [p0; p1; p2; p3])))
     = [13; 13; 13; 13].
Proof.
  intros L.
  do 52 (destruct d as [| ? d]; [discriminate L |]).
  destruct d; [| discriminate L].
  vm_compute. split; reflexivity.
Qed.

End Dealing.

Section StartGame.

Local Open Scope nat_scope.

Lemma allHands_sorted (B : Type) (ps : list (Player B)) :
  Permutation (Spec.allHands (map sortHand ps)) (Spec.allHands ps).
Proof.
  unfold Spec.allHands. induction ps as [| p ps IH]; simpl; [reflexivity |].
  apply Permutation_app; [apply sortCards_Permutation | exact IH].
Qed.

Lemma allHands_reset (B : Type) (ps : list (Player B)) :
  Spec.allHands (map resetForNewRound ps) = [].
Proof. unfold Spec.allHands. induction ps as [| p ps IH]; simpl; auto. Qed.

(** A deal from a deck of 52 cards at a table of four. *)
Lemma dealCards_four (B : Type) `{BidValue B} (g : Manager.GameManager B) :
  List.length (Manager.players g) = 4 ->
  List.length (Manager.deck g) = 52 ->
  let g' := Manager.dealCards g in
  map (fun p => List.length (hand p)) (Manager.players g') = [13; 13; 13; 13]
  /\ Manager.deck g' = []
  /\ Permutation (Spec.allHands (Manager.players g')) (Manager.deck g)
  /\ Forall (fun p => StronglySorted Spec.sortsBefore (hand p)) (Manager.players g').
Proof.
  intros L4 L52. cbv zeta. unfold Manager.dealCards.
  destruct (Manager.players g) as [| p0 [| p1 [| p2 [| p3 [| p4 l]]]]] eqn:Eps;
    try discriminate L4.
  destruct (dealLoop_four (Manager.deck g) p0 p1 p2 p3 L52) as [D1 D2].
  pose proof (dealLoop_Permutation 52 0 (Manager.deck g)
                (ps := map resetForNewRound [p0; p1; p2; p3])) as P.
  destruct (Manager.dealLoop 52 0 (Manager.deck g) (map resetForNewRound [p0; p1; p2; p3]))
    as [d ps].
  cbn [fst snd] in D1, D2, P.
  cbn [Manager.players Manager.deck Manager.setPlayers Manager.setDeck].
  subst d. rewrite app_nil_r, allHands_reset in P. cbn [app] in P.
  split; [| split; [reflexivity | split]].
  - rewrite map_map. rewrite <- D2. apply map_ext. intros p. apply length_sortCards.
  - eapply perm_trans; [apply allHands_sorted | apply P; discriminate].
  - apply Forall_forall. intros p Hin. apply in_map_iff in Hin.
    destruct Hin as (q & <- & _). apply sortCards_sorted.
Qed.

(** X15. GameManager.startGame at a table of four deals the whole deck: every
    player holds thirteen cards, sorted; the deck is empty; the four hands
    together are the 52 cards of the deck, so no card is in two hands; the
    game is active and bidding is open with no bid taken, the turn where
    it was. At a table that does not have exactly four players startGame
    changes nothing. *)
Theorem startGame_deals_the_whole_deck_to_four :
  forall (rand : nat -> nat) (g : Manager.GameManager Z),
    (List.length (Manager.players g) = 4 ->
     let g' := Manager.startGame rand g in
     map (fun p => List.length (hand p)) (Manager.players g') = [13; 13; 13; 13]
     /\ Manager.deck g' = []
     /\ Permutation (Spec.allHands (Manager.players g')) reset
     /\ NoDup (Spec.allHands (Manager.players g'))
     /\ Forall (fun p => StronglySorted Spec.sortsBefore (hand p)) (Manager.players g')
     /\ Manager.isGameActive g' = true
     /\ Manager.isBiddingActive g' = true
     /\ Manager.state g' = Manager.BIDDING
     /\ Manager.bidsTaken g' = 0
     /\ Manager.currentPlayerIndex g' = Manager.currentPlayerIndex g)
    /\ (List.length (Manager.players g) <> 4 -> Manager.startGame rand g = g).
Proof.
  intros rand g. unfold Manager.startGame. split.
  - intros L4. rewrite L4. cbn [Nat.eqb negb]. cbv zeta.
    set (g0 := Manager.setDeck (Manager.setGameActive g true) (shuffle rand reset)).
    assert (List.length (Manager.deck g0) = 52) as L52
        by (subst g0; cbn [Manager.deck Manager.setDeck]; rewrite length_shuffle;
            reflexivity).
    destruct (dealCards_four g0 L4 L52) as (C & D & P & S).
    assert (Manager.isGameActive (Manager.dealCards g0) = true
            /\ Manager.currentPlayerIndex (Manager.dealCards g0)
               = Manager.currentPlayerIndex g) as [A I].
    { unfold Manager.dealCards. destruct (Manager.dealLoop _ _ _ _). cbn. auto. }
    assert (Permutation (Spec.allHands (Manager.players (Manager.dealCards g0))) reset) as P'.
    { eapply perm_trans; [exact P |]. subst g0. cbn [Manager.deck Manager.setDeck].
      apply shuffleFrom_Permutation. }
    remember (Manager.dealCards g0) as g1 eqn:E. clear E.
    unfold Manager.startBidding.
    cbn [Manager.players Manager.deck Manager.isGameActive Manager.isBiddingActive
         Manager.state Manager.bidsTaken Manager.currentPlayerIndex
         Manager.setBidsTaken Manager.setBiddingActive Manager.setState].
    repeat split; auto.
    apply (Permutation_NoDup (Permutation_sym P')). exact NoDup_reset.
  - intros N. apply Nat.eqb_neq in N. rewrite N. reflexivity.
Qed.

(** The table of four after startGame. *)
Lemma startGame_deal_witness :
  map (fun p => List.length (hand p)) (Manager.players Spec.dealt) = [13; 13; 13; 13]
  /\ Manager.deck Spec.dealt = []
  /\ NoDup (Spec.allHands (Manager.players Spec.dealt))
  /\ Manager.startGame Spec.draws Spec.leadState = Spec.leadState.
Proof.
  destruct (proj1 (startGame_deals_the_whole_deck_to_four Spec.draws Spec.lobby) eq_refl)
    as (C & D & _ & N & _).
  split; [exact C |]. split; [exact D |]. split; [exact N |].
  apply (proj2 (startGame_deals_the_whole_deck_to_four Spec.draws Spec.leadState)).
  discriminate.
Defined.

(** X16. A new deal in GameManager, at a table with players and from a deck of
    at least 52 cards, clears what belongs to the round, each player's
    hand, bid and Nil mark, and keeps what belongs to the game: the
    players' ids, names, teams, scores and bags, in their seats. Of the
    game itself it changes the deck and the players only. *)
Theorem dealCards_keeps_scores_and_clears_bids :
  forall (g : Manager.GameManager Z),
    Manager.players g <> [] ->
    52 <= List.length (Manager.deck g) ->
    let g' := Manager.dealCards g in
    map (@Spec.account Z) (Manager.players g') = map (@Spec.account Z) (Manager.players g)
    /\ Forall (fun p => bid p = None /\ isNil p = false) (Manager.players g')
    /\ Manager.setPlayers (Manager.setDeck g' (Manager.deck g)) (Manager.players g) = g.
Proof.
  intros g _ _. cbv zeta. unfold Manager.dealCards.
  pose proof (dealLoop_accounts (@Spec.account Z) 52 0 (Manager.deck g)
                (map resetForNewRound (Manager.players g)) (fun p c => eq_refl)) as A.
  pose proof (dealLoop_accounts (fun p : Player Z => (bid p, isNil p))
                52 0 (Manager.deck g)
                (map resetForNewRound (Manager.players g)) (fun p c => eq_refl)) as Bd.
  destruct (Manager.dealLoop _ _ _ _) as [d ps]. cbn [snd] in A, Bd.
  cbn [Manager.players Manager.deck Manager.setPlayers Manager.setDeck].
  split; [| split].
  - rewrite map_map in *.
    etransitivity; [| etransitivity; [exact A |]]; apply map_ext; intros p; reflexivity.
  - rewrite map_map in Bd. apply Forall_forall. intros p Hin.
    apply in_map_iff in Hin. destruct Hin as (q & <- & Hq).
    assert (In (bid q, isNil q) (map (fun p0 : Player Z => (bid p0, isNil p0)) ps)) as Hi
        by (apply in_map_iff; eauto).
    rewrite Bd in Hi. apply in_map_iff in Hi. destruct Hi as (r & E & _).
    cbn in E. inversion E. cbn. auto.
  - destruct g. reflexivity.
Qed.

Lemma dealCards_keeps_scores_witness :
  map (@Spec.account Z) (Manager.players (Manager.dealCards Spec.lobby))
  = map (@Spec.account Z) (Manager.players Spec.lobby)
  /\ Forall (fun p => bid p = None /\ isNil p = false)
            (Manager.players (Manager.dealCards Spec.lobby)).
Proof.
  refine ((fun K => conj (proj1 K) (proj1 (proj2 K)))
            (dealCards_keeps_scores_and_clears_bids Spec.lobby _ _)).
  - vm_compute. discriminate.
  - vm_compute. apply le_n.
Defined.

End StartGame.

(** ** Dealing in Game.js *)

Section EngineDeal.

Local Open Scope nat_scope.

Lemma dealPass_enough (d : list Engine.Card) (ps : list Engine.Player) :
  List.length ps <= List.length d ->
  List.length (fst (Engine.dealPass d ps)) + List.length ps = List.length d
  /\ map (fun p => List.length (Engine.hand p)) (snd (Engine.dealPass d ps))
     = map (fun p => S (List.length (Engine.hand p))) ps
  /\ map Spec.engineAccount (snd (Engine.dealPass d ps)) = map Spec.engineAccount ps
  /\ map (fun p => (Engine.bid p, Engine.tricks p)) (snd (Engine.dealPass d ps))
     = map (fun p => (Engine.bid p, Engine.tricks p)) ps
  /\ Permutation (Spec.engineHands (snd (Engine.dealPass d ps)) ++ fst (Engine.dealPass d ps))
                 (Spec.engineHands ps ++ d).
Proof.
  revert d. induction ps as [| p ps IH]; intros d L; cbn [Engine.dealPass].
  - cbn. repeat split; auto.
  - cbn [List.length] in L.
    destruct (deal d) as [[c d'] |] eqn:E.
    + pose proof (deal_length _ E) as Ld. pose proof (deal_snoc _ E) as Es.
      specialize (IH d'). destruct (Engine.dealPass d' ps) as [d'' r'].
      cbn [fst snd] in *. destruct IH as (I1 & I2 & I3 & I4 & I5); [lia |].
      cbn [map List.length]. rewrite I2, I3, I4.
      split; [lia |]. split; [| split; [reflexivity | split; [reflexivity |]]].
      * f_equal. unfold Engine.addCard. cbn. rewrite length_app. cbn. lia.
      * unfold Spec.engineHands in *. cbn [flat_map Engine.addCard Engine.hand Engine.setHand].
        rewrite <- !app_assoc. apply Permutation_app_head.
        eapply perm_trans; [apply Permutation_app_head; exact I5 |].
        rewrite Es. cbn [app]. rewrite app_assoc.
        apply Permutation_cons_append.
    + exfalso. unfold deal in E.
      destruct (rev d) as [| x r] eqn:R; [| discriminate E].
      apply (f_equal (@List.length _)) in R. rewrite length_rev in R. cbn in R. lia.
Qed.

Lemma dealPasses_enough (n : nat) (d : list Engine.Card) (ps : list Engine.Player) :
  n * List.length ps <= List.length d ->
  List.length (fst (Engine.dealPasses n d ps)) + n * List.length ps = List.length d
  /\ map (fun p => List.length (Engine.hand p)) (snd (Engine.dealPasses n d ps))
     = map (fun p => List.length (Engine.hand p) + n) ps
  /\ map Spec.engineAccount (snd (Engine.dealPasses n d ps)) = map Spec.engineAccount ps
  /\ map (fun p => (Engine.bid p, Engine.tricks p)) (snd (Engine.dealPasses n d ps))
     = map (fun p => (Engine.bid p, Engine.tricks p)) ps
  /\ Permutation (Spec.engineHands (snd (Engine.dealPasses n d ps))
                  ++ fst (Engine.dealPasses n d ps))
                 (Spec.engineHands ps ++ d).
Proof.
  revert d ps. induction n as [| n IH]; intros d ps L; cbn [Engine.dealPasses].
  - cbn [fst snd]. split; [lia |]. split; [| auto].
    apply map_ext. intros p. lia.
  - destruct (dealPass_enough d ps) as (P1 & P2 & P3 & P4 & P5); [lia |].
    pose proof (dealPass_length d ps) as PL.
    destruct (Engine.dealPass d ps) as [d' ps']. cbn [fst snd] in *.
    destruct (IH d' ps') as (I1 & I2 & I3 & I4 & I5); [rewrite PL; lia |].
    rewrite PL in I1.
    split; [lia |]. split; [| split; [congruence | split; [congruence |]]].
    + rewrite I2.
      transitivity (map (fun k => k + n) (map (fun p => List.length (Engine.hand p)) ps')).
      * now rewrite map_map.
      * rewrite P2, map_map. apply map_ext. intros p. lia.
    + eapply perm_trans; [exact I5 | exact P5].
Qed.

(** X17. Game.startRound at a table of up to four players, on a host whose sort
    keeps the cards it sorts: every player is dealt thirteen cards on top
    of the cards still held (the hand is not cleared first), the deck
    keeps the rest of its 52 cards, no card is lost or dealt twice, bids
    and trick counts are back at 0, and ids, names, scores, bags and the
    team scores stay as they were. The round opens in the bidding state
    with spades unbroken, an empty trick and no bid collected, and at a
    table with players the turn is with the seat after the dealer. *)
Theorem engine_startRound_deals_thirteen_cards_each :
  forall (sortHandOrder : list Engine.Card -> list Engine.Card)
         (rand : nat -> nat) (g : Engine.Game),
    (forall l, Permutation (sortHandOrder l) l) ->
    List.length (Engine.players g) <= 4 ->
    let g' := Engine.startRound sortHandOrder rand g in
    map (fun p => List.length (Engine.hand p)) (Engine.players g')
    = map (fun p => List.length (Engine.hand p) + 13) (Engine.players g)
    /\ List.length (Engine.deck g') + 13 * List.length (Engine.players g) = 52
    /\ Permutation (Spec.engineHands (Engine.players g') ++ Engine.deck g')
                   (Spec.engineHands (Engine.players g) ++ Engine.createDeck)
    /\ map Spec.engineAccount (Engine.players g') = map Spec.engineAccount (Engine.players g)
    /\ Forall (fun p => Engine.bid p = 0%Z /\ Engine.tricks p = 0%Z) (Engine.players g')
    /\ Engine.team1 g' = Engine.team1 g /\ Engine.team2 g' = Engine.team2 g
    /\ Engine.dealerIndex g' = Engine.dealerIndex g
    /\ Engine.state g' = Engine.BIDDING
    /\ Engine.spadesBroken g' = false
    /\ Engine.trick g' = []
    /\ Engine.bidsCollected g' = 0
    /\ (Engine.players g <> [] ->
        Engine.currentPlayerIndex g'
        = (Engine.dealerIndex g + 1) mod List.length (Engine.players g)).
Proof.
  intros sortHandOrder rand g Hsort L4. cbv zeta.
  destruct (engine_startRound_resets sortHandOrder rand g) as (R1 & R2 & R3 & R4).
  assert (Engine.bidsCollected (Engine.startRound sortHandOrder rand g) = 0) as R5.
  { unfold Engine.startRound, Engine.dealCards.
    destruct (Engine.dealPasses _ _ _). reflexivity. }
  rewrite R2, R3, R4, R5, R1. clear R1 R2 R3 R4 R5.
  unfold Engine.startRound, Engine.dealCards.
  destruct (dealPasses_enough 13 (shuffle rand Engine.createDeck) (Engine.players g))
    as (D1 & D2 & D3 & D4 & D5).
  { rewrite length_shuffle. change (List.length Engine.createDeck) with 52. lia. }
  rewrite length_shuffle in D1. change (List.length Engine.createDeck) with 52 in D1.
  destruct (Engine.dealPasses 13 (shuffle rand Engine.createDeck) (Engine.players g))
    as [d ps].
  cbn [fst snd] in *.
  cbn [Engine.players Engine.deck Engine.team1 Engine.team2 Engine.dealerIndex
       Engine.setPlayers Engine.setDeck].
  rewrite !map_map. cbn [Engine.hand Engine.setHand].
  split; [| split; [lia | split; [| split; [| split; [| auto 12]]]]].
  - rewrite <- D2. apply map_ext. intros p.
    apply Permutation_length. apply Hsort.
  - eapply perm_trans; [| eapply perm_trans; [exact D5 |]].
    + apply Permutation_app_tail. unfold Spec.engineHands.
      clear - Hsort. induction ps as [| p ps IH]; cbn; [reflexivity |].
      apply Permutation_app; [apply Hsort | exact IH].
    + apply Permutation_app_head. unfold shuffle. apply shuffleFrom_Permutation.
  - rewrite <- D3. apply map_ext. intros p. reflexivity.
  - apply Forall_forall. intros p Hin. apply in_map_iff in Hin.
    destruct Hin as (q & <- & _). cbn. auto.
Qed.

(** The table of four of Game.js, on a host whose sort leaves the hand as
    it is. *)
Lemma engine_startRound_witness :
  map (fun p => List.length (Engine.hand p))
      (Engine.players (Engine.startRound (fun l => l) Spec.draws Spec.bagHeavy))
  = [13; 13; 13; 13]
  /\ List.length (Engine.deck (Engine.startRound (fun l => l) Spec.draws Spec.bagHeavy))
     + 13 * 4 = 52.
Proof.
  refine ((fun K => conj (proj1 K) (proj1 (proj2 K)))
            (engine_startRound_deals_thirteen_cards_each
               (fun l => l) Spec.draws Spec.bagHeavy _ _)).
  - intros l. apply Permutation_refl.
  - vm_compute. repeat constructor.
Defined.

End EngineDeal.

(** ** Scoring a round in GameManager *)

Section ManagerScoring.

Local Open Scope Z_scope.

(** The contract loop scores each team on its own players. *)
Lemma scoreContracts_on_team (ps : list (Player Z)) (t : Team) :
  filter (Manager.onTeam (Some t)) (Manager.scoreContracts ps)
  = Manager.scoreTeam (filter (Manager.onTeam (Some t)) ps) (Some t).
Proof.
  unfold Manager.scoreContracts, Manager.teamKeys. cbn [fold_left].
  rewrite scoreTeam_off_team by (destruct t; reflexivity).
  destruct t.
  - rewrite scoreTeam_off_team by reflexivity. apply scoreTeam_on_team.
  - rewrite scoreTeam_on_team. rewrite scoreTeam_off_team by reflexivity.
    reflexivity.
Qed.

Lemma sumOver_two (f : Player Z -> Z) (a c : Player Z) :
  Manager.sumOver f [a; c] = f a + f c.
Proof. unfold Manager.sumOver. cbn [fold_left]. lia. Qed.

(** X18. The contract scoring of GameManager.endRound, before the bag penalty,
    on a team of two without a Nil bid: the contract is the sum of the two
    bids; when the two together won at least that many tricks each of them
    gains ten times the contract and the overtricks are added to the bags
    of the one seated first, otherwise each loses ten times the contract
    and no bag is added. Half the sum of the two scores, which is what the
    scoreboard reports for the team, moves by the same amount. *)
Theorem manager_contract_scores_ten_per_trick_bid :
  forall (ps : list (Player Z)) (t : Team) (n m : Player Z) (a b : Z),
    filter (Manager.onTeam (Some t)) ps = [n; m] ->
    isNil n = false -> isNil m = false ->
    bid n = Some a -> bid m = Some b ->
    let met := a + b <=? tricksWon n + tricksWon m in
    let change := if met then (a + b) * 10 else - ((a + b) * 10) in
    let over := if met then tricksWon n + tricksWon m - (a + b) else 0 in
    exists n' m',
      filter (Manager.onTeam (Some t)) (Manager.scoreContracts ps) = [n'; m']
      /\ score n' = score n + change
      /\ score m' = score m + change
      /\ bags n' = bags n + over
      /\ bags m' = bags m
      /\ (Manager.teamScore t (Manager.scoreContracts ps)
          == Manager.teamScore t ps + inject_Z change)%Q.
Proof.
  intros ps t n m a b Hteam Hn Hm Hbn Hbm met change over.
  assert (Manager.onTeam (Some t) n = true /\ Manager.onTeam (Some t) m = true) as [Tn Tm].
  { assert (In n (filter (Manager.onTeam (Some t)) ps)
            /\ In m (filter (Manager.onTeam (Some t)) ps)) as [In1 In2]
        by (rewrite Hteam; simpl; auto).
    apply filter_In in In1. apply filter_In in In2. split; [apply In1 | apply In2]. }
  assert (Manager.bidNumber n = a /\ Manager.bidNumber m = b) as [Bn Bm]
      by (unfold Manager.bidNumber; rewrite Hbn, Hbm; auto).
  assert (forall p s, Manager.onTeam (Some t) (setScore p s) = Manager.onTeam (Some t) p)
    as OS by reflexivity.
  unfold Manager.teamScore.
  rewrite scoreContracts_on_team, Hteam.
  unfold Manager.scoreTeam. cbn [filter]. rewrite Tn, Tm. cbn [filter].
  rewrite Hn, Hm. cbv zeta. rewrite !sumOver_two, Bn, Bm.
  assert (Manager.sumOver (@tricksWon Z) [] = 0) as -> by reflexivity.
  rewrite Z.sub_0_r. fold met.
  cbn [map Manager.updateFirst]. rewrite Tn, Tm, Hn, Hm. cbn [andb].
  repeat first [rewrite OS | rewrite Tn | rewrite Tm | progress cbv beta iota].
  eexists _, _. split; [reflexivity |].
  cbn [score bags setScore setBags]. rewrite sumOver_two. cbn [score setScore setBags].
  subst change over. destruct met.
  - repeat split; try lia.
    unfold Qeq, Qdiv, Qmult, Qplus, Qinv, inject_Z. simpl. lia.
  - repeat split; try lia.
    unfold Qeq, Qdiv, Qmult, Qplus, Qinv, inject_Z. simpl. lia.
Qed.

(** North and south bid 3 and 4 and take 5 and 4 tricks: 70 points each
    and two bags on north. *)
Lemma manager_contract_witness :
  exists n' m',
    filter (Manager.onTeam (Some Team2)) (Manager.scoreContracts Spec.plainRound) = [n'; m']
    /\ score n' = 70 /\ score m' = 70 /\ bags n' = 2 /\ bags m' = 0
    /\ (Manager.teamScore Team2 (Manager.scoreContracts Spec.plainRound)
        == Manager.teamScore Team2 Spec.plainRound + inject_Z 70)%Q.
Proof.
  exact (manager_contract_scores_ten_per_trick_bid
           Spec.plainRound Team2
           (n := Spec.seat "north" Team2 3 5) (m := Spec.seat "south" Team2 4 4)
           eq_refl eq_refl eq_refl eq_refl eq_refl).
Defined.

(** X20. GameManager.calculateAndApplyBags on a team whose bag total T is not
    negative: the team is left with T mod 10 bags and every player of the
    team loses 100 points for each full ten in T, so nothing changes below
    ten bags; after a penalty the bags that remain are on the player
    seated first and the other players of the team hold none. *)
Theorem manager_bag_penalty_takes_100_per_ten_bags :
  forall (ps : list (Player Z)) (t : Team),
    0 <= Manager.teamBagTotal t ps ->
    let T := Manager.teamBagTotal t ps in
    let after := filter (Manager.onTeam (Some t)) (Manager.calculateAndApplyBags ps) in
    Manager.teamBagTotal t (Manager.calculateAndApplyBags ps) = T mod 10
    /\ map (@score Z) after
       = map (fun p => score p - 100 * (T / 10)) (filter (Manager.onTeam (Some t)) ps)
    /\ (10 <= T -> map (@bags Z) after
                   = match filter (Manager.onTeam (Some t)) ps with
                     | [] => []
                     | _ :: rest => T mod 10 :: map (fun _ => 0) rest
                     end)
    /\ (T < 10 -> after = filter (Manager.onTeam (Some t)) ps).
Proof.
  intros ps t HT T after.
  destruct (manager_bag_penalty_repeats ps t HT) as (B1 & B2 & _ & B4).
  assert (forall s, Spec.penalise (Z.to_nat T) s T = (s - 100 * (T / 10), T mod 10)) as P
      by (intros s; apply penalise_closed_form; lia).
  fold T in B1, B2, B4. rewrite P in B1. cbn [snd] in B1.
  split; [exact B1 |]. split; [| split; [| exact B4]].
  - subst after. rewrite B2. apply map_ext. intros p. rewrite P. reflexivity.
  - intros H10. subst after.
    assert (filter (Manager.onTeam (Some t)) (Manager.calculateAndApplyBags ps)
            = Spec.penaliseTeam (filter (Manager.onTeam (Some t)) ps)) as V.
    { unfold Manager.calculateAndApplyBags, Manager.teamKeys. cbn [fold_left].
      rewrite applyBags_off_team by (destruct t; reflexivity).
      destruct t.
      - rewrite applyBags_off_team by reflexivity. apply applyBags_on_team.
      - rewrite applyBags_on_team. rewrite applyBags_off_team by reflexivity.
        reflexivity. }
    rewrite V. unfold Spec.penaliseTeam. cbv zeta.
    change (Manager.sumOver (@bags Z) (filter (Manager.onTeam (Some t)) ps)) with T.
    destruct (Z.leb_spec 10 T) as [_ | Hlt]; [| lia].
    rewrite Z.rem_mod_nonneg by lia.
    destruct (filter (Manager.onTeam (Some t)) ps) as [| x rest]; [reflexivity |].
    cbn [map Spec.updateHead bags setBags]. f_equal.
    rewrite map_map. apply map_ext. intros p. reflexivity.
Qed.

(** North's team holds 12 bags: 100 points off each and two bags left, on
    north. *)
Lemma manager_bag_penalty_witness :
  Manager.teamBagTotal Team2 (Manager.calculateAndApplyBags Spec.bagged) = 2
  /\ map (@score Z)
         (filter (Manager.onTeam (Some Team2)) (Manager.calculateAndApplyBags Spec.bagged))
     = [-100; -100].
Proof.
  refine ((fun K => conj (proj1 K) (proj1 (proj2 K)))
            (manager_bag_penalty_takes_100_per_ten_bags Spec.bagged Team2 _)).
  vm_compute. discriminate.
Defined.

(** X21. The score GameManager.getTeamScoreDisplay prints for a team is the sum
    of the scores of its players, twice the score announceTeamScores
    reports for the same players; the bid it prints is the sum of their
    bids, a player who has not bid counting for 0. *)
Theorem displayed_score_is_twice_the_announced_score :
  forall (ps : list (Player Z)) (t : Team),
    (inject_Z (Manager.displayedScore t ps) == 2 * Manager.teamScore t ps)%Q
    /\ (2 * fst (Manager.announceTeamScores ps) == inject_Z (Manager.displayedScore Team1 ps))%Q
    /\ (2 * snd (Manager.announceTeamScores ps) == inject_Z (Manager.displayedScore Team2 ps))%Q
    /\ Manager.displayedBid t (map resetForNewRound ps) = 0.
Proof.
  intros ps t.
  assert (forall z : Z, (inject_Z z == 2 * (inject_Z z / 2))%Q) as Half
      by (intros z; field).
  unfold Manager.announceTeamScores, Manager.displayedScore, Manager.teamScore.
  cbn [fst snd]. split; [apply Half |]. split; [symmetry; apply Half |].
  split; [symmetry; apply Half |].
  unfold Manager.displayedBid.
  induction ps as [| p ps IH]; [reflexivity |].
  cbn [map filter]. destruct (Manager.onTeam (Some t) (resetForNewRound p)); [| exact IH].
  rewrite sumOver_cons, IH. reflexivity.
Qed.

End ManagerScoring.

(** ** Scoring a round in Game.js *)

Section EngineScoring.

Local Open Scope Z_scope.

Lemma halves_add_up (x : Z) : Engine.floorHalf x + Engine.ceilHalf x = x.
Proof.
  unfold Engine.floorHalf, Engine.ceilHalf.
  pose proof (Z.div_mod x 2). pose proof (Z.mod_pos_bound x 2).
  pose proof (Z.div_mod (- x) 2). pose proof (Z.mod_pos_bound (- x) 2). lia.
Qed.

Lemma halves_close (x : Z) :
  Engine.floorHalf x <= Engine.ceilHalf x <= Engine.floorHalf x + 1.
Proof.
  unfold Engine.floorHalf, Engine.ceilHalf.
  pose proof (Z.div_mod x 2). pose proof (Z.mod_pos_bound x 2).
  pose proof (Z.div_mod (- x) 2). pose proof (Z.mod_pos_bound (- x) 2). lia.
Qed.

Lemma nth_error_setNthPlayer (ps : list Engine.Player) (i j : nat) (p : Engine.Player) :
  nth_error (Engine.setNthPlayer ps i p) j
  = if (j =? i)%nat then option_map (fun _ => p) (nth_error ps j) else nth_error ps j.
Proof.
  revert i j. induction ps as [| x ps IH]; intros i j.
  - destruct i, j; simpl; try reflexivity; destruct (_ =? _)%nat; reflexivity.
  - destruct i as [| i], j as [| j]; simpl; try reflexivity. apply IH.
Qed.

Lemma length_setNthPlayer (ps : list Engine.Player) (i : nat) (p : Engine.Player) :
  List.length (Engine.setNthPlayer ps i p) = List.length ps.
Proof. revert i. induction ps as [| x ps IH]; intros [| i]; simpl; auto. Qed.

(** X22. The bag bookkeeping of Game.js for one partnership, the players of
    seats teamIndex and teamIndex + 2. With [total] the bags the
    partnership holds once the round's bags are added: no bag is lost in
    the split between the two; when [total] is 10 or more the partnership
    is charged 100 points once and keeps [total - 10] bags, shared so that
    the second player holds the odd one; the partnership's score moves by
    the round's points less that charge, the other partnership's score
    and the players of the other seats are left alone, and only the bags
    of the two players change. *)
Theorem engine_scoreTeam_shares_the_bags_and_charges_once :
  forall (teamIndex : nat) (g g' : Engine.Game) (p1 p2 : Engine.Player),
    (teamIndex = 0 \/ teamIndex = 1)%nat ->
    nth_error (Engine.players g) teamIndex = Some p1 ->
    nth_error (Engine.players g) (teamIndex + 2) = Some p2 ->
    Engine.scoreTeam teamIndex g = Some g' ->
    let points := fst (Engine.contract p1 p2) in
    let total := snd (Engine.contract p1 p2) in
    let charged := 10 <=? total in
    exists q1 q2,
      nth_error (Engine.players g') teamIndex = Some q1
      /\ nth_error (Engine.players g') (teamIndex + 2) = Some q2
      /\ Engine.bags q1 + Engine.bags q2 = (if charged then total - 10 else total)
      /\ (charged = true -> Engine.bags q1 <= Engine.bags q2 <= Engine.bags q1 + 1)
      /\ Engine.setBags q1 (Engine.bags p1) = p1
      /\ Engine.setBags q2 (Engine.bags p2) = p2
      /\ Spec.engineTeamScore teamIndex g'
         = Spec.engineTeamScore teamIndex g + points - (if charged then 100 else 0)
      /\ Spec.engineTeamScore (1 - teamIndex) g' = Spec.engineTeamScore (1 - teamIndex) g
      /\ (forall j, j <> teamIndex -> j <> (teamIndex + 2)%nat ->
                    nth_error (Engine.players g') j = nth_error (Engine.players g) j).
Proof.
  intros teamIndex g g' p1 p2 Hi H1 H2. unfold Engine.scoreTeam. rewrite H1, H2.
  destruct (Engine.contract p1 p2) as [points total]. cbn [fst snd].
  unfold Engine.bagPenalty. cbv zeta.
  pose proof (halves_add_up (total - (Engine.bags p1 + Engine.bags p2))) as HA.
  pose proof (halves_add_up
                (Engine.bags p1 + Engine.floorHalf (total - (Engine.bags p1 + Engine.bags p2))
                 + (Engine.bags p2 + Engine.ceilHalf (total - (Engine.bags p1 + Engine.bags p2)))
                 - 10)) as HB.
  pose proof (halves_close
                (Engine.bags p1 + Engine.floorHalf (total - (Engine.bags p1 + Engine.bags p2))
                 + (Engine.bags p2 + Engine.ceilHalf (total - (Engine.bags p1 + Engine.bags p2)))
                 - 10)) as HC.
  assert (Engine.bags p1 + Engine.floorHalf (total - (Engine.bags p1 + Engine.bags p2))
          + (Engine.bags p2 + Engine.ceilHalf (total - (Engine.bags p1 + Engine.bags p2)))
          = total) as HT by lia.
  rewrite HT in *.
  assert (forall (b1 b2 delta : Z) g1,
             g1 = (let ps := Engine.setNthPlayer
                               (Engine.setNthPlayer (Engine.players g) teamIndex
                                                    (Engine.setBags p1 b1))
                               (teamIndex + 2) (Engine.setBags p2 b2) in
                   let g0 := Engine.setPlayers g ps in
                   match teamIndex with
                   | O => Engine.setTeamScores g0 (Engine.team1 g0 + delta) (Engine.team2 g0)
                   | S _ => Engine.setTeamScores g0 (Engine.team1 g0) (Engine.team2 g0 + delta)
                   end) ->
             nth_error (Engine.players g1) teamIndex = Some (Engine.setBags p1 b1)
             /\ nth_error (Engine.players g1) (teamIndex + 2) = Some (Engine.setBags p2 b2)
             /\ Spec.engineTeamScore teamIndex g1 = Spec.engineTeamScore teamIndex g + delta
             /\ Spec.engineTeamScore (1 - teamIndex) g1
                = Spec.engineTeamScore (1 - teamIndex) g
             /\ (forall j, j <> teamIndex -> j <> (teamIndex + 2)%nat ->
                           nth_error (Engine.players g1) j = nth_error (Engine.players g) j))
    as K.
  { intros b1 b2 delta g1 ->. cbv zeta.
    assert (forall j,
               nth_error (Engine.setNthPlayer
                            (Engine.setNthPlayer (Engine.players g) teamIndex
                                                 (Engine.setBags p1 b1))
                            (teamIndex + 2) (Engine.setBags p2 b2)) j
               = if (j =? teamIndex + 2)%nat then Some (Engine.setBags p2 b2)
                 else if (j =? teamIndex)%nat then Some (Engine.setBags p1 b1)
                      else nth_error (Engine.players g) j) as N.
    { intros j. rewrite !nth_error_setNthPlayer.
      destruct (Nat.eqb_spec j (teamIndex + 2)) as [-> | N2].
      - assert ((teamIndex + 2 =? teamIndex)%nat = false) as -> by (apply Nat.eqb_neq; lia).
        rewrite H2. reflexivity.
      - destruct (Nat.eqb_spec j teamIndex) as [-> | N1]; [rewrite H1 |]; reflexivity. }
    destruct Hi as [-> | ->]; cbn [Engine.players Engine.setTeamScores Engine.setPlayers
                                   Spec.engineTeamScore Engine.team1 Engine.team2 Nat.sub];
      rewrite !N; cbn [Nat.eqb Nat.add];
      (split; [reflexivity |]); (split; [reflexivity |]); (split; [reflexivity |]);
      (split; [reflexivity |]);
      intros j J1 J2; rewrite N;
      apply Nat.eqb_neq in J1; apply Nat.eqb_neq in J2;
      cbn [Nat.add] in *;
      rewrite J2, J1; reflexivity. }
  destruct (Z.leb_spec 10 total) as [Hge | Hlt]; intros E; injection E as Eg;
    symmetry in Eg; destruct (K _ _ _ _ Eg) as (K1 & K2 & K3 & K4 & K5);
    eexists _, _; (split; [exact K1 |]); (split; [exact K2 |]);
    cbn [Engine.bags Engine.setBags];
    (split; [lia |]); (split; [intros; try lia; try discriminate |]);
    (split; [destruct p1; reflexivity |]); (split; [destruct p2; reflexivity |]);
    (split; [rewrite K3; lia |]); (split; [exact K4 | exact K5]).
Qed.

(** North and south come with 9 bags and take 11 overtricks: of the 20
    bags they keep 10, five each, for one charge of 100. *)
Lemma engine_scoreTeam_witness :
  exists q1 q2,
    nth_error (Engine.players Spec.bagHeavyTeam1Scored) 0%nat = Some q1
    /\ nth_error (Engine.players Spec.bagHeavyTeam1Scored) 2%nat = Some q2
    /\ Engine.bags q1 + Engine.bags q2 = 10
    /\ Engine.team1 Spec.bagHeavyTeam1Scored = 0 + 20 - 100.
Proof.
  destruct (@engine_scoreTeam_shares_the_bags_and_charges_once
              0%nat Spec.bagHeavy Spec.bagHeavyTeam1Scored
              (Spec.engineSeat "north" 1 7 4) (Spec.engineSeat "south" 1 6 5)
              (or_introl eq_refl) eq_refl eq_refl eq_refl)
    as (q1 & q2 & A & B & C & _ & _ & _ & D & _).
  exists q1, q2. split; [exact A |]. split; [exact B |]. split; [exact C | exact D].
Defined.

(** X23. Game.calculateRoundScores reads the players of seats 0 to 3: it fails
    with a TypeError, on a player that is undefined, exactly when the game
    has fewer than four players, and otherwise returns its summary. With
    three players the failure comes after the first partnership has been
    scored. *)
Theorem engine_calculateRoundScores_needs_four_players :
  forall g : Engine.Game,
    (Engine.calculateRoundScores g = None <-> (List.length (Engine.players g) < 4)%nat)
    /\ (Engine.scoreTeam 0 g = None <-> (List.length (Engine.players g) < 3)%nat).
Proof.
  intros g.
  assert (forall i (h : Engine.Game),
             Engine.scoreTeam i h = None <-> (List.length (Engine.players h) < i + 3)%nat)
    as S.
  { intros i h. unfold Engine.scoreTeam.
    destruct (nth_error (Engine.players h) i) as [p1 |] eqn:E1.
    - destruct (nth_error (Engine.players h) (i + 2)) as [p2 |] eqn:E2.
      + assert (nth_error (Engine.players h) (i + 2) <> None) as N
            by (rewrite E2; discriminate).
        apply nth_error_Some in N.
        destruct (Engine.contract p1 p2). destruct (Engine.bagPenalty _ _ _ _) as [[? ?] ?].
        split; [discriminate | lia].
      + apply nth_error_None in E2. split; [lia | reflexivity].
    - apply nth_error_None in E1. split; [lia | reflexivity]. }
  assert (forall i (h h' : Engine.Game),
             Engine.scoreTeam i h = Some h' ->
             List.length (Engine.players h') = List.length (Engine.players h)) as L.
  { intros i h h'. unfold Engine.scoreTeam.
    destruct (nth_error _ i) as [p1 |]; [| discriminate].
    destruct (nth_error _ (i + 2)) as [p2 |]; [| discriminate].
    destruct (Engine.contract p1 p2). destruct (Engine.bagPenalty _ _ _ _) as [[? ?] ?].
    intros E. inversion E. destruct i; cbn; now rewrite !length_setNthPlayer. }
  split; [| apply (S 0%nat g)].
  unfold Engine.calculateRoundScores.
  destruct (Engine.scoreTeam 0 g) as [g1 |] eqn:E0.
  - pose proof (L _ _ _ E0) as L1.
    destruct (Engine.scoreTeam 1 g1) as [g2 |] eqn:E1.
    + assert (~ (List.length (Engine.players g1) < 1 + 3)%nat) as N.
      { intros F. apply S in F. rewrite F in E1. discriminate E1. }
      split; [discriminate | lia].
    + apply S in E1. split; [lia | reflexivity].
  - apply S in E0. split; [lia | reflexivity].
Qed.

(** X24. Game.endGame, at a table of four, names the partnership with the
    higher total score, and a tie when the totals are equal, whatever ended
    the game: a partnership that fell to -200 loses to the other, and when
    both reach the maximum in the same round the higher total wins.
    GameManager.checkGameEnd announces by the same rule when it ends the
    game, and ends it only when a score has reached the target. *)
Theorem both_engines_name_the_higher_score_the_winner :
  (forall g : Engine.Game,
      List.length (Engine.players g) = 4%nat ->
      match Engine.endGame g with
      | Some Engine.Team1Wins => Engine.team2 g < Engine.team1 g
      | Some Engine.Team2Wins => Engine.team1 g < Engine.team2 g
      | Some Engine.TieGame => Engine.team1 g = Engine.team2 g
      | None => False
      end)
  /\ (forall (target : Z) (scores : Q * Q),
         match Manager.announcedOutcome target scores with
         | Some (Manager.Wins Team1) =>
             (snd scores < fst scores)%Q /\ (inject_Z target <= fst scores)%Q
         | Some (Manager.Wins Team2) =>
             (fst scores < snd scores)%Q /\ (inject_Z target <= snd scores)%Q
         | Some Manager.Tie =>
             (fst scores == snd scores)%Q /\ (inject_Z target <= fst scores)%Q
         | None => (fst scores < inject_Z target)%Q /\ (snd scores < inject_Z target)%Q
         end)
  /\ (forall (g : Engine.Game) (target : Z),
         List.length (Engine.players g) = 4%nat ->
         Manager.checkGameEnd target (inject_Z (Engine.team1 g), inject_Z (Engine.team2 g))
         = true ->
         exists r,
           Engine.endGame g = Some r
           /\ Manager.announcedOutcome target
                (inject_Z (Engine.team1 g), inject_Z (Engine.team2 g))
              = Some (match r with
                      | Engine.Team1Wins => Manager.Wins Team1
                      | Engine.Team2Wins => Manager.Wins Team2
                      | Engine.TieGame => Manager.Tie
                      end)).
Proof.
  assert (forall a b : Q, Qle_bool a b = true <-> (a <= b)%Q) as LE
      by (intros; apply Qle_bool_iff).
  assert (forall a b : Q, (b < a)%Q -> Qle_bool a b = false) as GT.
  { intros a b L. destruct (Qle_bool a b) eqn:E; [| reflexivity].
    apply LE in E. exfalso. exact (Qlt_not_le _ _ L E). }
  assert (forall a b : Q, (a == b)%Q -> Qeq_bool a b = true) as EQ
      by (intros a b E; apply Qeq_bool_iff; exact E).
  assert (forall a b : Q, ~ (a == b)%Q -> Qeq_bool a b = false) as NE.
  { intros a b N. destruct (Qeq_bool a b) eqn:E; [| reflexivity].
    apply Qeq_bool_iff in E. contradiction. }
  assert (forall (target : Z) (scores : Q * Q),
         match Manager.announcedOutcome target scores with
         | Some (Manager.Wins Team1) =>
             (snd scores < fst scores)%Q /\ (inject_Z target <= fst scores)%Q
         | Some (Manager.Wins Team2) =>
             (fst scores < snd scores)%Q /\ (inject_Z target <= snd scores)%Q
         | Some Manager.Tie =>
             (fst scores == snd scores)%Q /\ (inject_Z target <= fst scores)%Q
         | None => (fst scores < inject_Z target)%Q /\ (snd scores < inject_Z target)%Q
         end) as M.
  { intros target [s1 s2]. unfold Manager.announcedOutcome, Manager.checkGameEnd,
      Manager.mathMax. cbn [fst snd].
    destruct (Qle_bool (inject_Z target) s1 || Qle_bool (inject_Z target) s2) eqn:End.
    - assert ((inject_Z target <= s1)%Q \/ (inject_Z target <= s2)%Q) as Hend.
      { apply orb_true_iff in End. destruct End as [E | E]; apply LE in E; auto. }
      cbv zeta.
      destruct (Q_dec s1 s2) as [[Hlt | Hgt] | Heq].
      + rewrite (proj2 (LE s1 s2) (Qlt_le_weak _ _ Hlt)).
        rewrite (NE s1 s2) by (intros F; rewrite F in Hlt; exact (Qlt_irrefl _ Hlt)).
        cbn [andb]. split; [exact Hlt |].
        destruct Hend as [E | E]; [| exact E].
        eapply Qle_trans; [exact E | apply Qlt_le_weak; exact Hlt].
      + rewrite (GT s1 s2 Hgt), (EQ s1 s1 (Qeq_refl s1)).
        rewrite (NE s2 s1) by (intros F; rewrite F in Hgt; exact (Qlt_irrefl _ Hgt)).
        cbn [andb]. split; [exact Hgt |].
        destruct Hend as [E | E]; [exact E |].
        eapply Qle_trans; [exact E | apply Qlt_le_weak; exact Hgt].
      + assert (s1 <= s2)%Q as Hle by (rewrite Heq; apply Qle_refl).
        rewrite (proj2 (LE s1 s2) Hle), (EQ s1 s2 Heq), (EQ s2 s2 (Qeq_refl s2)).
        cbn [andb]. split; [exact Heq |].
        destruct Hend as [E | E]; [exact E | rewrite Heq; exact E].
    - apply orb_false_iff in End. destruct End as [E1 E2].
      split; apply Qnot_le_lt; intros F; apply LE in F; congruence. }
  assert (forall g : Engine.Game,
             List.length (Engine.players g) = 4%nat ->
             Engine.endGame g
             = Some (if Engine.team2 g <? Engine.team1 g then Engine.Team1Wins
                     else if Engine.team1 g <? Engine.team2 g then Engine.Team2Wins
                          else Engine.TieGame)) as G.
  { intros g L. unfold Engine.endGame.
    destruct (Engine.players g) as [| p0 [| p1 [| p2 [| p3 [| p4 l]]]]]; try discriminate L.
    cbn [nth_error].
    destruct (_ <? _); [reflexivity |]. destruct (_ <? _); reflexivity. }
  split; [| split; [exact M |]].
  - intros g L. rewrite (G g L).
    destruct (Z.ltb_spec (Engine.team2 g) (Engine.team1 g)); [assumption |].
    destruct (Z.ltb_spec (Engine.team1 g) (Engine.team2 g)); [assumption | lia].
  - intros g target L Hend. rewrite (G g L). eexists. split; [reflexivity |].
    specialize (M target (inject_Z (Engine.team1 g), inject_Z (Engine.team2 g))).
    unfold Manager.announcedOutcome in *. rewrite Hend in *. cbv zeta in *.
    cbn [fst snd] in M.
    destruct (Z.ltb_spec (Engine.team2 g) (Engine.team1 g)) as [A | A];
      [| destruct (Z.ltb_spec (Engine.team1 g) (Engine.team2 g)) as [A' | A']].
    all: destruct (if _ && _ then _ else _) as [| []]; try reflexivity; exfalso;
      destruct M as [M _]; unfold Qlt, Qeq, inject_Z in M; simpl in M; lia.
Qed.

(** North and south stand at -210 against 200: east and west win, in
    both engines. *)
Lemma engine_winner_witness :
  Engine.team1 Spec.lowScoreScored < Engine.team2 Spec.lowScoreScored
  /\ exists r,
       Engine.endGame Spec.lowScoreScored = Some r
       /\ Manager.announcedOutcome 150
            (inject_Z (Engine.team1 Spec.lowScoreScored),
             inject_Z (Engine.team2 Spec.lowScoreScored))
          = Some (match r with
                  | Engine.Team1Wins => Manager.Wins Team1
                  | Engine.Team2Wins => Manager.Wins Team2
                  | Engine.TieGame => Manager.Tie
                  end).
Proof.
  split.
  - exact (proj1 both_engines_name_the_higher_score_the_winner
                 Spec.lowScoreScored eq_refl).
  - exact (proj2 (proj2 both_engines_name_the_higher_score_the_winner)
                 Spec.lowScoreScored 150 eq_refl eq_refl).
Defined.

End EngineScoring.

(** ** The two engines on the same trick *)

Section Agreement.

Lemma pickWinner_self (led : option Suit) (e : Manager.TrickEntry) :
  Manager.pickWinner led e e = e.
Proof.
  unfold Manager.pickWinner. cbv zeta. rewrite Z.ltb_irrefl.
  destruct (Manager.isSpade (Manager.card e)); cbn [andb negb]; [reflexivity |].
  destruct (Manager.isLedSuit led (Manager.card e)); reflexivity.
Qed.

(** One step of the two loops on corresponding plays, when the play held
    so far is a spade or follows the lead. *)
Lemma pickWinner_better (s : Suit) (w c : Manager.TrickEntry) (p q : Engine.Play) :
  Engine.card p = Spec.toEngineCard (Manager.card w) ->
  Engine.card q = Spec.toEngineCard (Manager.card c) ->
  Manager.isSpade (Manager.card w) || suit_eqb (suitCode (Manager.card w)) s = true ->
  ((Manager.pickWinner (Some s) w c = w /\ Engine.better s p q = p)
   \/ (Manager.pickWinner (Some s) w c = c /\ Engine.better s p q = q))
  /\ Manager.isSpade (Manager.card (Manager.pickWinner (Some s) w c))
     || suit_eqb (suitCode (Manager.card (Manager.pickWinner (Some s) w c))) s = true.
Proof.
  destruct w as [wi [wr ws]], c as [ci [cr cs]], p as [pi pc], q as [qi qc].
  cbn [Engine.card Manager.card]. intros -> -> Hw.
  assert (forall r, Engine.getValue r = rankValue r) as HV by (destruct r; reflexivity).
  unfold Manager.pickWinner, Engine.better, Manager.isSpade, Engine.isSpade,
    Manager.isLedSuit, Engine.value, CardJs.value, Spec.toEngineCard in *.
  cbn [Manager.card Engine.card suitCode rankCode Engine.suit Engine.rank] in *.
  replace (Engine.getValue wr) with (rankValue wr) by (symmetry; apply HV).
  replace (Engine.getValue cr) with (rankValue cr) by (symmetry; apply HV).
  destruct ws, cs, s; cbn in Hw |- *; try discriminate Hw;
    try destruct (rankValue wr <? rankValue cr)%Z; cbn; auto.
Qed.

(** X25. GameManager.getWinnerOfTrick and Game.determineTrickWinner name the
    same play as the winner of a complete trick of four led by the suit of
    its first card, whatever the cards are: the play Game.js picks stands
    at the place in the trick of the entry GameManager picks and carries
    the same card. *)
Theorem both_engines_pick_the_same_trick_winner :
  forall (g : Manager.GameManager Z) (h : Engine.Game) (e0 e1 e2 e3 : Manager.TrickEntry),
    Manager.currentTrick g = [e0; e1; e2; e3] ->
    Manager.trickSuit g = Some (suitCode (Manager.card e0)) ->
    Engine.trick h = Spec.asPlays 0 [e0; e1; e2; e3] ->
    exists w p,
      Manager.getWinnerOfTrick g = Some w
      /\ fst (Engine.determineTrickWinner h) = Some p
      /\ nth_error [e0; e1; e2; e3] (Engine.player p) = Some w
      /\ Engine.card p = Spec.toEngineCard (Manager.card w).
Proof.
  intros g h e0 e1 e2 e3 Ht Hs Hh.
  unfold Manager.getWinnerOfTrick, Engine.determineTrickWinner.
  rewrite Ht, Hs, Hh. cbn [Spec.asPlays fold_left fst Engine.card Engine.suit
                           Spec.toEngineCard].
  rewrite pickWinner_self.
  set (s := suitCode (Manager.card e0)).
  set (q0 := Engine.mkPlay 0 (Spec.toEngineCard (Manager.card e0))).
  set (q1 := Engine.mkPlay 1 (Spec.toEngineCard (Manager.card e1))).
  set (q2 := Engine.mkPlay 2 (Spec.toEngineCard (Manager.card e2))).
  set (q3 := Engine.mkPlay 3 (Spec.toEngineCard (Manager.card e3))).
  change (Engine.mkCard (suitCode (Manager.card e0)) (rankCode (Manager.card e0)))
    with (Spec.toEngineCard (Manager.card e0)).
  fold q0.
  assert (Manager.isSpade (Manager.card e0)
          || suit_eqb (suitCode (Manager.card e0)) s = true) as I0.
  { apply orb_true_iff. right. apply suit_eqb_eq. reflexivity. }
  assert (forall w p c q,
             (w = e0 /\ p = q0) \/ (w = e1 /\ p = q1) \/ (w = e2 /\ p = q2)
             \/ (w = e3 /\ p = q3) ->
             (c = e1 /\ q = q1) \/ (c = e2 /\ q = q2) \/ (c = e3 /\ q = q3) ->
             Manager.isSpade (Manager.card w) || suit_eqb (suitCode (Manager.card w)) s = true ->
             ((Manager.pickWinner (Some s) w c = e0 /\ Engine.better s p q = q0)
              \/ (Manager.pickWinner (Some s) w c = e1 /\ Engine.better s p q = q1)
              \/ (Manager.pickWinner (Some s) w c = e2 /\ Engine.better s p q = q2)
              \/ (Manager.pickWinner (Some s) w c = e3 /\ Engine.better s p q = q3))
             /\ Manager.isSpade (Manager.card (Manager.pickWinner (Some s) w c))
                || suit_eqb (suitCode (Manager.card (Manager.pickWinner (Some s) w c))) s
                = true) as Step.
  { intros w p c q Hw Hc Iw.
    assert (Engine.card p = Spec.toEngineCard (Manager.card w)) as Ew
        by (destruct Hw as [[-> ->] | [[-> ->] | [[-> ->] | [-> ->]]]]; reflexivity).
    assert (Engine.card q = Spec.toEngineCard (Manager.card c)) as Ec
        by (destruct Hc as [[-> ->] | [[-> ->] | [-> ->]]]; reflexivity).
    destruct (pickWinner_better s w c p q Ew Ec Iw) as [[[-> ->] | [-> ->]] I];
      (split; [| exact I]); tauto. }
  destruct (Step e0 q0 e1 q1) as [R1 I1]; [tauto | tauto | exact I0 |].
  destruct (Step _ _ e2 q2 R1) as [R2 I2]; [tauto | exact I1 |].
  destruct (Step _ _ e3 q3 R2) as [R3 I3]; [tauto | exact I2 |].
  eexists _, _. split; [reflexivity |]. split; [reflexivity |].
  destruct R3 as [[-> ->] | [[-> ->] | [[-> ->] | [-> ->]]]]; split; reflexivity.
Qed.

(** The spec's example trick: both engines give it to the ace of spades,
    played third. *)
Lemma same_trick_winner_witness :
  exists w p,
    Manager.getWinnerOfTrick Spec.exampleManager = Some w
    /\ fst (Engine.determineTrickWinner Spec.exampleEngine) = Some p
    /\ nth_error Spec.exampleTrick (Engine.player p) = Some w
    /\ Engine.card p = Spec.toEngineCard (Manager.card w).
Proof.
  exact (@both_engines_pick_the_same_trick_winner Spec.exampleManager Spec.exampleEngine
           _ _ _ _ eq_refl eq_refl eq_refl).
Defined.

End Agreement.

(** ** Reading a card code in Game.js *)

Section Parsing.

Lemma suitOfChar_inv (c : ascii) (s : Suit) :
  Engine.suitOfChar (Some c) = Some s -> String c "" = suitCodeStr s.
Proof.
  destruct c as [[] [] [] [] [] [] [] []]; cbn; intros E; try discriminate E;
    inversion E; reflexivity.
Qed.

Lemma rankOfChar_inv (c : ascii) (r : Rank) :
  Engine.rankOfChar (Some c) = Some r ->
  String c "" = rankCodeStr r /\ r <> Ten.
Proof.
  destruct c as [[] [] [] [] [] [] [] []]; cbn; intros E; try discriminate E;
    inversion E; split; try reflexivity; discriminate.
Qed.

Lemma startsWith_10 (a b : ascii) (rest : string) :
  JS.startsWith (String a (String b rest)) "10" = true -> a = "1"%char /\ b = "0"%char.
Proof.
  unfold JS.startsWith. cbn [String.prefix].
  destruct (ascii_dec "1" a) as [<- |]; [| discriminate].
  destruct (ascii_dec "0" b) as [<- |]; [| discriminate]. auto.
Qed.

Lemma parseCard_sound (text : string) (s : Suit) (r : Rank) :
  Engine.parseCard text = Some (s, r) ->
  text = Spec.engineCode (Engine.mkCard s r)
  \/ text = Spec.engineCodeSuitFirst (Engine.mkCard s r).
Proof.
  unfold Engine.parseCard.
  destruct text as [| a [| b [| c [| d rest]]]]; cbn [String.length Nat.eqb];
    try discriminate.
  - (* two characters *)
    cbn [JS.charAt String.get].
    destruct (Engine.rankOfChar (Some a)) as [r1 |] eqn:Ra.
    + destruct (Engine.suitOfChar (Some b)) as [s1 |] eqn:Sb.
      * intros E. inversion E. subst. left.
         apply rankOfChar_inv in Ra. apply suitOfChar_inv in Sb.
         destruct Ra as [Ra Nt]. unfold Spec.engineCode. cbn [Engine.rank Engine.suit].
         inversion Sb as [Eb].
         destruct r; try (now contradiction Nt); cbn in Ra |- *; inversion Ra;
           reflexivity.
      * destruct (Engine.suitOfChar (Some a)) as [s1 |] eqn:Sa; [| discriminate].
         destruct (Engine.rankOfChar (Some b)) as [r2 |] eqn:Rb; [| discriminate].
         intros E. inversion E. subst. right.
         apply rankOfChar_inv in Rb. apply suitOfChar_inv in Sa.
         destruct Rb as [Rb Nt]. unfold Spec.engineCodeSuitFirst.
         cbn [Engine.rank Engine.suit]. inversion Sa as [Ea].
         destruct r; try (now contradiction Nt); cbn in Rb |- *; inversion Rb;
           reflexivity.
    + destruct (Engine.suitOfChar (Some a)) as [s1 |] eqn:Sa; [| discriminate].
      destruct (Engine.rankOfChar (Some b)) as [r2 |] eqn:Rb; [| discriminate].
      intros E. inversion E. subst. right.
      apply rankOfChar_inv in Rb. apply suitOfChar_inv in Sa.
      destruct Rb as [Rb Nt]. unfold Spec.engineCodeSuitFirst.
      cbn [Engine.rank Engine.suit]. inversion Sa as [Ea].
      destruct r; try (now contradiction Nt); cbn in Rb |- *; inversion Rb;
        reflexivity.
  - (* three characters *)
    cbn [JS.charAt String.get].
    destruct (JS.startsWith (String a (String b (String c ""))) "10") eqn:P.
    + apply startsWith_10 in P. destruct P as [-> ->].
      destruct (Engine.suitOfChar (Some c)) as [s1 |] eqn:Sc.
      * intros E. inversion E. subst. left.
         apply suitOfChar_inv in Sc. unfold Spec.engineCode.
         cbn [Engine.rank Engine.suit]. inversion Sc. reflexivity.
      * cbn. discriminate.
    + destruct (Engine.suitOfChar (Some a)) as [s1 |] eqn:Sa; [| discriminate].
      destruct (JS.endsWith (String a (String b (String c ""))) "10") eqn:Q;
        [| discriminate].
      intros E. inversion E. subst. right.
      apply suitOfChar_inv in Sa. unfold Spec.engineCodeSuitFirst.
      cbn [Engine.rank Engine.suit]. inversion Sa as [Ea].
      unfold JS.endsWith in Q. cbn in Q.
      destruct (Ascii.eqb_spec b "1") as [-> |]; [| discriminate Q].
      destruct (Ascii.eqb_spec c "0") as [-> |]; [| discriminate Q].
      reflexivity.
Qed.

Lemma parseCard_suit_first (c : Engine.Card) :
  Engine.parseCard (Spec.engineCodeSuitFirst c) = Some (Engine.suit c, Engine.rank c).
Proof. destruct c as [[] []]; reflexivity. Qed.

(** X26. Game.getCardFromInput reads a cleaned text as the card of suit s and
    rank r exactly when the text is one of the two codes of that card:
    rank then suit, or suit then rank, with 10 for the ten and the letters
    S, H, D, C and A, K, Q, J. Nothing else parses; the letter T is not a
    rank here. *)
Theorem parseCard_reads_exactly_the_two_codes_of_a_card :
  forall (text : string) (s : Suit) (r : Rank),
    Engine.parseCard text = Some (s, r)
    <-> text = Spec.engineCode (Engine.mkCard s r)
        \/ text = Spec.engineCodeSuitFirst (Engine.mkCard s r).
Proof.
  intros text s r. split.
  - apply parseCard_sound.
  - intros [-> | ->].
    + apply (parseCard_engineCode (Engine.mkCard s r)).
    + apply (parseCard_suit_first (Engine.mkCard s r)).
Qed.


End Parsing.

(** ** Taking a card out of a hand in Game.js *)

Section RemoveCard.

Lemma spliceFirst_spec (matches : Engine.Card -> bool) (h : list Engine.Card) :
  match Engine.spliceFirst matches h with
  | Some h' => exists l1 x l2, h = l1 ++ x :: l2 /\ h' = l1 ++ l2 /\ matches x = true
                               /\ forall y, In y l1 -> matches y = false
  | None => forall y, In y h -> matches y = false
  end.
Proof.
  induction h as [| c h IH]; cbn [Engine.spliceFirst]; [intros y [] |].
  destruct (matches c) eqn:E.
  - exists [], c, h. cbn. repeat split; auto. intros y [].
  - destruct (Engine.spliceFirst matches h) as [h' |]; cbn [option_map].
    + destruct IH as (l1 & x & l2 & -> & -> & Hx & Hno).
      exists (c :: l1), x, l2. cbn. split; [reflexivity | split; [reflexivity |]].
      split; [exact Hx |]. intros y [<- | Hy]; auto.
    + intros y [<- | Hy]; auto.
Qed.

Lemma same_card (c x : Engine.Card) :
  suit_eqb (Engine.suit x) (Engine.suit c) && Engine.rank_eqb (Engine.rank x) (Engine.rank c)
  = true <-> x = c.
Proof.
  destruct x as [sx rx], c as [sc rc]. cbn [Engine.suit Engine.rank].
  rewrite andb_true_iff, suit_eqb_eq. unfold Engine.rank_eqb. rewrite Z.eqb_eq. split.
  - intros [-> E]. f_equal. destruct rx, rc; try reflexivity; discriminate E.
  - intros E. inversion E. auto.
Qed.

(** X28. Player.removeCard of Game.js, on a host whose sort keeps the cards it
    sorts: a card that is in the hand leaves it once, however often the
    hand holds it, and the other cards all stay; a card that is not in the
    hand changes nothing, and the hand is not even sorted. Nothing but the
    hand changes. *)
Theorem engine_removeCard_takes_the_card_out_once :
  forall (sortHandOrder : list Engine.Card -> list Engine.Card)
         (p : Engine.Player) (c : Engine.Card),
    (forall l, Permutation (sortHandOrder l) l) ->
    (In c (Engine.hand p) ->
     Permutation (c :: Engine.hand (Engine.removeCard sortHandOrder p c)) (Engine.hand p))
    /\ (~ In c (Engine.hand p) -> Engine.removeCard sortHandOrder p c = p)
    /\ Engine.setHand (Engine.removeCard sortHandOrder p c) (Engine.hand p) = p.
Proof.
  intros sortHandOrder p c Hsort. unfold Engine.removeCard.
  pose proof (spliceFirst_spec
                (fun x => suit_eqb (Engine.suit x) (Engine.suit c)
                          && Engine.rank_eqb (Engine.rank x) (Engine.rank c))
                (Engine.hand p)) as S.
  destruct (Engine.spliceFirst _ (Engine.hand p)) as [h' |].
  - destruct S as (l1 & x & l2 & E1 & E2 & Hx & _).
    apply same_card in Hx. subst x.
    split; [| split].
    + intros _. cbn [Engine.hand Engine.setHand]. rewrite E1, E2.
      eapply perm_trans; [apply perm_skip; apply Hsort | apply Permutation_middle].
    + intros N. exfalso. apply N. rewrite E1. apply in_or_app. right. now left.
    + destruct p. reflexivity.
  - split; [| split].
    + intros Hin. specialize (S c Hin).
      rewrite (proj2 (same_card c c) eq_refl) in S. discriminate S.
    + reflexivity.
    + destruct p. reflexivity.
Qed.

(** North of Game.js plays the ace of spades, on a host whose sort leaves
    the hand as it is. *)
Lemma engine_removeCard_witness :
  Permutation
    (Engine.mkCard Spades Ace
       :: Engine.hand (Engine.removeCard (fun l => l) Spec.engineLeader
                                         (Engine.mkCard Spades Ace)))
    (Engine.hand Spec.engineLeader)
  /\ Engine.removeCard (fun l => l) Spec.engineLeader (Engine.mkCard Hearts Ace)
     = Spec.engineLeader.
Proof.
  destruct (engine_removeCard_takes_the_card_out_once
              (fun l => l) Spec.engineLeader (Engine.mkCard Spades Ace)
              (fun l => Permutation_refl l)) as (A & _ & _).
  destruct (engine_removeCard_takes_the_card_out_once
              (fun l => l) Spec.engineLeader (Engine.mkCard Hearts Ace)
              (fun l => Permutation_refl l)) as (_ & B & _).
  split.
  - apply A. cbn. auto.
  - apply B. cbn. intros [F | [F | []]]; discriminate F.
Defined.

End RemoveCard.

(** ** The button bids and the end of the game *)

Section Lifecycle.

Local Open Scope nat_scope.

(** X29. What GameManager.tryPlaceBid reports for a bid it places, while fewer
    bids are taken than there are players: the number of bids still to
    come, which is one less than before; bidding complete exactly when
    none is left, which is when bidding is closed and trick play is on;
    and the display Nil exactly for a bid that equals 0. The bid counter
    goes up by one and the players keep their seats. *)
Theorem tryPlaceBid_reports_the_bids_that_remain :
  forall (g g' : Manager.GameManager spec_float) (pid : string) (v : JS.Value)
         (nilShown complete : bool) (remaining : nat),
    Manager.tryPlaceBid g pid v = (Manager.TryPlaced nilShown complete remaining, g') ->
    Manager.bidsTaken g < List.length (Manager.players g) ->
    remaining + S (Manager.bidsTaken g) = List.length (Manager.players g)
    /\ (complete = true <-> remaining = 0)
    /\ Manager.isBiddingActive g' = negb complete
    /\ (complete = true -> Manager.isTrickActive g' = true)
    /\ Manager.bidsTaken g' = S (Manager.bidsTaken g)
    /\ List.length (Manager.players g') = List.length (Manager.players g)
    /\ exists x, v = JS.Number x /\ nilShown = SFeqb x JS.zero.
Proof.
  intros g g' pid v nilShown complete remaining. unfold Manager.tryPlaceBid.
  destruct (Manager.isBiddingActive g) eqn:Hact; cbn [negb orb]; [| discriminate].
  destruct (negb _); [discriminate |].
  destruct (nth_error _ _) as [cur |]; [| discriminate].
  destruct (negb _); [discriminate |].
  destruct v as [| | b | s | x |]; try discriminate.
  destruct (_ || _); [discriminate |].
  intros E Hlt. injection E as <- <- <- <-.
  destruct (recordBid_effect g x) as ((F & HF & _) & Hbt & Hmore & Hlast).
  rewrite Hbt, HF, length_updateNth.
  destruct (Nat.ltb_spec (S (Manager.bidsTaken g)) (List.length (Manager.players g)))
    as [Hl | Hg]; cbn [negb].
  - destruct (Hmore Hl) as (A & _). rewrite A, Hact.
    repeat split; try lia; try discriminate. eauto.
  - destruct (Hlast Hg) as (A & T & _). rewrite A.
    repeat split; try lia; auto. eauto.
Qed.

(** North bids 2.5 through the buttons at a table of one. *)
Lemma tryPlaceBid_reports_witness :
  exists nilShown complete remaining g',
    Manager.tryPlaceBid Spec.buttonState "north" (JS.Number Spec.twoAndHalf)
    = (Manager.TryPlaced nilShown complete remaining, g')
    /\ remaining + 1 = 1 /\ Manager.isBiddingActive g' = negb complete.
Proof.
  eexists _, _, _, _. split; [reflexivity |].
  refine ((fun K => conj (proj1 K) (proj1 (proj2 (proj2 K))))
            (@tryPlaceBid_reports_the_bids_that_remain
               Spec.buttonState _ "north" (JS.Number Spec.twoAndHalf) _ _ _ eq_refl _)).
  vm_compute. apply le_n.
Defined.

(** X30. Once GameManager.endRound has ended the game, which it does from trick
    play, the game takes no further bid and no further play: processBid
    and processCardPlay turn every call down and change nothing. The game
    is still marked active and its state label is what it was; no label
    says that the game is over. *)
Theorem game_over_turns_every_call_down :
  forall (rand : nat -> nat) (g g' : Manager.GameManager Z),
    Manager.endRound rand g = (true, g') ->
    Manager.isBiddingActive g = false ->
    (forall (rand' : nat -> nat) (pid raw : string),
        Manager.processBid g' pid raw = (Manager.BiddingInactive, g')
        /\ Manager.processCardPlay rand' g' pid raw = (Manager.TrickNotActive, g'))
    /\ Manager.isGameActive g' = Manager.isGameActive g
    /\ Manager.state g' = Manager.state g
    /\ Manager.currentPlayerIndex g' = Manager.currentPlayerIndex g.
Proof.
  intros rand g g'. unfold Manager.endRound. cbv zeta.
  destruct (Manager.checkGameEnd _ _); [| discriminate].
  intros E Hbid. injection E as <-.
  split; [| cbn; auto].
  intros rand' pid raw. unfold Manager.processBid, Manager.processCardPlay.
  cbn [Manager.isBiddingActive Manager.isTrickActive Manager.setPlayers
       Manager.setTrickActive].
  rewrite Hbid. split; reflexivity.
Qed.

(** North and south reach 550 from 480: the game is over and a further
    bid or play is turned down. *)
Lemma game_over_witness :
  fst (Manager.processBid (snd (Manager.endRound Spec.draws (Spec.lastTrickDone Spec.nearTarget)))
         "north" "3") = Manager.BiddingInactive
  /\ fst (Manager.processCardPlay Spec.draws
            (snd (Manager.endRound Spec.draws (Spec.lastTrickDone Spec.nearTarget)))
            "north" "AS") = Manager.TrickNotActive.
Proof.
  destruct (@game_over_turns_every_call_down Spec.draws (Spec.lastTrickDone Spec.nearTarget)
              (snd (Manager.endRound Spec.draws (Spec.lastTrickDone Spec.nearTarget)))
              eq_refl eq_refl) as (K & _).
  destruct (K Spec.draws "north" "3") as (A & _).
  destruct (K Spec.draws "north" "AS") as (_ & B).
  split; [rewrite A | rewrite B]; reflexivity.
Defined.

End Lifecycle.

(** ** A Nil bid on the scoreboard *)

Section NilOnTheBoard.

Local Open Scope Z_scope.



End NilOnTheBoard.

